(** * setup_hla_database.py: the HLA FASTA cache manager

    A shallow embedding of [setup_hla_database.py] (cache directory
    resolver, fetch-and-cache operation, config loader) together with the
    parts of the Python runtime the script relies on: strings, binary64
    floats, [pathlib] paths, the [json] encoder and decoder, a file
    system, the [requests] transport and the console. *)

From Stdlib Require Import ZArith QArith Qabs Ascii String List Bool Lia.
From stdpp Require Import base option list strings gmap.

Local Open Scope Z_scope.

(* ===================================================================== *)
(** * Python strings and bytes *)
(* ===================================================================== *)

(** A Python [str] is a sequence of Unicode code points, a [bytes] object
    a sequence of octets; both are lists of integers here. *)
Abbreviation str := (list Z) (only parsing).
Abbreviation bytes := (list Z) (only parsing).

(** A literal of the script. *)
Fixpoint u (s : string) : str :=
  match s with
  | EmptyString => []
  | String c rest => Z.of_nat (nat_of_ascii c) :: u rest
  end.
Arguments u : simpl never.

Module Str.

Definition eqb (a b : str) : bool := bool_decide (a = b).

(** [sep.join(parts)] *)
Fixpoint join (sep : str) (parts : list str) : str :=
  match parts with
  | [] => []
  | [p] => p
  | p :: rest => p ++ sep ++ join sep rest
  end.

(** [s.split(c)] for a one-character separator *)
Fixpoint split (c : Z) (s : str) : list str :=
  match s with
  | [] => [[]]
  | x :: rest =>
      if x =? c then [] :: split c rest
      else match split c rest with
           | [] => [[x]]
           | w :: ws => (x :: w) :: ws
           end
  end.

(** [s.replace(a, b)] for one-character [a] and [b] *)
Definition replace (a b : Z) (s : str) : str :=
  map (fun x => if x =? a then b else x) s.

(** [s.find(c, start)]: the index of the first [c] at or after [start] *)
Fixpoint find_from (c : Z) (s : str) (start : nat) : option nat :=
  match s with
  | [] => None
  | x :: rest =>
      match start with
      | O => if x =? c then Some O else S <$> find_from c rest O
      | S start' => S <$> find_from c rest start'
      end
  end.

Definition upper_char (c : Z) : Z :=
  if (97 <=? c) && (c <=? 122) then c - 32 else c.

(** ASCII part of [s.upper()] *)
Definition upper (s : str) : str := map upper_char s.

Fixpoint starts_with (prefix s : str) : bool :=
  match prefix, s with
  | [], _ => true
  | p :: prefix', x :: s' => (p =? x) && starts_with prefix' s'
  | _ :: _, [] => false
  end.

Definition ends_with (suffix s : str) : bool :=
  starts_with (rev suffix) (rev s).

Definition is_digit (c : Z) : bool := (48 <=? c) && (c <=? 57).

(** the whitespace [int()] and [str.strip()] skip, below code point 256 *)
Definition is_space (c : Z) : bool :=
  ((9 <=? c) && (c <=? 13)) || ((28 <=? c) && (c <=? 32)) ||
  (c =? 133) || (c =? 160).

Fixpoint lstrip (s : str) : str :=
  match s with
  | x :: rest => if is_space x then lstrip rest else s
  | [] => []
  end.

Definition strip (s : str) : str := rev (lstrip (rev (lstrip s))).

(** digits with single underscores between them; [prev] tells whether
    the previous character was a digit *)
Fixpoint int_digits (s : str) (prev : bool) (acc : Z) : option Z :=
  match s with
  | [] => if prev then Some acc else None
  | x :: rest =>
      if is_digit x then int_digits rest true (10 * acc + (x - 48))
      else if (x =? 95) && prev then int_digits rest false acc
      else None
  end.

(** [int(s)] in base ten; [None] is [ValueError] *)
Definition int_of_str (s : str) : option Z :=
  match strip s with
  | 45 :: rest => Z.opp <$> int_digits rest false 0
  | 43 :: rest => int_digits rest false 0
  | rest => int_digits rest false 0
  end.

End Str.

(* ===================================================================== *)
(** * Python floats (IEEE-754 binary64) *)
(* ===================================================================== *)

Module Float.

(** A finite float is [(-1)^neg * m * 2^e] in canonical form:
    [0 <= m < 2^53], [-1074 <= e], and [2^52 <= m] unless [e = -1074]
    (subnormals and zero). *)
Inductive pyfloat :=
| Finite (neg : bool) (m : Z) (e : Z)
| Inf (neg : bool)
| NaN.

Definition emin : Z := -1074.
(** largest exponent of a canonical finite mantissa: a value reaches
    2^1024 as soon as its exponent exceeds it *)
Definition emax : Z := 971.

Definition bits (n : Z) : Z := if n =? 0 then 0 else Z.log2 n + 1.

(** Round-to-nearest, ties-to-even, of the non-negative rational
    [num / den] to a canonical mantissa and exponent (the exponent is
    not bounded above here; the callers test it against [emax]). *)
Definition round_ratio (num den : Z) : Z * Z :=
  if num =? 0 then (0, emin) else
  let k := Z.log2 num - Z.log2 den in
  let s := 55 - k in
  let N := if 0 <=? s then num * 2 ^ s else num in
  let D := if 0 <=? s then den else den * 2 ^ (- s) in
  let Q := N / D in
  let sticky := negb (N mod D =? 0) in
  let d := Z.max (bits Q - 53) (s + emin) in
  let m0 := Q / 2 ^ d in
  let low := Q mod 2 ^ d in
  let half := 2 ^ (d - 1) in
  let up := (half <? low) || ((low =? half) && (sticky || Z.odd m0)) in
  let m := if up then m0 + 1 else m0 in
  if m =? 2 ^ 53 then (2 ^ 52, d - s + 1) else (m, d - s).

Inductive arith_error := ZeroDivisionError | OverflowError.

(** [a / b] on Python ints: the correctly rounded quotient. *)
Definition int_truediv (a b : Z) : arith_error + pyfloat :=
  if b =? 0 then inl ZeroDivisionError else
  let neg := xorb (a <? 0) (b <? 0) in
  let '(m, e) := round_ratio (Z.abs a) (Z.abs b) in
  if emax <? e then inl OverflowError else inr (Finite neg m e).

(** [float(n)] for a Python int. *)
Definition float_of_int (n : Z) : arith_error + pyfloat :=
  int_truediv n 1.

(** The non-negative dyadic [m * 2^e] as a ratio. *)
Definition dyadic_ratio (m e : Z) : Z * Z :=
  if 0 <=? e then (m * 2 ^ e, 1) else (m, 2 ^ (- e)).

(** [x * y] on floats. *)
Definition float_mul (x y : pyfloat) : pyfloat :=
  match x, y with
  | NaN, _ | _, NaN => NaN
  | Inf s1, Inf s2 => Inf (xorb s1 s2)
  | Inf s1, Finite s2 m _ | Finite s2 m _, Inf s1 =>
      if m =? 0 then NaN else Inf (xorb s1 s2)
  | Finite s1 m1 e1, Finite s2 m2 e2 =>
      let '(n, d) := dyadic_ratio (m1 * m2) (e1 + e2) in
      let '(m, e) := round_ratio n d in
      if emax <? e then Inf (xorb s1 s2) else Finite (xorb s1 s2) m e
  end.

(** The float nearest to the decimal [d * 10^t] ([d >= 0]), as
    [float("...")] computes it; overflow gives infinity. *)
Definition float_of_decimal (neg : bool) (d t : Z) : pyfloat :=
  let '(m, e) :=
    if 0 <=? t then round_ratio (d * 10 ^ t) 1 else round_ratio d (10 ^ (- t)) in
  if emax <? e then Inf neg else Finite neg m e.

(** The exact value of a finite float as a rational. *)
Definition to_Q (x : pyfloat) : option Q :=
  match x with
  | Finite neg m e =>
      let '(n, d) := dyadic_ratio m e in
      Some (Qmake (if neg then - n else n) (Z.to_pos d))
  | _ => None
  end.

(** ** [repr(float)]: the shortest decimal string that reads back *)

Fixpoint digits_go (fuel : nat) (n : Z) (acc : str) : str :=
  match fuel with
  | O => acc
  | S fuel' =>
      let acc' := (48 + n mod 10) :: acc in
      if n <? 10 then acc' else digits_go fuel' (n / 10) acc'
  end.

(** decimal digits of a non-negative integer, most significant first *)
Definition Z_digits (n : Z) : str :=
  digits_go (S (Z.to_nat (Z.log2 n))) n [].

(** The decimal point position [p] of the positive rational [num / den]:
    [10^(p-1) <= num/den < 10^p]. *)
Fixpoint decpt_up (fuel : nat) (num den p : Z) : Z :=
  match fuel with
  | O => p
  | S fuel' => if num <? den * 10 ^ p then p else decpt_up fuel' num den (p + 1)
  end.

Fixpoint decpt_down (fuel : nat) (num den j : Z) : Z :=
  match fuel with
  | O => - j
  | S fuel' =>
      if den <=? num * 10 ^ (j + 1) then - j else decpt_down fuel' num den (j + 1)
  end.

Definition decpt_of (num den : Z) : Z :=
  if den <=? num then decpt_up 400 num den 1 else decpt_down 400 num den 0.

(** [num/den] scaled by [10^(-t)], as a ratio *)
Definition scale10 (num den t : Z) : Z * Z :=
  if 0 <=? t then (num, den * 10 ^ t) else (num * 10 ^ (- t), den).

Definition reads_back (m e d t : Z) : bool :=
  match float_of_decimal false d t with
  | Finite _ m' e' => (m' =? m) && (e' =? e)
  | _ => false
  end.

(** Try the [k]-digit decimals around [m * 2^e]; [force] accepts the
    nearest one without the read-back test (17 digits always suffice). *)
Definition shortest_at (m e p k : Z) (force : bool) : option (Z * Z) :=
  let '(num, den) := dyadic_ratio m e in
  let t := p - k in
  let '(A, B) := scale10 num den t in
  let lo := A / B in
  let hi := lo + 1 in
  let r2 := 2 * (A - lo * B) in
  let prefer_lo := (r2 <? B) || ((r2 =? B) && Z.even lo) in
  let ok_lo := force || reads_back m e lo t in
  let ok_hi := force || reads_back m e hi t in
  if prefer_lo then
    if ok_lo then Some (lo, t) else if ok_hi then Some (hi, t) else None
  else
    if ok_hi then Some (hi, t) else if ok_lo then Some (lo, t) else None.

Fixpoint shortest_go (fuel : nat) (m e p k : Z) : Z * Z :=
  match fuel with
  | O => (m, e)
  | S fuel' =>
      match shortest_at m e p k (17 <=? k) with
      | Some r => r
      | None => shortest_go fuel' m e p (k + 1)
      end
  end.

(** drop the trailing zero digits of the digits after the first *)
Fixpoint strip_zeros (s : str) : str :=
  match s with
  | [] => []
  | c :: rest =>
      match strip_zeros rest with
      | [] => if c =? 48 then [] else [c]
      | rest' => c :: rest'
      end
  end.

Definition strip_trailing_zeros (s : str) : str :=
  match s with
  | [] => []
  | c :: rest => c :: strip_zeros rest
  end.

(** shortest digits and decimal point of a positive finite float:
    the value is [0.d1d2...dn * 10^decpt] *)
Definition shortest_digits (m e : Z) : str * Z :=
  let '(num, den) := dyadic_ratio m e in
  let p := decpt_of num den in
  let '(d, t) := shortest_go 17 m e p 1 in
  let ds := Z_digits d in
  (strip_trailing_zeros ds, t + Z.of_nat (length ds)).

Definition exponent_text (x : Z) : str :=
  let sign := if x <? 0 then 45 else 43 in
  let a := Z.abs x in
  sign :: (if a <? 10 then 48 :: Z_digits a else Z_digits a).

(** CPython's format code ['r'] with the add-dot-zero flag *)
Definition format_repr (ds : str) (decpt : Z) : str :=
  let n := Z.of_nat (length ds) in
  if (decpt <=? -4) || (16 <? decpt) then
    match ds with
    | [] => []
    | [d1] => d1 :: 101 :: exponent_text (decpt - 1)
    | d1 :: rest => d1 :: 46 :: rest ++ 101 :: exponent_text (decpt - 1)
    end
  else if decpt <=? 0 then
    48 :: 46 :: replicate (Z.to_nat (- decpt)) 48 ++ ds
  else if decpt <? n then
    take (Z.to_nat decpt) ds ++ 46 :: drop (Z.to_nat decpt) ds
  else
    ds ++ replicate (Z.to_nat (decpt - n)) 48 ++ [46; 48].

Definition float_repr (x : pyfloat) : str :=
  match x with
  | NaN => u "nan"
  | Inf neg => if neg then u "-inf" else u "inf"
  | Finite neg m e =>
      let sign := if neg then [45] else [] in
      if m =? 0 then sign ++ u "0.0"
      else let '(ds, decpt) := shortest_digits m e in sign ++ format_repr ds decpt
  end.

End Float.

Import Float.

(* ===================================================================== *)
(** * pathlib *)
(* ===================================================================== *)

Module PathLib.

Inductive flavour := Posix | Windows.

(** A pure path as [pathlib] keeps it: drive, root and the tail parts. *)
Record Path := mkPath {
  p_flavour : flavour;
  p_drive : str;
  p_root : str;
  p_tail : list str
}.

Definition sep (f : flavour) : Z :=
  match f with Posix => 47 | Windows => 92 end.

Definition unc_prefix : str := u "\\?\UNC\".

(** [os.path.splitroot] of [posixpath] and [ntpath] (alternative
    separators already replaced): drive, root and the rest. *)
Definition splitroot (f : flavour) (p : str) : str * str * str :=
  match f with
  | Posix =>
      match p with
      | c1 :: rest =>
          if c1 =? 47 then
            match rest with
            | c2 :: rest2 =>
                if c2 =? 47 then
                  match rest2 with
                  | c3 :: _ => if c3 =? 47 then ([], [47], rest) else ([], [47; 47], rest2)
                  | [] => ([], [47; 47], rest2)
                  end
                else ([], [47], rest)
            | [] => ([], [47], rest)
            end
          else ([], [], p)
      | [] => ([], [], p)
      end
  | Windows =>
      if Str.starts_with [92; 92] p then
        let start := if Str.eqb (Str.upper (take 8 p)) unc_prefix then 8%nat else 2%nat in
        match Str.find_from 92 p start with
        | None => (p, [], [])
        | Some index =>
            match Str.find_from 92 p (S index) with
            | None => (p, [], [])
            | Some index2 => (take index2 p, take 1 (drop index2 p), drop (S index2) p)
            end
        end
      else if Str.starts_with [92] p then ([], take 1 p, drop 1 p)
      else if Str.eqb (take 1 (drop 1 p)) [58] then
        if Str.eqb (take 1 (drop 2 p)) [92] then (take 2 p, [92], drop 3 p)
        else (take 2 p, [], drop 2 p)
      else ([], [], p)
  end.

(** [x in '?.'] *)
Definition in_qdot (x : str) : bool :=
  Str.eqb x [] || Str.eqb x [63] || Str.eqb x [46] || Str.eqb x [63; 46].

Definition is_part (x : str) : bool := negb (Str.eqb x []) && negb (Str.eqb x [46]).

(** [Path(s)]: parse a string into drive, root and tail. *)
Definition parse_path (f : flavour) (path : str) : Path :=
  match path with
  | [] => mkPath f [] [] []
  | _ =>
      let path := match f with Windows => Str.replace 47 92 path | Posix => path end in
      let '(drv, root, rel) := splitroot f path in
      let root :=
        if Str.eqb root [] && Str.starts_with [sep f] drv && negb (Str.ends_with [sep f] drv)
        then
          let drv_parts := Str.split (sep f) drv in
          if (length drv_parts =? 4)%nat && negb (in_qdot (default [] (drv_parts !! 2%nat)))
          then [sep f]
          else if (length drv_parts =? 6)%nat then [sep f] else root
        else root in
      mkPath f drv root (filter (fun x => is_part x = true) (Str.split (sep f) rel))
  end.

(** [str(p)] *)
Definition format_parsed_parts (f : flavour) (drv root : str) (tail : list str) : str :=
  if negb (Str.eqb drv []) || negb (Str.eqb root []) then
    drv ++ root ++ Str.join [sep f] tail
  else
    match tail with
    | t0 :: _ =>
        if negb (Str.eqb (splitroot f t0).1.1 []) then Str.join [sep f] ([46] :: tail)
        else Str.join [sep f] tail
    | [] => Str.join [sep f] tail
    end.

Definition path_str (p : Path) : str :=
  match format_parsed_parts (p_flavour p) (p_drive p) (p_root p) (p_tail p) with
  | [] => [46]
  | s => s
  end.

(** [p / name] for a plain relative segment (no separator, no drive,
    neither empty nor a dot), the only kind the script joins: the
    segment is appended to the tail. *)
Definition joinpath (p : Path) (name : str) : Path :=
  mkPath (p_flavour p) (p_drive p) (p_root p) (p_tail p ++ [name]).

(** [p.parent] *)
Definition parent (p : Path) : Path :=
  mkPath (p_flavour p) (p_drive p) (p_root p) (removelast (p_tail p)).

End PathLib.

Import PathLib.

Declare Scope path_scope.
Delimit Scope path_scope with path.
Infix "//" := joinpath (at level 40, left associativity) : path_scope.

(* ===================================================================== *)
(** * Text files: the UTF-8 codec and newline translation *)
(* ===================================================================== *)

Module Codec.

Definition is_cont (b : Z) : bool := (128 <=? b) && (b <=? 191).

(** strict UTF-8 decoding; [None] is [UnicodeDecodeError] *)
Fixpoint utf8_decode (bs : bytes) : option str :=
  match bs with
  | [] => Some []
  | b0 :: r0 =>
      if (0 <=? b0) && (b0 <? 128) then cons b0 <$> utf8_decode r0
      else match r0 with
      | b1 :: r1 =>
          if (194 <=? b0) && (b0 <=? 223) then
            if is_cont b1
            then cons ((b0 - 192) * 64 + (b1 - 128)) <$> utf8_decode r1
            else None
          else match r1 with
          | b2 :: r2 =>
              if (224 <=? b0) && (b0 <=? 239) then
                let cp := ((b0 - 224) * 64 + (b1 - 128)) * 64 + (b2 - 128) in
                if is_cont b1 && is_cont b2 && (2048 <=? cp)
                   && negb ((55296 <=? cp) && (cp <=? 57343))
                then cons cp <$> utf8_decode r2
                else None
              else match r2 with
              | b3 :: r3 =>
                  if (240 <=? b0) && (b0 <=? 244) then
                    let cp := (((b0 - 240) * 64 + (b1 - 128)) * 64 + (b2 - 128)) * 64
                              + (b3 - 128) in
                    if is_cont b1 && is_cont b2 && is_cont b3
                       && (65536 <=? cp) && (cp <=? 1114111)
                    then cons cp <$> utf8_decode r3
                    else None
                  else None
              | [] => None
              end
          | [] => None
          end
      | [] => None
      end
  end.

(** strict UTF-8 encoding; [None] is [UnicodeEncodeError] *)
Definition utf8_encode_char (c : Z) : option bytes :=
  if (0 <=? c) && (c <? 128) then Some [c]
  else if (128 <=? c) && (c <? 2048) then Some [192 + c / 64; 128 + c mod 64]
  else if (55296 <=? c) && (c <=? 57343) then None
  else if (2048 <=? c) && (c <? 65536) then
    Some [224 + c / 4096; 128 + c / 64 mod 64; 128 + c mod 64]
  else if (65536 <=? c) && (c <=? 1114111) then
    Some [240 + c / 262144; 128 + c / 4096 mod 64; 128 + c / 64 mod 64; 128 + c mod 64]
  else None.

Fixpoint utf8_encode (s : str) : option bytes :=
  match s with
  | [] => Some []
  | c :: rest =>
      match utf8_encode_char c, utf8_encode rest with
      | Some bs, Some bs' => Some (bs ++ bs')
      | _, _ => None
      end
  end.

(** reading in text mode: ["\r\n"] and ["\r"] become ["\n"] *)
Fixpoint universal_newlines (s : str) : str :=
  match s with
  | [] => []
  | c :: rest =>
      if c =? 13 then
        match rest with
        | c2 :: rest2 => if c2 =? 10 then 10 :: universal_newlines rest2
                         else 10 :: universal_newlines rest
        | [] => [10]
        end
      else c :: universal_newlines rest
  end.

(** writing in text mode: ["\n"] becomes [os.linesep] *)
Definition linesep (f : flavour) : str :=
  match f with Posix => [10] | Windows => [13; 10] end.

Definition translate_newlines (f : flavour) (s : str) : str :=
  flat_map (fun c => if c =? 10 then linesep f else [c]) s.

End Codec.

(* ===================================================================== *)
(** * json: encoder and decoder *)
(* ===================================================================== *)

Module Json.

(** A JSON document as Python holds it; a dict is the list of its
    pairs in insertion order. *)
#[warnings="-register-all"]
Inductive json :=
| JNull
| JBool (b : bool)
| JInt (n : Z)
| JFloat (x : pyfloat)
| JStr (s : str)
| JArr (items : list json)
| JObj (members : list (str * json)).

(** [d[key] = v] on the pairs of a dict: a key already present keeps
    its place and takes the new value *)
Fixpoint dict_set (key : str) (v : json) (d : list (str * json)) : list (str * json) :=
  match d with
  | [] => [(key, v)]
  | (k, x) :: rest =>
      if Str.eqb k key then (k, v) :: rest else (k, x) :: dict_set key v rest
  end.

(** [d[key]]; [None] is [KeyError] *)
Fixpoint dict_get (key : str) (d : list (str * json)) : option json :=
  match d with
  | [] => None
  | (k, v) :: rest => if Str.eqb k key then Some v else dict_get key rest
  end.

(** ** Encoder ([json.dumps], [ensure_ascii=True]) *)

Definition hex_digit (d : Z) : Z := if d <? 10 then 48 + d else 87 + d.

Definition hex4 (n : Z) : str :=
  [hex_digit (n / 4096 mod 16); hex_digit (n / 256 mod 16);
   hex_digit (n / 16 mod 16); hex_digit (n mod 16)].

Definition escape_char (c : Z) : str :=
  if c =? 92 then [92; 92]
  else if c =? 34 then [92; 34]
  else if c =? 8 then [92; 98]
  else if c =? 12 then [92; 102]
  else if c =? 10 then [92; 110]
  else if c =? 13 then [92; 114]
  else if c =? 9 then [92; 116]
  else if (32 <=? c) && (c <=? 126) then [c]
  else if c <? 65536 then 92 :: 117 :: hex4 c
  else
    let n := c - 65536 in
    let s1 := Z.lor 55296 (Z.land (Z.shiftr n 10) 1023) in
    let s2 := Z.lor 56320 (Z.land n 1023) in
    92 :: 117 :: hex4 s1 ++ 92 :: 117 :: hex4 s2.

Definition encode_basestring_ascii (s : str) : str :=
  34 :: flat_map escape_char s ++ [34].

Definition floatstr (x : pyfloat) : str :=
  match x with
  | NaN => u "NaN"
  | Inf false => u "Infinity"
  | Inf true => u "-Infinity"
  | Finite _ _ _ => float_repr x
  end.

Definition intstr (n : Z) : str :=
  if n <? 0 then 45 :: Z_digits (- n) else Z_digits n.

Definition newline_indent (indent level : nat) : str :=
  10 :: replicate (indent * level) 32.

Fixpoint iterencode (indent level : nat) (o : json) : str :=
  match o with
  | JNull => u "null"
  | JBool true => u "true"
  | JBool false => u "false"
  | JInt n => intstr n
  | JFloat x => floatstr x
  | JStr s => encode_basestring_ascii s
  | JArr [] => u "[]"
  | JArr items =>
      91 :: newline_indent indent (S level)
      ++ Str.join (44 :: newline_indent indent (S level))
           (map (iterencode indent (S level)) items)
      ++ newline_indent indent level ++ [93]
  | JObj [] => u "{}"
  | JObj members =>
      123 :: newline_indent indent (S level)
      ++ Str.join (44 :: newline_indent indent (S level))
           (map (fun kv => match kv with
                           | (k, v) => encode_basestring_ascii k ++ [58; 32]
                                       ++ iterencode indent (S level) v
                           end) members)
      ++ newline_indent indent level ++ [125]
  end.

(** [json.dumps(o, indent=indent)] *)
Definition dumps (indent : nat) (o : json) : str := iterencode indent 0 o.

(** ** Decoder ([json.loads]) *)

Definition is_ws (c : Z) : bool :=
  (c =? 32) || (c =? 9) || (c =? 10) || (c =? 13).

Fixpoint skip_ws (s : str) : str :=
  match s with
  | c :: rest => if is_ws c then skip_ws rest else s
  | [] => []
  end.

Definition hex_value (c : Z) : option Z :=
  if (48 <=? c) && (c <=? 57) then Some (c - 48)
  else if (97 <=? c) && (c <=? 102) then Some (c - 87)
  else if (65 <=? c) && (c <=? 70) then Some (c - 55)
  else None.

Definition hex4_value (a b c d : Z) : option Z :=
  match hex_value a, hex_value b, hex_value c, hex_value d with
  | Some x, Some y, Some z, Some w => Some (((x * 16 + y) * 16 + z) * 16 + w)
  | _, _, _, _ => None
  end.

Definition unescape (esc : Z) : option Z :=
  if (esc =? 34) || (esc =? 92) || (esc =? 47) then Some esc
  else if esc =? 98 then Some 8
  else if esc =? 102 then Some 12
  else if esc =? 110 then Some 10
  else if esc =? 114 then Some 13
  else if esc =? 116 then Some 9
  else None.

Definition is_high_surrogate (c : Z) : bool := (55296 <=? c) && (c <=? 56319).
Definition is_low_surrogate (c : Z) : bool := (56320 <=? c) && (c <=? 57343).

Definition push (c : Z) (r : option (str * str)) : option (str * str) :=
  match r with
  | Some (v, rest) => Some (c :: v, rest)
  | None => None
  end.

(** [scanstring] in strict mode, from just after the opening quote:
    the decoded string and the text after the closing quote *)
Fixpoint scanstring (s : str) : option (str * str) :=
  match s with
  | [] => None
  | c :: rest =>
      if c =? 34 then Some ([], rest)
      else if c =? 92 then
        match rest with
        | [] => None
        | esc :: rest1 =>
            if esc =? 117 then
              match rest1 with
              | a :: b :: c' :: d :: rest2 =>
                  match hex4_value a b c' d with
                  | None => None
                  | Some uni =>
                      if is_high_surrogate uni then
                        match rest2 with
                        | bs :: uu :: a2 :: b2 :: c2 :: d2 :: rest3 =>
                            if (bs =? 92) && (uu =? 117) then
                              match hex4_value a2 b2 c2 d2 with
                              | None => None
                              | Some uni2 =>
                                  if is_low_surrogate uni2 then
                                    push (65536 + Z.lor (Z.shiftl (uni - 55296) 10)
                                                        (uni2 - 56320))
                                         (scanstring rest3)
                                  else push uni (scanstring rest2)
                              end
                            else push uni (scanstring rest2)
                        | _ => push uni (scanstring rest2)
                        end
                      else push uni (scanstring rest2)
                  end
              | _ => None
              end
            else
              match unescape esc with
              | Some ch => push ch (scanstring rest1)
              | None => None
              end
        end
      else if (0 <=? c) && (c <? 32) then None
      else push c (scanstring rest)
  end.

Fixpoint span_digits (s : str) : str * str :=
  match s with
  | c :: rest =>
      if Str.is_digit c then let '(ds, r) := span_digits rest in (c :: ds, r)
      else ([], s)
  | [] => ([], [])
  end.

Definition digits_value (ds : str) : Z :=
  fold_left (fun acc c => 10 * acc + (c - 48)) ds 0.

(** the integer part of a number: [0] or a non-zero digit and digits *)
Definition scan_int_part (s : str) : option (str * str) :=
  match s with
  | c :: rest =>
      if c =? 48 then Some ([48], rest)
      else if Str.is_digit c then Some (span_digits s)
      else None
  | [] => None
  end.

Definition scan_frac (s : str) : str * str :=
  match s with
  | c :: rest =>
      if c =? 46 then
        match span_digits rest with
        | ([], _) => ([], s)
        | (ds, r) => (ds, r)
        end
      else ([], s)
  | [] => ([], s)
  end.

(** the exponent: its sign, its digits and the rest; no digits when
    the text has no well-formed exponent *)
Definition scan_exp (s : str) : bool * str * str :=
  match s with
  | c :: rest =>
      if (c =? 101) || (c =? 69) then
        let '(neg, rest1) :=
          match rest with
          | sg :: rest' =>
              if sg =? 45 then (true, rest')
              else if sg =? 43 then (false, rest') else (false, rest)
          | [] => (false, rest)
          end in
        match span_digits rest1 with
        | ([], _) => (false, [], s)
        | (ds, r) => (neg, ds, r)
        end
      else (false, [], s)
  | [] => (false, [], s)
  end.

(** a JSON number at the head of [s] *)
Definition scan_number (s : str) : option (json * str) :=
  let '(neg, s1) :=
    match s with
    | c :: rest => if c =? 45 then (true, rest) else (false, s)
    | [] => (false, s)
    end in
  match scan_int_part s1 with
  | None => None
  | Some (ip, s2) =>
      let '(fp, s3) := scan_frac s2 in
      let '(eneg, ep, s4) := scan_exp s3 in
      match fp, ep with
      | [], [] =>
          let n := digits_value ip in
          Some (JInt (if neg then - n else n), s4)
      | _, _ =>
          let ev := digits_value ep in
          let t := (if eneg then - ev else ev) - Z.of_nat (length fp) in
          Some (JFloat (float_of_decimal neg (digits_value (ip ++ fp)) t), s4)
      end
  end.

Definition literal (name : str) (v : json) (s : str) : option (json * str) :=
  if Str.starts_with name s then Some (v, drop (length name) s) else None.

Fixpoint scan_once (fuel : nat) (s : str) : option (json * str) :=
  match fuel with
  | O => None
  | S fuel' =>
      match s with
      | [] => None
      | c :: rest =>
          if c =? 34 then
            match scanstring rest with
            | Some (v, r) => Some (JStr v, r)
            | None => None
            end
          else if c =? 123 then
            match skip_ws rest with
            | c1 :: r1 =>
                if c1 =? 125 then Some (JObj [], r1)
                else if c1 =? 34 then scan_members fuel' r1 []
                else None
            | [] => None
            end
          else if c =? 91 then
            match skip_ws rest with
            | c1 :: r1 =>
                if c1 =? 93 then Some (JArr [], r1)
                else scan_elements fuel' (c1 :: r1) []
            | [] => None
            end
          else if Str.starts_with (u "null") s then literal (u "null") JNull s
          else if Str.starts_with (u "true") s then literal (u "true") (JBool true) s
          else if Str.starts_with (u "false") s then literal (u "false") (JBool false) s
          else
            match scan_number s with
            | Some r => Some r
            | None =>
                if Str.starts_with (u "NaN") s then literal (u "NaN") (JFloat NaN) s
                else if Str.starts_with (u "Infinity") s
                then literal (u "Infinity") (JFloat (Inf false)) s
                else literal (u "-Infinity") (JFloat (Inf true)) s
            end
      end
  end

(** the members of an object, from just after the opening quote of a
    key; [acc] is the dict built so far *)
with scan_members (fuel : nat) (s : str) (acc : list (str * json))
  : option (json * str) :=
  match fuel with
  | O => None
  | S fuel' =>
      match scanstring s with
      | None => None
      | Some (key, r) =>
          match skip_ws r with
          | c :: r1 =>
              if c =? 58 then
                match scan_once fuel' (skip_ws r1) with
                | None => None
                | Some (v, r2) =>
                    match skip_ws r2 with
                    | c2 :: r3 =>
                        if c2 =? 125 then Some (JObj (dict_set key v acc), r3)
                        else if c2 =? 44 then
                          match skip_ws r3 with
                          | c3 :: r4 =>
                              if c3 =? 34 then scan_members fuel' r4 (dict_set key v acc)
                              else None
                          | [] => None
                          end
                        else None
                    | [] => None
                    end
                end
              else None
          | [] => None
          end
      end
  end

(** the elements of an array, from the first character of a value *)
with scan_elements (fuel : nat) (s : str) (acc : list json) : option (json * str) :=
  match fuel with
  | O => None
  | S fuel' =>
      match scan_once fuel' s with
      | None => None
      | Some (v, r) =>
          match skip_ws r with
          | c :: r1 =>
              if c =? 93 then Some (JArr (rev (v :: acc)), r1)
              else if c =? 44 then scan_elements fuel' (skip_ws r1) (v :: acc)
              else None
          | [] => None
          end
      end
  end.

(** [json.loads(s)]; [None] is [JSONDecodeError] *)
Definition loads (s : str) : option json :=
  if Str.starts_with [65279] s then None
  else
    match scan_once (S (length s)) (skip_ws s) with
    | Some (v, rest) =>
        match skip_ws rest with
        | [] => Some v
        | _ :: _ => None
        end
    | None => None
    end.

End Json.

Import Json.

(* ===================================================================== *)
(** * The world the script runs in *)
(* ===================================================================== *)

Module Runtime.

(** [requests.exceptions.RequestException] and its subclasses *)
Inductive request_exception :=
| ConnectionError
| Timeout
| HTTPError (status : Z)
| ChunkedEncodingError.

Inductive os_error :=
| FileExistsError
| FileNotFoundError
| NotADirectoryError
| IsADirectoryError
| NoSpaceLeft
| PermissionError.

Inductive exn :=
| RequestException (e : request_exception)
| OSError (e : os_error)
| ArithmeticError (e : arith_error)
| ValueError
| UnicodeError
| JSONDecodeError
| KeyError (key : str)
| TypeError
| SystemExit (code : Z)
| RuntimeError.

(** [isinstance(e, Exception)]: everything but [SystemExit];
    [RuntimeError] stands for the class and its subclass [RecursionError] *)
Definition is_Exception (e : exn) : bool :=
  match e with
  | SystemExit _ => false
  | _ => true
  end.

Definition is_RequestException (e : exn) : bool :=
  match e with
  | RequestException _ => true
  | _ => false
  end.

(** ** Console output

    One constructor per [print] of the script, holding the values the
    line interpolates; the text formatting of a line is not modelled. *)
Inductive Msg :=
| MsgAlreadyCached (fasta_file : Path)
| MsgFileSize (file_size_mb : pyfloat)
| MsgDownloading
| MsgUrl (url : str)
| MsgDestination (fasta_file : Path)
| MsgProgress (percent mb_downloaded mb_total : pyfloat)
| MsgNewline
| MsgDownloadComplete (file_size_mb : pyfloat)
| MsgConfigSaved (config_file : Path)
| MsgDownloadFailed (e : exn)
| MsgNotSetUp
| MsgErrorLoadingConfig (e : exn)
| MsgRule
| MsgTitle
| MsgCacheDirectory (cache_dir : Path)
| MsgSetupComplete
| MsgUseThis
| MsgUsageImport
| MsgUsageCall.

(** ** File system and network *)

Inductive node :=
| File (content : bytes)
| Dir.

(** A streamed response: [iter_content n] is what iterating
    [response.iter_content(chunk_size=n)] yields, the chunks and then
    either the end of the body or a transport error. *)
Record Response := mkResponse {
  status_code : Z;
  headers : gmap str str;
  iter_content : Z -> list bytes * option request_exception
}.

Record Request := mkRequest {
  rq_url : str;
  rq_timeout : Z;
  rq_stream : bool
}.

Record World := mkWorld {
  sys_platform : str;
  home : Path;
  environ : gmap str str;
  fs : gmap str node;
  disk_free : Z;
  network : str -> request_exception + Response;
  requests_log : list Request;
  stdout : list Msg
}.

Definition set_fs (w : World) (fs' : gmap str node) (free : Z) : World :=
  mkWorld (sys_platform w) (home w) (environ w) fs' free (network w)
          (requests_log w) (stdout w).

Definition os_flavour (w : World) : flavour :=
  if Str.eqb (sys_platform w) (u "win32") then Windows else Posix.

(** ** The monad of effects: a state and an exception *)

Inductive outcome (A : Type) :=
| Return (a : A)
| Raise (e : exn).
Arguments Return {A} a.
Arguments Raise {A} e.

Definition M (A : Type) : Type := World -> outcome A * World.

#[global] Instance M_ret : MRet M := fun A a w => (Return a, w).

#[global] Instance M_bind : MBind M := fun A B f m w =>
  match m w with
  | (Return a, w') => f a w'
  | (Raise e, w') => (Raise e, w')
  end.

Definition raise {A} (e : exn) : M A := fun w => (Raise e, w).

(** [try: body / except <handled>: handler]: [handler e] is [None] for an
    exception the clause does not match. *)
Definition try_except {A} (body : M A) (handler : exn -> option (M A)) : M A :=
  fun w =>
    match body w with
    | (Return a, w') => (Return a, w')
    | (Raise e, w') =>
        match handler e with
        | Some h => h w'
        | None => (Raise e, w')
        end
    end.

Definition get_world : M World := fun w => (Return w, w).

(** [print(...)] on a console that takes the line; [print_on] below has
    the failure *)
Definition print (m : Msg) : M unit := fun w =>
  (Return tt,
   mkWorld (sys_platform w) (home w) (environ w) (fs w) (disk_free w) (network w)
           (requests_log w) (stdout w ++ [m])).

Definition sys_exit {A} (code : Z) : M A := raise (SystemExit code).

Definition arith {A} (r : arith_error + A) : M A :=
  match r with
  | inl e => raise (ArithmeticError e)
  | inr a => mret a
  end.

(** [a / b] on ints *)
Definition truediv (a b : Z) : M pyfloat := arith (int_truediv a b).

(** [x * n] for a float and an int *)
Definition mul_int (x : pyfloat) (n : Z) : M pyfloat :=
  y ← arith (float_of_int n); mret (float_mul x y).

(** ** File operations *)

Definition len (s : list Z) : Z := Z.of_nat (length s).

(** [p.exists()] when [os.stat] reports nothing but the presence or the
    absence of the entry; [path_exists_on] below has the errors of
    [os.stat] that pathlib re-raises *)
Definition path_exists (p : Path) : M bool := fun w =>
  (Return (bool_decide (is_Some (fs w !! path_str p))), w).

(** [p.is_dir()] *)
Definition is_dir (p : Path) : M bool := fun w =>
  (Return (match fs w !! path_str p with Some Dir => true | _ => false end), w).

(** The directory a new entry [p] goes into must exist. *)
Definition check_parent (p : Path) (w : World) : option exn :=
  match p_tail p with
  | [] => Some (OSError FileNotFoundError)
  | _ :: _ =>
      match fs w !! path_str (parent p) with
      | Some Dir => None
      | Some (File _) => Some (OSError NotADirectoryError)
      | None => Some (OSError FileNotFoundError)
      end
  end.

(** [os.mkdir(p)] *)
Definition os_mkdir (p : Path) : M unit := fun w =>
  match fs w !! path_str p with
  | Some _ => (Raise (OSError FileExistsError), w)
  | None =>
      match check_parent p w with
      | Some e => (Raise e, w)
      | None => (Return tt, set_fs w (<[path_str p := Dir]> (fs w)) (disk_free w))
      end
  end.

(** [p.mkdir(parents=False, exist_ok=True)] *)
Definition mkdir_exist_ok (p : Path) : M unit :=
  try_except (os_mkdir p) (fun e =>
    match e with
    | OSError FileNotFoundError => None
    | OSError _ => Some (d ← is_dir p; if d : bool then mret tt else raise e)
    | _ => None
    end).

(** [p.mkdir(parents=True, exist_ok=True)]; the fuel is the number of
    tail parts, and [p.parent == p] when there is none. *)
Fixpoint mkdir_parents (fuel : nat) (p : Path) : M unit :=
  try_except (os_mkdir p) (fun e =>
    match e with
    | OSError FileNotFoundError =>
        Some (match fuel with
              | O => raise e
              | S fuel' => _ ← mkdir_parents fuel' (parent p); mkdir_exist_ok p
              end)
    | OSError _ => Some (d ← is_dir p; if d : bool then mret tt else raise e)
    | _ => None
    end).

Definition mkdir (p : Path) : M unit := mkdir_parents (length (p_tail p)) p.

(** a directory's [st_size] depends on the file system; one block here *)
Definition st_size (n : node) : Z :=
  match n with
  | File content => len content
  | Dir => 4096
  end.

(** [p.stat().st_size] *)
Definition stat_size (p : Path) : M Z := fun w =>
  match fs w !! path_str p with
  | Some n => (Return (st_size n), w)
  | None => (Raise (OSError FileNotFoundError), w)
  end.

(** [open(p, 'w')] and [open(p, 'wb')]: create the file or truncate it *)
Definition open_write (p : Path) : M unit := fun w =>
  match fs w !! path_str p with
  | Some Dir => (Raise (OSError IsADirectoryError), w)
  | Some (File old) =>
      (Return tt, set_fs w (<[path_str p := File []]> (fs w)) (disk_free w + len old))
  | None =>
      match check_parent p w with
      | Some e => (Raise e, w)
      | None => (Return tt, set_fs w (<[path_str p := File []]> (fs w)) (disk_free w))
      end
  end.

(** [f.write(data)] on the file opened at [p]: the data is appended,
    unless the disk is full *)
Definition file_write (p : Path) (data : bytes) : M unit := fun w =>
  match fs w !! path_str p with
  | Some (File content) =>
      if len data <=? disk_free w
      then (Return tt,
            set_fs w (<[path_str p := File (content ++ data)]> (fs w))
                   (disk_free w - len data))
      else (Raise (OSError NoSpaceLeft), w)
  | Some Dir => (Raise (OSError IsADirectoryError), w)
  | None => (Raise (OSError FileNotFoundError), w)
  end.

(** [p.unlink()] *)
Definition unlink (p : Path) : M unit := fun w =>
  match fs w !! path_str p with
  | Some (File content) =>
      (Return tt, set_fs w (delete (path_str p) (fs w)) (disk_free w + len content))
  | Some Dir => (Raise (OSError IsADirectoryError), w)
  | None => (Raise (OSError FileNotFoundError), w)
  end.

(** writing [s] to the text file opened at [p] *)
Definition write_text (p : Path) (s : str) : M unit :=
  w ← get_world;
  match Codec.utf8_encode (Codec.translate_newlines (os_flavour w) s) with
  | Some data => file_write p data
  | None => raise UnicodeError
  end.

(** [open(p, 'r')] and [f.read()] *)
Definition read_text (p : Path) : M str := fun w =>
  match fs w !! path_str p with
  | Some (File content) =>
      match Codec.utf8_decode content with
      | Some s => (Return (Codec.universal_newlines s), w)
      | None => (Raise UnicodeError, w)
      end
  | Some Dir => (Raise (OSError IsADirectoryError), w)
  | None => (Raise (OSError FileNotFoundError), w)
  end.

(** ** requests *)

(** [requests.get(url, timeout=timeout, stream=stream)] *)
Definition requests_get (url : str) (timeout : Z) (stream : bool) : M Response := fun w =>
  let w' := mkWorld (sys_platform w) (home w) (environ w) (fs w) (disk_free w)
                    (network w) (requests_log w ++ [mkRequest url timeout stream])
                    (stdout w) in
  match network w url with
  | inl e => (Raise (RequestException e), w')
  | inr r => (Return r, w')
  end.

(** [response.raise_for_status()] *)
Definition raise_for_status (r : Response) : M unit :=
  if (400 <=? status_code r) && (status_code r <? 600)
  then raise (RequestException (HTTPError (status_code r)))
  else mret tt.

(** [int(response.headers.get(name, 0))]; the header names of a response
    compare case-insensitively and are kept in lower case *)
Definition int_header (r : Response) (name : str) : M Z :=
  match headers r !! name with
  | Some v =>
      match Str.int_of_str v with
      | Some n => mret n
      | None => raise ValueError
      end
  | None => mret 0
  end.

(** ** json and pathlib on values read back *)

(** [json.loads(text)] *)
Definition json_loads (text : str) : M json :=
  match loads text with
  | Some v => mret v
  | None => raise JSONDecodeError
  end.

(** [config[key]] for a string [key] *)
Definition getitem (config : json) (key : str) : M json :=
  match config with
  | JObj d =>
      match dict_get key d with
      | Some v => mret v
      | None => raise (KeyError key)
      end
  | _ => raise TypeError
  end.

(** [Path(v)] *)
Definition Path_of (v : json) : M Path :=
  match v with
  | JStr s => w ← get_world; mret (parse_path (os_flavour w) s)
  | _ => raise TypeError
  end.

(** [Path.home()] when the home directory can be determined;
    [Path_home_on] below has the failure *)
Definition Path_home : M Path := fun w => (Return (home w), w).

End Runtime.

Import Runtime.

(* ===================================================================== *)
(** * setup_hla_database.py *)
(* ===================================================================== *)

Local Open Scope path_scope.

(** [get_cache_dir()] *)
Definition get_cache_dir : M Path :=
  w ← get_world;
  if Str.eqb (sys_platform w) (u "win32") then
    h ← Path_home;
    mret (h // u "AppData" // u "Local" // u "hai_def_cache")
  else
    h ← Path_home;
    mret (h // u ".cache" // u "hai_def").

Definition default_url : str :=
  u "https://ftp.ebi.ac.uk/pub/databases/ipd/imgt/hla/hla_prot.fasta".

(** The body of [for chunk in response.iter_content(...)], over the
    chunks the iterator yields; the result is [downloaded]. *)
Fixpoint write_chunks (fasta_file : Path) (total_size : Z) (chunks : list bytes)
    (downloaded : Z) : M Z :=
  match chunks with
  | [] => mret downloaded
  | chunk :: rest =>
      match chunk with
      | _ :: _ =>
          _ ← file_write fasta_file chunk;
          let downloaded := downloaded + len chunk in
          _ ← (if 0 <? total_size then
                 ratio ← truediv downloaded total_size;
                 percent ← mul_int ratio 100;
                 mb_downloaded ← truediv downloaded (1024 * 1024);
                 mb_total ← truediv total_size (1024 * 1024);
                 print (MsgProgress percent mb_downloaded mb_total)
               else mret tt);
          write_chunks fasta_file total_size rest downloaded
      | [] => write_chunks fasta_file total_size rest downloaded
      end
  end.

(** the [try] block of [download_hla_fasta] *)
Definition download_body (fasta_file config_file : Path) (url : str) : M Path :=
  response ← requests_get url 300 true;
  _ ← raise_for_status response;
  total_size ← int_header response (u "content-length");
  let downloaded := 0 in
  let chunk_size := 1024 * 1024 in
  _ ← open_write fasta_file;
  let '(chunks, failure) := iter_content response chunk_size in
  _ ← write_chunks fasta_file total_size chunks downloaded;
  _ ← match failure with
      | Some e => raise (RequestException e)
      | None => mret tt
      end;
  _ ← (if 0 <? total_size then print MsgNewline else mret tt);
  size ← stat_size fasta_file;
  file_size_mb ← truediv size (1024 * 1024);
  _ ← print (MsgDownloadComplete file_size_mb);
  let config := JObj [(u "hla_fasta_path", JStr (path_str fasta_file));
                      (u "download_url", JStr url);
                      (u "file_size_mb", JFloat file_size_mb)] in
  _ ← open_write config_file;
  _ ← write_text config_file (dumps 2 config);
  _ ← print (MsgConfigSaved config_file);
  mret fasta_file.

(** the [except requests.exceptions.RequestException] clause *)
Definition download_failed (fasta_file : Path) (e : exn) : M Path :=
  _ ← print (MsgDownloadFailed e);
  present ← path_exists fasta_file;
  _ ← (if present : bool then unlink fasta_file else mret tt);
  sys_exit 1.

(** [download_hla_fasta(cache_dir, url)] *)
Definition download_hla_fasta (cache_dir : Path) (url : str) : M Path :=
  _ ← mkdir cache_dir;
  let fasta_file := cache_dir // u "hla_prot.fasta" in
  let config_file := cache_dir // u "config.json" in
  present ← path_exists fasta_file;
  if present : bool then
    _ ← print (MsgAlreadyCached fasta_file);
    size ← stat_size fasta_file;
    file_size_mb ← truediv size (1024 * 1024);
    _ ← print (MsgFileSize file_size_mb);
    mret fasta_file
  else
    _ ← print MsgDownloading;
    _ ← print (MsgUrl url);
    _ ← print (MsgDestination fasta_file);
    try_except (download_body fasta_file config_file url)
      (fun e => if is_RequestException e then Some (download_failed fasta_file e)
                else None).

(** [load_hla_path()] *)
Definition load_hla_path : M (option Path) :=
  cache_dir ← get_cache_dir;
  let config_file := cache_dir // u "config.json" in
  present ← path_exists config_file;
  if negb present then
    _ ← print MsgNotSetUp;
    mret None
  else
    try_except
      (text ← read_text config_file;
       config ← json_loads text;
       v ← getitem config (u "hla_fasta_path");
       p ← Path_of v;
       mret (Some p))
      (fun e => if is_Exception e
                then Some (_ ← print (MsgErrorLoadingConfig e); mret None)
                else None).

(** [main()] *)
Definition main : M unit :=
  _ ← print MsgRule;
  _ ← print MsgTitle;
  _ ← print MsgRule;
  cache_dir ← get_cache_dir;
  _ ← print (MsgCacheDirectory cache_dir);
  fasta_path ← download_hla_fasta cache_dir default_url;
  _ ← print MsgRule;
  _ ← print MsgSetupComplete;
  _ ← print MsgRule;
  _ ← print MsgUseThis;
  _ ← print MsgUsageImport;
  _ ← print MsgUsageCall;
  print MsgRule.

(** The exit status of the process running [main]: 0 on return, the code
    of [sys.exit], 1 for an exception nobody caught. *)
Definition exit_status {A} (o : outcome A) : Z :=
  match o with
  | Return _ => 0
  | Raise (SystemExit code) => code
  | Raise _ => 1
  end.

(* ===================================================================== *)
(** * Vocabulary of the statements *)
(* ===================================================================== *)
(** what a step leaves alone: the process environment and the network *)
Definition same_env (w w' : World) : Prop :=
  sys_platform w' = sys_platform w /\ home w' = home w /\
  environ w' = environ w /\ network w' = network w.

Definition cache_dir_of (w : World) : Path :=
  if Str.eqb (sys_platform w) (u "win32")
  then home w // u "AppData" // u "Local" // u "hai_def_cache"
  else home w // u ".cache" // u "hai_def".

(** the text of [p / name], before the empty text is replaced by a dot *)
Definition format_path (p : Path) : list Z :=
  format_parsed_parts (p_flavour p) (p_drive p) (p_root p) (p_tail p).

Definition plain_name (name : list Z) : Prop :=
  name <> [] /\ forall f, (splitroot f name).1.1 = [].

(** the world after a step: same process environment and network *)
Definition update (w : World) (fs' : gmap (list Z) node) (free : Z)
    (log : list Request) (out : list Msg) : World :=
  mkWorld (sys_platform w) (home w) (environ w) fs' free (network w) log out.

(** one progress line, as the loop body computes it *)
Definition progress_line (total_size downloaded : Z) : arith_error + Msg :=
  match int_truediv downloaded total_size with
  | inl e => inl e
  | inr ratio =>
      match float_of_int 100 with
      | inl e => inl e
      | inr hundred =>
          match int_truediv downloaded (1024 * 1024) with
          | inl e => inl e
          | inr mb_downloaded =>
              match int_truediv total_size (1024 * 1024) with
              | inl e => inl e
              | inr mb_total =>
                  inr (MsgProgress (float_mul ratio hundred) mb_downloaded mb_total)
              end
          end
      end
  end.

(** the progress lines of a whole download: one per non-empty chunk when
    the total size is positive, none otherwise *)
Fixpoint progress_report (total_size : Z) (chunks : list (list Z)) (downloaded : Z)
    : list Msg :=
  match chunks with
  | [] => []
  | chunk :: rest =>
      match chunk with
      | [] => progress_report total_size rest downloaded
      | _ :: _ =>
          let downloaded := downloaded + len chunk in
          (if 0 <? total_size then
             match progress_line total_size downloaded with
             | inr m => [m]
             | inl _ => []
             end
           else [])
          ++ progress_report total_size rest downloaded
      end
  end.

Definition progress_block (total_size downloaded : Z) : M unit :=
  ratio ← truediv downloaded total_size;
  percent ← mul_int ratio 100;
  mb_downloaded ← truediv downloaded (1024 * 1024);
  mb_total ← truediv total_size (1024 * 1024);
  print (MsgProgress percent mb_downloaded mb_total).

(** the record [download_hla_fasta] saves *)
Definition config_record (fasta_file : Path) (url : list Z) (file_size_mb : pyfloat) : json :=
  JObj [(u "hla_fasta_path", JStr (path_str fasta_file));
        (u "download_url", JStr url);
        (u "file_size_mb", JFloat file_size_mb)].

(** [int(response.headers.get('content-length', 0))]; [None] is [ValueError] *)
Definition header_total (r : Response) : option Z :=
  match headers r !! u "content-length" with
  | Some v => Str.int_of_str v
  | None => Some 0
  end.

Definition is_error_status (r : Response) : bool :=
  (400 <=? status_code r) && (status_code r <? 600).

Definition the_request (url : list Z) : Request := mkRequest url 300 true.

(** the tail of the [try] block: from the newline after the progress
    lines to the [return] *)
Definition finish_download (fasta config : Path) (url : list Z) (total : Z) : M Path :=
  _ ← (if 0 <? total then print MsgNewline else mret tt);
  size ← stat_size fasta;
  file_size_mb ← truediv size (1024 * 1024);
  _ ← print (MsgDownloadComplete file_size_mb);
  let config_value := JObj [(u "hla_fasta_path", JStr (path_str fasta));
                            (u "download_url", JStr url);
                            (u "file_size_mb", JFloat file_size_mb)] in
  _ ← open_write config;
  _ ← write_text config (dumps 2 config_value);
  _ ← print (MsgConfigSaved config);
  mret fasta.

Definition only_new_dirs (p : Path) (old new : gmap (list Z) node) : Prop :=
  forall k, new !! k = old !! k \/
            (old !! k = None /\ new !! k = Some Dir /\
             exists i, k = path_str (Nat.iter i parent p)).

Definition fs_only (w w' : World) (fs' : gmap (list Z) node) : Prop :=
  w' = update w fs' (disk_free w) (requests_log w) (stdout w).

(** the world in which the [try] block starts: the three lines that
    announce the download are on the console *)
Definition announce (fasta : Path) (url : list Z) (w : World) : World :=
  update w (fs w) (disk_free w) (requests_log w)
         (stdout w ++ [MsgDownloading; MsgUrl url; MsgDestination fasta]).

Definition request_handler (fasta : Path) (e : exn) : option (M Path) :=
  if is_RequestException e then Some (download_failed fasta e) else None.

Definition fasta_of (cache_dir : Path) : Path := cache_dir // u "hla_prot.fasta".
Definition config_of (cache_dir : Path) : Path := cache_dir // u "config.json".

(** the text of the config file, when it is a readable text file *)
Definition config_text (w : World) : option (list Z) :=
  match fs w !! path_str (config_of (cache_dir_of w)) with
  | Some (File content) => Codec.universal_newlines <$> Codec.utf8_decode content
  | _ => None
  end.

(** the value stored under [hla_fasta_path], when the text parses to an
    object that has the key *)
Definition config_path_value (w : World) : option json :=
  match config_text w with
  | Some text =>
      match loads text with
      | Some (JObj d) => dict_get (u "hla_fasta_path") d
      | _ => None
      end
  | None => None
  end.

Definition say (w : World) (out : list Msg) : World :=
  update w (fs w) (disk_free w) (requests_log w) (stdout w ++ out).

(** the [try] block of [load_hla_path] *)
Definition load_body (config_file : Path) : M (option Path) :=
  text ← read_text config_file;
  config ← json_loads text;
  v ← getitem config (u "hla_fasta_path");
  p ← Path_of v;
  mret (Some p).

Definition set_environ (w : World) (env : gmap (list Z) (list Z)) : World :=
  mkWorld (sys_platform w) (home w) env (fs w) (disk_free w) (network w)
          (requests_log w) (stdout w).

Definition ex_home : Path := mkPath Posix [] [47] [u "home"; u "u"].
Definition ex_cache_dir : Path := ex_home // u ".cache" // u "hai_def".
Definition ex_fs : gmap (list Z) node :=
  {[ u "/" := Dir; u "/home" := Dir; u "/home/u" := Dir ]}.

Definition ex_world (free : Z) (reply : request_exception + Response) : World :=
  mkWorld (u "linux") ex_home ∅ ex_fs free (fun _ => reply) [] [].

Definition ex_payload : list (list Z) := [[1; 2; 3]; []; [4; 5]].

(** a server that answers 200 with a content-length and a complete body *)
Definition w_ok : World :=
  ex_world 1000000
    (inr (mkResponse 200 {[ u "content-length" := u "5" ]} (fun _ => (ex_payload, None)))).

(** the same answer on a disk with four bytes left *)
Definition w_disk_full : World :=
  ex_world 4
    (inr (mkResponse 200 {[ u "content-length" := u "5" ]} (fun _ => (ex_payload, None)))).

(** the connection breaks after the first chunk *)
Definition w_stream_error : World :=
  ex_world 1000000
    (inr (mkResponse 200 ∅ (fun _ => ([[1; 2; 3]], Some ChunkedEncodingError)))).

(** a server that answers 304 Not Modified with an empty body *)
Definition w_not_modified : World :=
  ex_world 1000000 (inr (mkResponse 304 ∅ (fun _ => ([], None)))).

(** a complete body without a content-length header *)
Definition w_no_length : World :=
  ex_world 1000000 (inr (mkResponse 200 ∅ (fun _ => ([[1; 2; 3]; [4; 5]], None)))).

(** Windows, with the local application data moved to another drive *)
Definition w_windows : World :=
  mkWorld (u "win32") (mkPath Windows (u "C:") (u "\") [u "Users"; u "u"])
          {[ u "LOCALAPPDATA" := u "D:\Data" ]} ∅ 0 (fun _ => inl ConnectionError) [] [].

(** C1 as stated: any transport-level failure, a non-2xx status among
    them, ends in clean-up and exit status 1. *)
Definition transport_level_failure (url : list Z) (w : World) : Prop :=
  match network w url with
  | inl _ => True
  | inr r => ~ (200 <= status_code r < 300) \/ (iter_content r (1024 * 1024)).2 <> None
  end.

Definition cleans_up_and_exits (cache_dir : Path) (url : list Z) (w : World) : Prop :=
  let run := download_hla_fasta cache_dir url w in
  run.1 = Raise (SystemExit 1) /\
  fs run.2 !! path_str (fasta_of cache_dir) = None /\
  fs run.2 !! path_str (config_of cache_dir) = fs w !! path_str (config_of cache_dir).

Definition transport_failure_as_stated (cache_dir : Path) (url : list Z) (w : World) : Prop :=
  fs w !! path_str (fasta_of cache_dir) = None ->
  transport_level_failure url w -> cleans_up_and_exits cache_dir url w.

(** C2 as stated: a run that downloads either completes (file and config
    record written) or, on any failure at all, leaves no target file and
    ends with a non-zero status. *)
Definition download_invariant_as_stated (cache_dir : Path) (url : list Z) (w : World) : Prop :=
  let run := download_hla_fasta cache_dir url w in
  requests_log run.2 <> requests_log w ->
  (exists p, run.1 = Return p /\
             is_Some (fs run.2 !! path_str (fasta_of cache_dir)) /\
             is_Some (fs run.2 !! path_str (config_of cache_dir)))
  \/ (fs run.2 !! path_str (fasta_of cache_dir) = None /\ exit_status run.1 <> 0).

(** C5 as stated: on Windows the cache directory is
    [%LOCALAPPDATA%\hai_def_cache]. *)
Definition windows_path_as_stated (w : World) : Prop :=
  sys_platform w = u "win32" ->
  exists local p,
    environ w !! u "LOCALAPPDATA" = Some local /\
    get_cache_dir w = (Return p, w) /\
    path_str p = local ++ u "\hai_def_cache".

(** the lines printed between the announcement and the completion line *)
Definition during_download (w w' : World) : list Msg :=
  List.filter (fun m => match m with
                        | MsgDownloading | MsgUrl _ | MsgDestination _
                        | MsgDownloadComplete _ | MsgConfigSaved _ => false
                        | _ => true
                        end)
              (drop (length (stdout w)) (stdout w')).

(** C8 as stated: without a content-length header the downloaded byte
    count is still displayed while the chunks arrive. *)
Definition progress_as_stated (cache_dir : Path) (url : list Z) (w : World) : Prop :=
  forall r, network w url = inr r ->
    headers r !! u "content-length" = None ->
    (iter_content r (1024 * 1024)).1 <> [] ->
    during_download w (download_hla_fasta cache_dir url w).2 <> [].

(** the world after a first, complete download *)
Definition w_cached : World := (download_hla_fasta ex_cache_dir default_url w_ok).2.

(** a populated cache directory without a config record *)
Definition w_file_only : World :=
  mkWorld (u "linux") ex_home ∅
          (<[ path_str (fasta_of ex_cache_dir) := File [1; 2; 3] ]>
             (<[ path_str ex_cache_dir := Dir ]> ex_fs))
          1000 (fun _ => inl ConnectionError) [] [].

(** a Unicode code point *)
Definition code_point (c : Z) : Prop := 0 <= c < 1114112.

(** what the decoder makes of the escapes of [s]: a high surrogate
    followed by a low one reads back as one code point *)
Fixpoint join_surrogates (s : list Z) : list Z :=
  match s with
  | [] => []
  | c1 :: tl =>
      match tl with
      | c2 :: rest =>
          if is_high_surrogate c1 && is_low_surrogate c2
          then (65536 + Z.lor (Z.shiftl (c1 - 55296) 10) (c2 - 56320)) :: join_surrogates rest
          else c1 :: join_surrogates tl
      | [] => [c1]
      end
  end.

Fixpoint has_surrogate_pair (s : list Z) : bool :=
  match s with
  | [] => false
  | c1 :: tl =>
      match tl with
      | c2 :: _ => (is_high_surrogate c1 && is_low_surrogate c2) || has_surrogate_pair tl
      | [] => false
      end
  end.

(** text that [json] writes and reads back unchanged *)
Definition json_text (s : list Z) : Prop :=
  Forall code_point s /\ has_surrogate_pair s = false.

Inductive escape_shape (c : Z) : list Z -> Prop :=
| shape_short (esc : Z) :
    esc <> 117 -> unescape esc = Some c ->
    is_high_surrogate c = false -> is_low_surrogate c = false ->
    escape_shape c [92; esc]
| shape_plain :
    32 <= c <= 126 -> c <> 34 -> c <> 92 ->
    is_high_surrogate c = false -> is_low_surrogate c = false ->
    escape_shape c [c]
| shape_u (a b c' d : Z) :
    hex4_value a b c' d = Some c ->
    escape_shape c [92; 117; a; b; c'; d]
| shape_astral (a b c' d a2 b2 c2 d2 hi lo : Z) :
    hex4_value a b c' d = Some hi ->
    is_high_surrogate hi = true -> is_low_surrogate hi = false ->
    hex4_value a2 b2 c2 d2 = Some lo -> is_low_surrogate lo = true ->
    65536 + Z.lor (Z.shiftl (hi - 55296) 10) (lo - 56320) = c ->
    is_high_surrogate c = false -> is_low_surrogate c = false ->
    escape_shape c [92; 117; a; b; c'; d; 92; 117; a2; b2; c2; d2].

Definition all_digits (ds : list Z) : Prop := Forall (fun c => Str.is_digit c = true) ds.

(** a decimal literal: sign, integer digits, fraction digits and the
    exponent with its sign *)
Record number_text := mkNumber {
  nt_neg : bool;
  nt_int : list Z;
  nt_frac : list Z;
  nt_exp : option (bool * list Z)
}.

Definition render (n : number_text) : list Z :=
  (if nt_neg n then [45] else [])
  ++ nt_int n
  ++ match nt_frac n with [] => [] | fp => 46 :: fp end
  ++ match nt_exp n with
     | Some (eneg, ep) => 101 :: (if eneg then 45 else 43) :: ep
     | None => []
     end.

(** the float the decoder makes of a literal *)
Definition number_value (n : number_text) : pyfloat :=
  let '(eneg, ep) := default (false, []) (nt_exp n) in
  let ev := digits_value ep in
  float_of_decimal (nt_neg n) (digits_value (nt_int n ++ nt_frac n))
                   ((if eneg then - ev else ev) - Z.of_nat (length (nt_frac n))).

(** the literals [repr] produces: no leading zero before other digits,
    a fraction or an exponent, exponent digits when there is one *)
Definition float_literal (n : number_text) : Prop :=
  (nt_int n = [48] \/
   exists c ds, nt_int n = c :: ds /\ 49 <= c <= 57 /\ all_digits ds) /\
  all_digits (nt_frac n) /\
  match nt_exp n with
  | Some (_, ep) => ep <> [] /\ all_digits ep
  | None => nt_frac n <> []
  end.

(** where a number ends *)
Definition stops (rest : list Z) : Prop :=
  match rest with
  | c :: _ => Str.is_digit c = false /\ c <> 46 /\ c <> 101 /\ c <> 69
  | [] => True
  end.

(** [p] is not above the decimal point of [num / den] *)
Definition decpt_lower (num den p : Z) : Prop :=
  if 1 <=? p then den * 10 ^ (p - 1) <= num else den <= num * 10 ^ (1 - p).

(** the layout [json.dump(config, f, indent=2)] gives the three members:
    one per line, two spaces in front of each *)
Definition config_layout (path url number : list Z) : list Z :=
  [123; 10; 32; 32] ++ encode_basestring_ascii (u "hla_fasta_path") ++ [58; 32]
    ++ encode_basestring_ascii path
  ++ [44; 10; 32; 32] ++ encode_basestring_ascii (u "download_url") ++ [58; 32]
    ++ encode_basestring_ascii url
  ++ [44; 10; 32; 32] ++ encode_basestring_ascii (u "file_size_mb") ++ [58; 32]
    ++ number
  ++ [10; 125].

(** a character of a text file that the codec and the newline
    translation leave alone: seven bits, no carriage return *)
Definition plain_char (c : Z) : Prop := 0 <= c < 128 /\ c <> 13.

Definition printable (c : Z) : Prop := 32 <= c < 127.

(** a character of a file name: no separator, and on Windows neither
    the alternative separator nor a colon *)
Definition name_char (f : flavour) (c : Z) : Prop :=
  c <> sep f /\ (f = Windows -> c <> 47 /\ c <> 58).

(** a part of the tail of a path *)
Definition wf_part (f : flavour) (x : list Z) : Prop :=
  x <> [] /\ x <> [46] /\ Forall (name_char f) x.

(** the paths [pathlib] builds on this flavour: no drive on POSIX, a
    drive letter or none on Windows *)
Definition wf_path (p : Path) : Prop :=
  Forall (wf_part (p_flavour p)) (p_tail p) /\
  match p_flavour p with
  | Posix => p_drive p = [] /\ (p_root p = [] \/ p_root p = [47] \/ p_root p = [47; 47])
  | Windows =>
      (p_drive p = [] \/ exists c, p_drive p = [c; 58] /\ c <> 92 /\ c <> 47) /\
      (p_root p = [] \/ p_root p = [92])
  end.

(** the chunks that are written: the empty ones are skipped *)
Fixpoint count_nonempty (chunks : list (list Z)) : nat :=
  match chunks with
  | [] => O
  | [] :: rest => count_nonempty rest
  | (_ :: _) :: rest => S (count_nonempty rest)
  end.

Definition is_progress (m : Msg) : Prop :=
  exists percent mb_downloaded mb_total, m = MsgProgress percent mb_downloaded mb_total.

(** what a run may do to an entry that is neither the target nor the
    config file: nothing, or create it as a directory on the way to the
    cache directory *)
Definition kept_or_new_dir (cache_dir : Path) (old new : gmap (list Z) node) (k : list Z) : Prop :=
  new !! k = old !! k \/
  (old !! k = None /\ new !! k = Some Dir /\ exists i, k = path_str (Nat.iter i parent cache_dir)).

(** the lines of [download_hla_fasta]; the title and the completion
    block belong to [main] *)
Definition download_msg (m : Msg) : bool :=
  match m with
  | MsgAlreadyCached _ | MsgFileSize _ | MsgDownloading | MsgUrl _ | MsgDestination _
  | MsgProgress _ _ _ | MsgNewline | MsgDownloadComplete _ | MsgConfigSaved _
  | MsgDownloadFailed _ => true
  | _ => false
  end.

(** [m] only adds lines to the console, and each of them satisfies [P] *)
Definition prints {A} (P : Msg -> bool) (m : M A) : Prop :=
  forall w o w', m w = (o, w') ->
    exists out, stdout w' = stdout w ++ out /\ forallb P out = true.

(** the title block and the cache directory line *)
Definition main_title (w : World) : list Msg :=
  [MsgRule; MsgTitle; MsgRule; MsgCacheDirectory (cache_dir_of w)].

(** the completion block and the usage lines *)
Definition main_completion : list Msg :=
  [MsgRule; MsgSetupComplete; MsgRule; MsgUseThis; MsgUsageImport; MsgUsageCall; MsgRule].

(** a world where the cache directory path is taken by a file *)
Definition w_blocked : World :=
  mkWorld (u "linux") ex_home ∅ (<[ path_str ex_cache_dir := File [7] ]> ex_fs)
          1000 (fun _ => inl ConnectionError) [] [].

(** a server that sends a content-length that is not a number *)
Definition w_bad_length : World :=
  mkWorld (u "linux") ex_home ∅ (<[ path_str ex_cache_dir := Dir ]> ex_fs) 1000
          (fun _ => inr (mkResponse 200 {[ u "content-length" := u "12 bytes" ]}
                                    (fun _ => ([[1; 2; 3]], None))))
          [] [].

(** ** The host of the loader: what the calls of [load_hla_path] fail with
    [json.load] has two limits of the interpreter besides the grammar:
    an integer literal longer than the digit limit of [int] (ValueError)
    and a nesting deeper than the recursion limit (RecursionError). *)
Inductive limit :=
| IntDigits
| Recursion.

Definition limit_exn (l : limit) : exn :=
  match l with
  | IntDigits => ValueError
  | Recursion => RuntimeError
  end.

(** [load_hla_path] calls [Path.home()], [config_file.exists()] and the
    first [print] outside its [try] (lines 86-91), and the second [print]
    in the handler (line 98).  A [Host] says how the calls of the loader
    fail on the machine the script runs on. *)
Record Host := mkHost {
  (** [Path.home()] cannot determine a home directory *)
  home_unresolved : bool;
  (** the error of [os.stat] on a path, when it has one *)
  stat_error : list Z -> option os_error;
  (** the error of [open(path, 'r')], when it has one besides a missing
      file and a directory *)
  open_error : list Z -> option os_error;
  (** the codec of the locale, which [open(path, 'r')] reads with *)
  text_decode : list Z -> option (list Z);
  (** the limit of the interpreter that parsing a text runs into *)
  json_limit : list Z -> option limit;
  (** the exception of [print] on a line the console cannot take *)
  print_error : Msg -> option exn
}.

(** [Path.home()]: RuntimeError (Could not determine home directory) when
    the home directory cannot be resolved *)
Definition Path_home_on (H : Host) : M Path := fun w =>
  if home_unresolved H then (Raise RuntimeError, w) else Path_home w.

(** pathlib's [_ignore_error]: ENOENT and ENOTDIR (EBADF and ELOOP are not
    among the errors of the model) *)
Definition ignore_error (e : os_error) : bool :=
  match e with
  | FileNotFoundError | NotADirectoryError => true
  | _ => false
  end.

(** [p.exists()] as pathlib has it up to CPython 3.12: [self.stat()],
    False on an error that [_ignore_error] accepts, any other OSError
    raised again.  (From 3.13 on it is [os.path.exists], which answers
    False on every OSError: a host whose [stat_error] are all ignored.) *)
Definition path_exists_on (H : Host) (p : Path) : M bool := fun w =>
  match stat_error H (path_str p) with
  | Some e => if ignore_error e then (Return false, w) else (Raise (OSError e), w)
  | None => path_exists p w
  end.

(** [print(...)] *)
Definition print_on (H : Host) (m : Msg) : M unit := fun w =>
  match print_error H m with
  | Some e => (Raise e, w)
  | None => print m w
  end.

(** [open(p, 'r')] and [f.read()] *)
Definition read_text_on (H : Host) (p : Path) : M (list Z) := fun w =>
  match open_error H (path_str p) with
  | Some e => (Raise (OSError e), w)
  | None =>
      match fs w !! path_str p with
      | Some (File content) =>
          match text_decode H content with
          | Some s => (Return (Codec.universal_newlines s), w)
          | None => (Raise UnicodeError, w)
          end
      | Some Dir => (Raise (OSError IsADirectoryError), w)
      | None => (Raise (OSError FileNotFoundError), w)
      end
  end.

(** [json.loads(text)] *)
Definition json_loads_on (H : Host) (text : list Z) : M json :=
  match json_limit H text with
  | Some l => raise (limit_exn l)
  | None => json_loads text
  end.

(** [get_cache_dir()] *)
Definition get_cache_dir_on (H : Host) : M Path :=
  w ← get_world;
  if Str.eqb (sys_platform w) (u "win32") then
    h ← Path_home_on H;
    mret (h // u "AppData" // u "Local" // u "hai_def_cache")
  else
    h ← Path_home_on H;
    mret (h // u ".cache" // u "hai_def").

(** [load_hla_path()] *)
Definition load_hla_path_on (H : Host) : M (option Path) :=
  cache_dir ← get_cache_dir_on H;
  let config_file := cache_dir // u "config.json" in
  present ← path_exists_on H config_file;
  if negb present then
    _ ← print_on H MsgNotSetUp;
    mret None
  else
    try_except
      (text ← read_text_on H config_file;
       config ← json_loads_on H text;
       v ← getitem config (u "hla_fasta_path");
       p ← Path_of v;
       mret (Some p))
      (fun e => if is_Exception e
                then Some (_ ← print_on H (MsgErrorLoadingConfig e); mret None)
                else None).

(** the host of the runtime model: a UTF-8 locale where nothing fails *)
Definition plain_host : Host :=
  mkHost false (fun _ => None) (fun _ => None) Codec.utf8_decode (fun _ => None)
         (fun _ => None).

(** the [try] block of [load_hla_path] *)
Definition load_body_on (H : Host) (config_file : Path) : M (option Path) :=
  text ← read_text_on H config_file;
  config ← json_loads_on H text;
  v ← getitem config (u "hla_fasta_path");
  p ← Path_of v;
  mret (Some p).

(** what [config_file.exists()] answers, when it answers *)
Definition config_seen (H : Host) (w : World) : option bool :=
  match stat_error H (path_str (config_of (cache_dir_of w))) with
  | Some e => if ignore_error e then Some false else None
  | None => Some (bool_decide (is_Some (fs w !! path_str (config_of (cache_dir_of w)))))
  end.

(** the value stored under [hla_fasta_path], when the file opens, its
    content decodes and the text parses to an object that has the key *)
Definition config_value_on (H : Host) (w : World) : option json :=
  match open_error H (path_str (config_of (cache_dir_of w))),
        fs w !! path_str (config_of (cache_dir_of w)) with
  | None, Some (File content) =>
      match text_decode H content with
      | Some s =>
          match json_limit H (Codec.universal_newlines s),
                loads (Codec.universal_newlines s) with
          | None, Some (JObj d) => dict_get (u "hla_fasta_path") d
          | _, _ => None
          end
      | None => None
      end
  | _, _ => None
  end.

(** [print(m)] and [return None] *)
Definition report (H : Host) (m : Msg) (w : World) : outcome (option Path) * World :=
  match print_error H m with
  | Some e => (Raise e, w)
  | None => (Return None, say w [m])
  end.

(** C7 as worded: the loader returns, whatever the host *)
Definition loader_never_raises (H : Host) (w : World) : Prop :=
  exists r out, load_hla_path_on H w = (Return r, say w out).

(** a cache directory the user may not search: [os.stat] of an entry in
    it fails with EACCES *)
Definition host_denied : Host :=
  mkHost false (fun _ => Some PermissionError) (fun _ => Some PermissionError)
         Codec.utf8_decode (fun _ => None) (fun _ => None).

(** no HOME, no entry in the password database *)
Definition host_no_home : Host :=
  mkHost true (fun _ => None) (fun _ => None) Codec.utf8_decode (fun _ => None)
         (fun _ => None).

(** the lines of the script that start with a symbol outside Latin-1 *)
Definition has_symbol (m : Msg) : bool :=
  match m with
  | MsgAlreadyCached _ | MsgDownloading | MsgDownloadComplete _ | MsgConfigSaved _
  | MsgDownloadFailed _ | MsgNotSetUp | MsgErrorLoadingConfig _ | MsgTitle
  | MsgCacheDirectory _ | MsgSetupComplete => true
  | _ => false
  end.

(** a console with an 8-bit code page: [print] raises UnicodeEncodeError
    on a line it cannot encode *)
Definition host_code_page : Host :=
  mkHost false (fun _ => None) (fun _ => None) Codec.utf8_decode (fun _ => None)
         (fun m => if has_symbol m then Some UnicodeError else None).

(* ===================================================================== *)
(** * Properties *)
(* ===================================================================== *)
Arguments path_str : simpl never.
Arguments dumps : simpl never.
Arguments int_truediv : simpl never.
Arguments float_of_int : simpl never.
Arguments float_mul : simpl never.
Arguments Codec.utf8_encode : simpl never.
Arguments Codec.utf8_decode : simpl never.
Arguments Codec.translate_newlines : simpl never.
Arguments Codec.universal_newlines : simpl never.
Arguments loads : simpl never.
Arguments parse_path : simpl never.
Arguments Z.mul : simpl never.
Arguments write_chunks : simpl never.
Arguments progress_report : simpl never.
Arguments download_body : simpl never.

Lemma pow2_pos (n : Z) : 0 <= n -> 0 < 2 ^ n.
Proof. intros. apply Z.pow_pos_nonneg; lia. Qed.

Lemma log2_bounds (n : Z) : 0 < n -> 2 ^ Z.log2 n <= n < 2 ^ (Z.log2 n + 1).
Proof. intros H. pose proof (Z.log2_spec n H). replace (Z.log2 n + 1) with (Z.succ (Z.log2 n)) by lia. lia. Qed.

Lemma bits_le (q b : Z) : 0 <= b -> 0 <= q < 2 ^ b -> bits q <= b.
Proof.
  intros Hb [H0 H1]. unfold bits. destruct (Z.eqb_spec q 0); [lia|].
  assert (Z.log2 q < b) by (apply Z.log2_lt_pow2; lia). lia.
Qed.

(** the scaled quotient of [round_ratio] stays below 2^56 *)
Lemma scaled_quotient_lt (num den : Z) :
  0 < num -> 0 < den ->
  let s := 55 - (Z.log2 num - Z.log2 den) in
  let N := if 0 <=? s then num * 2 ^ s else num in
  let D := if 0 <=? s then den else den * 2 ^ (- s) in
  0 < D /\ 2 ^ 54 <= N / D < 2 ^ 56.
Proof.
  intros Hn Hd s N D.
  pose proof (log2_bounds num Hn) as [Ha1 Ha2].
  pose proof (log2_bounds den Hd) as [Hb1 Hb2].
  pose proof (Z.log2_nonneg num). pose proof (Z.log2_nonneg den).
  set (a := Z.log2 num) in *. set (b := Z.log2 den) in *.
  subst N D. destruct (Z.leb_spec 0 s) as [Hs|Hs].
  - split; [lia|]. split.
    + apply Z.div_le_lower_bound; [lia|].
      (* 2^54 * den <= num * 2^s *)
      assert (den * 2 ^ 54 < 2 ^ (b + 1) * 2 ^ 54) by (apply Z.mul_lt_mono_pos_r; [apply pow2_pos|]; lia).
      assert (2 ^ a * 2 ^ s <= num * 2 ^ s) by (apply Z.mul_le_mono_nonneg_r; [apply Z.lt_le_incl, pow2_pos|]; lia).
      rewrite <- Z.pow_add_r in * by lia.
      replace (a + s) with (b + 1 + 54) in * by (subst s; lia). lia.
    + apply Z.div_lt_upper_bound; [lia|].
      assert (num * 2 ^ s < 2 ^ (a + 1) * 2 ^ s) by (apply Z.mul_lt_mono_pos_r; [apply pow2_pos|]; lia).
      assert (2 ^ b * 2 ^ 56 <= den * 2 ^ 56) by (apply Z.mul_le_mono_nonneg_r; [apply Z.lt_le_incl, pow2_pos|]; lia).
      rewrite <- Z.pow_add_r in * by lia.
      replace (a + 1 + s) with (b + 56) in * by (subst s; lia). lia.
  - assert (0 < 2 ^ (- s)) by (apply pow2_pos; lia).
    split; [lia|]. split.
    + apply Z.div_le_lower_bound; [lia|].
      assert (den * 2 ^ (- s) < 2 ^ (b + 1) * 2 ^ (- s)) by (apply Z.mul_lt_mono_pos_r; lia).
      assert (2 ^ (b + 1) * 2 ^ (- s) * 2 ^ 54 = 2 ^ a).
      { rewrite <- !Z.pow_add_r by lia. f_equal. subst s. lia. }
      nia.
    + apply Z.div_lt_upper_bound; [lia|].
      assert (2 ^ b * 2 ^ (- s) <= den * 2 ^ (- s)) by (apply Z.mul_le_mono_nonneg_r; lia).
      assert (2 ^ b * 2 ^ (- s) * 2 ^ 56 = 2 ^ (a + 1)).
      { rewrite <- !Z.pow_add_r by lia. f_equal. subst s. lia. }
      nia.
Qed.

Lemma round_ratio_exp_le (num den : Z) :
  0 < num -> 0 < den ->
  (round_ratio num den).2 <= Z.max (Z.log2 num - Z.log2 den - 51) (-1073).
Proof.
  intros Hn Hd. unfold round_ratio.
  destruct (Z.eqb_spec num 0); [lia|].
  pose proof (scaled_quotient_lt num den Hn Hd) as (HD & HQ1 & HQ2). cbv zeta in *.
  set (s := 55 - (Z.log2 num - Z.log2 den)) in *.
  set (N := if 0 <=? s then num * 2 ^ s else num) in *.
  set (D := if 0 <=? s then den else den * 2 ^ (- s)) in *.
  set (Q := N / D) in *.
  assert (bits Q <= 56) by (apply bits_le; lia).
  set (d := Z.max (bits Q - 53) (s + emin)).
  assert (d <= Z.max 3 (s + emin)) by lia.
  unfold emin in *.
  match goal with |- context [if ?c then _ else _] => destruct c end; simpl; lia.
Qed.

Lemma int_truediv_finite (a b : Z) :
  0 <= a -> 0 < b -> Z.log2 a - Z.log2 b <= 1022 ->
  exists m e, int_truediv a b = inr (Finite false m e) /\ round_ratio a b = (m, e).
Proof.
  intros Ha Hb Hlog. unfold int_truediv.
  destruct (Z.eqb_spec b 0); [lia|].
  replace (a <? 0) with false by (symmetry; apply Z.ltb_ge; lia).
  replace (b <? 0) with false by (symmetry; apply Z.ltb_ge; lia).
  rewrite !Z.abs_eq by lia.
  destruct (round_ratio a b) as [m e] eqn:E.
  assert (e <= emax).
  { destruct (Z.eq_dec a 0) as [->|].
    - unfold round_ratio in E. simpl in E. inversion E. unfold emax, emin. lia.
    - pose proof (round_ratio_exp_le a b ltac:(lia) Hb) as Hle. rewrite E in Hle. simpl in Hle.
      unfold emax. lia. }
  replace (emax <? e) with false by (symmetry; apply Z.ltb_ge; lia).
  simpl. eauto.
Qed.

Lemma size_mb_finite (n : Z) :
  0 <= n < 2 ^ 1043 -> exists x, int_truediv n (1024 * 1024) = inr x.
Proof.
  intros [H0 H1].
  destruct (int_truediv_finite n (1024 * 1024)) as (m & e & H & _); try lia.
  - change (Z.log2 (1024 * 1024)) with 20.
    destruct (Z.eq_dec n 0) as [->|]; [simpl; lia|].
    assert (Z.log2 n < 1043) by (apply Z.log2_lt_pow2; lia). lia.
  - eauto.
Qed.

(** ** Running the monad *)

Lemma run_bind {A B} (m : M A) (k : A -> M B) (w : World) :
  (m ≫= k) w = match m w with
               | (Return a, w') => k a w'
               | (Raise e, w') => (Raise e, w')
               end.
Proof. reflexivity. Qed.

Lemma run_bind_return {A B} (m : M A) (k : A -> M B) w a w' :
  m w = (Return a, w') -> (m ≫= k) w = k a w'.
Proof. intros H. rewrite run_bind, H. reflexivity. Qed.

Lemma run_bind_raise {A B} (m : M A) (k : A -> M B) w e w' :
  m w = (Raise e, w') -> (m ≫= k) w = (Raise e, w').
Proof. intros H. rewrite run_bind, H. reflexivity. Qed.

Lemma same_env_refl w : same_env w w.
Proof. repeat split. Qed.

Lemma same_env_trans w1 w2 w3 : same_env w1 w2 -> same_env w2 w3 -> same_env w1 w3.
Proof. unfold same_env. intros (?&?&?&?) (?&?&?&?). repeat split; congruence. Qed.

(** ** The cache directory resolver *)

Lemma get_cache_dir_run w : get_cache_dir w = (Return (cache_dir_of w), w).
Proof.
  unfold get_cache_dir, cache_dir_of. rewrite run_bind. simpl.
  destruct (Str.eqb (sys_platform w) (u "win32")); reflexivity.
Qed.

(** ** mkdir on an existing directory *)

Lemma mkdir_existing (p : Path) w :
  fs w !! path_str p = Some Dir -> mkdir p w = (Return tt, w).
Proof.
  intros H. unfold mkdir.
  destruct (length (p_tail p)); simpl; unfold try_except, os_mkdir; rewrite H; simpl;
    rewrite run_bind; unfold is_dir; rewrite H; reflexivity.
Qed.

Lemma print_run m w :
  print m w = (Return tt, mkWorld (sys_platform w) (home w) (environ w) (fs w) (disk_free w)
                                  (network w) (requests_log w) (stdout w ++ [m])).
Proof. reflexivity. Qed.

(** ** The early return of download_hla_fasta *)

Lemma download_cached (cache_dir : Path) (url : str) (w : World) (n : node) :
  fs w !! path_str cache_dir = Some Dir ->
  fs w !! path_str (cache_dir // u "hla_prot.fasta") = Some n ->
  st_size n < 2 ^ 1043 ->
  exists mb,
    int_truediv (st_size n) (1024 * 1024) = inr mb /\
    download_hla_fasta cache_dir url w =
      (Return (cache_dir // u "hla_prot.fasta"),
       mkWorld (sys_platform w) (home w) (environ w) (fs w) (disk_free w) (network w)
               (requests_log w)
               (stdout w ++ [MsgAlreadyCached (cache_dir // u "hla_prot.fasta");
                             MsgFileSize mb])).
Proof.
  intros Hdir Hfile Hsize.
  assert (0 <= st_size n) by (destruct n; unfold st_size, len; lia).
  destruct (size_mb_finite (st_size n)) as [mb Hmb]; [lia|].
  exists mb. split; [exact Hmb|].
  unfold download_hla_fasta.
  rewrite (run_bind_return _ _ _ _ _ (mkdir_existing _ _ Hdir)).
  rewrite run_bind. unfold path_exists at 1. rewrite Hfile. simpl.
  rewrite run_bind. simpl.
  rewrite run_bind. unfold stat_size at 1. simpl. rewrite Hfile.
  rewrite run_bind. unfold truediv at 1. rewrite Hmb. simpl.
  rewrite run_bind. simpl. rewrite <- app_assoc. reflexivity.
Qed.

(** ** Strings and paths *)

Lemma eqb_true (a b : list Z) : Str.eqb a b = true <-> a = b.
Proof. unfold Str.eqb. apply bool_decide_eq_true. Qed.

Lemma eqb_false (a b : list Z) : Str.eqb a b = false <-> a <> b.
Proof. unfold Str.eqb. apply bool_decide_eq_false. Qed.

Lemma join_snoc (sp : list Z) (l : list (list Z)) (x : list Z) :
  Str.join sp (l ++ [x]) =
  match l with [] => x | _ :: _ => Str.join sp l ++ sp ++ x end.
Proof.
  induction l as [|a l IH]; [reflexivity|].
  destruct l as [|b l]; [reflexivity|].
  change (Str.join sp ((a :: b :: l) ++ [x])) with (a ++ sp ++ Str.join sp ((b :: l) ++ [x])).
  rewrite IH. change (Str.join sp (a :: b :: l)) with (a ++ sp ++ Str.join sp (b :: l)).
  rewrite <- !app_assoc. reflexivity.
Qed.

Lemma join_length_removelast (sp : list Z) (l : list (list Z)) :
  (length (Str.join sp (removelast l)) <= length (Str.join sp l))%nat.
Proof.
  destruct l as [|a l] using rev_ind; [simpl; lia|].
  rewrite removelast_last, join_snoc. destruct l; simpl; [lia|].
  rewrite !length_app. lia.
Qed.

Lemma path_str_format p : path_str p = match format_path p with [] => [46] | s => s end.
Proof. reflexivity. Qed.

(** [str(p / name)] is [name] after a prefix that depends on [p] only *)
Lemma format_joinpath (p : Path) :
  exists prefix, (length (format_path p) <= length prefix)%nat /\
    forall name, plain_name name -> path_str (p // name) = prefix ++ name.
Proof.
  destruct p as [f drv root tail]. unfold format_path, path_str, joinpath. simpl.
  unfold format_parsed_parts.
  destruct (negb (Str.eqb drv []) || negb (Str.eqb root [])) eqn:Hanchor.
  - exists (drv ++ root ++ match tail with [] => [] | _ => Str.join [sep f] tail ++ [sep f] end).
    split.
    + rewrite !length_app. destruct tail; simpl; [lia|]. rewrite !length_app. lia.
    + intros name [Hne _]. rewrite join_snoc.
      assert (drv ++ root ++ match tail with [] => name | _ :: _ => Str.join [sep f] tail ++ [sep f] ++ name end
              = (drv ++ root ++ match tail with [] => [] | _ :: _ => Str.join [sep f] tail ++ [sep f] end) ++ name) as ->.
      { destruct tail; [rewrite app_nil_r, <- app_assoc; reflexivity|].
        rewrite <- !app_assoc. reflexivity. }
      destruct (_ ++ name) eqn:E; [|reflexivity].
      apply app_eq_nil in E. tauto.
  - destruct tail as [|t0 tail].
    + exists []. split; [simpl; lia|]. intros name [Hne Hdrv]. simpl.
      rewrite Hdrv. simpl. destruct name; [congruence|reflexivity].
    + destruct (negb (Str.eqb (splitroot f t0).1.1 [])) eqn:Ht0.
      * exists ([46] ++ [sep f] ++ Str.join [sep f] (t0 :: tail) ++ [sep f]). split.
        { change (Str.join [sep f] ([46] :: t0 :: tail)) with ([46] ++ [sep f] ++ Str.join [sep f] (t0 :: tail)).
          rewrite !length_app. lia. }
        intros name [Hne _]. rewrite <- app_comm_cons. rewrite Ht0.
        change (Str.join [sep f] ([46] :: t0 :: tail ++ [name]))
          with ([46] ++ [sep f] ++ Str.join [sep f] ((t0 :: tail) ++ [name])).
        rewrite join_snoc. rewrite <- !app_assoc. reflexivity.
      * exists (Str.join [sep f] (t0 :: tail) ++ [sep f]). split.
        { rewrite !length_app. lia. }
        intros name [Hne _]. rewrite <- app_comm_cons. rewrite Ht0.
        change (t0 :: tail ++ [name]) with ((t0 :: tail) ++ [name]).
        rewrite join_snoc. rewrite <- !app_assoc.
        destruct (Str.join [sep f] (t0 :: tail) ++ [sep f] ++ name) eqn:E; [|reflexivity].
        apply app_eq_nil in E. destruct E as [_ E]. discriminate.
Qed.

Lemma plain_fasta : plain_name (u "hla_prot.fasta").
Proof. split; [discriminate|]. intros []; reflexivity. Qed.

Lemma plain_config : plain_name (u "config.json").
Proof. split; [discriminate|]. intros []; reflexivity. Qed.

Lemma fasta_ne_config (cache_dir : Path) :
  path_str (cache_dir // u "hla_prot.fasta") <> path_str (cache_dir // u "config.json").
Proof.
  destruct (format_joinpath cache_dir) as (prefix & _ & H).
  rewrite (H _ plain_fasta), (H _ plain_config).
  intros E. apply app_inv_head in E. discriminate.
Qed.



(** ancestors have texts no longer than the formatted path or one character *)
Lemma path_str_parent_length (p : Path) :
  (length (format_path (parent p)) <= length (format_path p))%nat.
Proof.
  destruct p as [f drv root tail]. unfold format_path, parent. simpl.
  unfold format_parsed_parts.
  pose proof (join_length_removelast [sep f] tail) as Hlen.
  destruct (negb (Str.eqb drv []) || negb (Str.eqb root [])).
  - rewrite !length_app. lia.
  - destruct tail as [|t0 tail]; [simpl; lia|].
    destruct tail as [|t1 tail].
    + simpl. lia.
    + change (removelast (t0 :: t1 :: tail)) with (t0 :: removelast (t1 :: tail)).
      change (removelast (t0 :: t1 :: tail)) with (t0 :: removelast (t1 :: tail)) in Hlen.
      cbv beta iota.
      destruct (negb (Str.eqb (splitroot f t0).1.1 [])).
      * change (Str.join [sep f] ([46] :: t0 :: removelast (t1 :: tail)))
          with ([46] ++ [sep f] ++ Str.join [sep f] (t0 :: removelast (t1 :: tail))).
        change (Str.join [sep f] ([46] :: t0 :: t1 :: tail))
          with ([46] ++ [sep f] ++ Str.join [sep f] (t0 :: t1 :: tail)).
        rewrite !length_app. lia.
      * exact Hlen.
Qed.

Lemma ancestor_format_length (p : Path) (i : nat) :
  (length (format_path (Nat.iter i parent p)) <= length (format_path p))%nat.
Proof.
  induction i; simpl; [lia|].
  etransitivity; [apply path_str_parent_length|exact IHi].
Qed.

(** a file directly inside [p] is none of the ancestors of [p] *)
Lemma child_not_ancestor (p : Path) (name : list Z) (i : nat) :
  plain_name name -> (1 < length name)%nat ->
  path_str (p // name) <> path_str (Nat.iter i parent p).
Proof.
  intros Hp Hlen E.
  destruct (format_joinpath p) as (prefix & Hpre & H).
  rewrite (H _ Hp) in E.
  pose proof (ancestor_format_length p i) as Hanc.
  rewrite (path_str_format (Nat.iter i parent p)) in E.
  apply (f_equal (@length Z)) in E. rewrite length_app in E.
  destruct (format_path (Nat.iter i parent p)); simpl in *; lia.
Qed.

Lemma update_id w : update w (fs w) (disk_free w) (requests_log w) (stdout w) = w.
Proof. destruct w; reflexivity. Qed.

Lemma float_hundred : float_of_int 100 = inr (Finite false 7036874417766400 (-46)).
Proof. vm_compute. reflexivity. Qed.

Lemma progress_block_run total downloaded w :
  progress_block total downloaded w =
  match progress_line total downloaded with
  | inr m => (Return tt, update w (fs w) (disk_free w) (requests_log w) (stdout w ++ [m]))
  | inl e => (Raise (ArithmeticError e), w)
  end.
Proof.
  unfold progress_block, progress_line, truediv, mul_int.
  rewrite float_hundred. rewrite run_bind.
  destruct (int_truediv downloaded total) as [e|ratio]; [reflexivity|]. simpl.
  rewrite !run_bind. simpl.
  rewrite run_bind.
  destruct (int_truediv downloaded (1024 * 1024)) as [e|a]; [reflexivity|]. simpl.
  rewrite run_bind.
  destruct (int_truediv total (1024 * 1024)) as [e|b]; [reflexivity|]. simpl.
  reflexivity.
Qed.

Lemma write_chunks_cons fasta total chunk rest d :
  write_chunks fasta total (chunk :: rest) d =
  match chunk with
  | _ :: _ =>
      _ ← file_write fasta chunk;
      _ ← (if 0 <? total then progress_block total (d + len chunk) else mret tt);
      write_chunks fasta total rest (d + len chunk)
  | [] => write_chunks fasta total rest d
  end.
Proof. destruct chunk; reflexivity. Qed.

Lemma write_chunks_nonempty fasta total chunk rest d :
  chunk <> [] ->
  write_chunks fasta total (chunk :: rest) d =
    (_ ← file_write fasta chunk;
     _ ← (if 0 <? total then progress_block total (d + len chunk) else mret tt);
     write_chunks fasta total rest (d + len chunk)).
Proof. destruct chunk; [congruence|reflexivity]. Qed.

Lemma write_chunks_empty fasta total rest d :
  write_chunks fasta total ([] :: rest) d = write_chunks fasta total rest d.
Proof. reflexivity. Qed.

Lemma progress_report_nonempty total chunk rest d :
  chunk <> [] ->
  progress_report total (chunk :: rest) d =
    (if 0 <? total then
       match progress_line total (d + len chunk) with
       | inr m => [m] | inl _ => [] end
     else []) ++ progress_report total rest (d + len chunk).
Proof. destruct chunk; [congruence|reflexivity]. Qed.

Lemma len_app (a b : list Z) : len (a ++ b) = len a + len b.
Proof. unfold len. rewrite length_app. lia. Qed.

Lemma len_nonneg (a : list Z) : 0 <= len a.
Proof. unfold len. lia. Qed.

(** the chunk loop, when it completes *)
Lemma write_chunks_return (fasta : Path) (total : Z) (chunks : list (list Z)) :
  forall d w c0 d' w',
    fs w !! path_str fasta = Some (File c0) ->
    write_chunks fasta total chunks d w = (Return d', w') ->
    d' = d + len (concat chunks) /\
    w' = update w (<[path_str fasta := File (c0 ++ concat chunks)]> (fs w))
                  (disk_free w - len (concat chunks)) (requests_log w)
                  (stdout w ++ progress_report total chunks d).
Proof.
  induction chunks as [|ch rest IH]; intros d w c0 d' w' Hf H.
  - simpl in H. inversion H; subst. split; [unfold len; simpl; lia|].
    simpl. rewrite !app_nil_r, insert_id by exact Hf.
    unfold len. simpl. rewrite Z.sub_0_r. symmetry. apply update_id.
  - destruct (decide (ch = [])) as [->|Hne].
    + rewrite write_chunks_empty in H.
      apply IH with (c0 := c0) in H; [|exact Hf]. exact H.
    + rewrite write_chunks_nonempty in H by exact Hne.
      rewrite progress_report_nonempty by exact Hne.
      rewrite run_bind in H. unfold file_write at 1 in H. rewrite Hf in H.
      destruct (len ch <=? disk_free w) eqn:Hfree; [|discriminate].
      rewrite run_bind in H.
      assert (Hstep : exists out,
                 (if 0 <? total then progress_block total (d + len ch) else mret tt)
                   (set_fs w (<[path_str fasta := File (c0 ++ ch)]> (fs w)) (disk_free w - len ch))
                 = (Return tt,
                    update w (<[path_str fasta := File (c0 ++ ch)]> (fs w)) (disk_free w - len ch)
                           (requests_log w) (stdout w ++ out)) /\
                 out = (if 0 <? total then
                          match progress_line total (d + len ch) with
                          | inr m => [m] | inl _ => [] end
                        else [])).
      { destruct (0 <? total).
        - rewrite progress_block_run in H |- *.
          destruct (progress_line total (d + len ch)); [discriminate|].
          eexists. split; reflexivity.
        - exists []. split; [|reflexivity]. unfold update. simpl. rewrite app_nil_r. reflexivity. }
      destruct Hstep as (out & Hstep & Hout). rewrite Hstep in H. rewrite <- Hout.
      apply IH with (c0 := c0 ++ ch) in H; [|apply lookup_insert_eq].
      destruct H as [-> ->]. change (concat (ch :: rest)) with (ch ++ concat rest).
      rewrite len_app. split; [lia|].
      unfold update. cbn [sys_platform home environ fs disk_free network requests_log stdout update set_fs].
      rewrite insert_insert_eq. rewrite <- !app_assoc.
      f_equal. lia.
Qed.

(** the chunk loop, when it fails: never a transport error (those come
    from the iterator, after the chunks it did deliver) *)
Lemma write_chunks_raise (fasta : Path) (total : Z) (chunks : list (list Z)) :
  forall d w c0 e w',
    fs w !! path_str fasta = Some (File c0) ->
    write_chunks fasta total chunks d w = (Raise e, w') ->
    is_RequestException e = false /\ is_Exception e = true /\
    exists c' free' out,
      w' = update w (<[path_str fasta := File (c0 ++ c')]> (fs w)) free' (requests_log w)
                  (stdout w ++ out).
Proof.
  induction chunks as [|ch rest IH]; intros d w c0 e w' Hf H.
  - discriminate.
  - destruct (decide (ch = [])) as [->|Hne].
    + rewrite write_chunks_empty in H. eapply IH; eauto.
    + rewrite write_chunks_nonempty in H by exact Hne.
      rewrite run_bind in H. unfold file_write at 1 in H. rewrite Hf in H.
      destruct (len ch <=? disk_free w) eqn:Hfree.
      * rewrite run_bind in H.
        destruct (0 <? total).
        -- rewrite progress_block_run in H.
           destruct (progress_line total (d + len ch)) as [ae|m].
           ++ inversion H; subst. repeat split.
              exists ch, (disk_free w - len ch), []. unfold update, set_fs.
              rewrite app_nil_r. reflexivity.
           ++ apply IH with (c0 := c0 ++ ch) in H; [|apply lookup_insert_eq].
              destruct H as (? & ? & c' & free' & out & ->). repeat split; try assumption.
              exists (ch ++ c'), free', ([m] ++ out). unfold update.
              cbn [sys_platform home environ fs disk_free network requests_log stdout update set_fs].
              rewrite insert_insert_eq, <- !app_assoc. reflexivity.
        -- change ((mret tt : M unit) (set_fs w (<[path_str fasta := File (c0 ++ ch)]> (fs w)) (disk_free w - len ch)))
             with (Return tt, set_fs w (<[path_str fasta := File (c0 ++ ch)]> (fs w)) (disk_free w - len ch)) in H.
           apply IH with (c0 := c0 ++ ch) in H; [|apply lookup_insert_eq].
           destruct H as (? & ? & c' & free' & out & ->). repeat split; try assumption.
           exists (ch ++ c'), free', out. unfold update.
           cbn [sys_platform home environ fs disk_free network requests_log stdout update set_fs].
           rewrite insert_insert_eq, <- !app_assoc. reflexivity.
      * inversion H; subst. repeat split.
        exists [], (disk_free w'), []. unfold update.
        rewrite !app_nil_r, insert_id by exact Hf. symmetry. apply update_id.
Qed.

Lemma int_header_run r w :
  int_header r (u "content-length") w =
  (match header_total r with Some n => Return n | None => Raise ValueError end, w).
Proof.
  unfold int_header, header_total.
  destruct (headers r !! u "content-length") as [v|]; [|reflexivity].
  destruct (Str.int_of_str v); reflexivity.
Qed.

Lemma raise_for_status_run r w :
  raise_for_status r w =
  (if is_error_status r then Raise (RequestException (HTTPError (status_code r)))
   else Return tt, w).
Proof. unfold raise_for_status, is_error_status. destruct (_ && _); reflexivity. Qed.

Lemma requests_get_run url w :
  requests_get url 300 true w =
  (match network w url with
   | inl e => Raise (RequestException e)
   | inr r => Return r
   end,
   update w (fs w) (disk_free w) (requests_log w ++ [the_request url]) (stdout w)).
Proof. unfold requests_get. destruct (network w url); reflexivity. Qed.

Lemma truediv_run a b w :
  truediv a b w =
  (match int_truediv a b with inl e => Raise (ArithmeticError e) | inr x => Return x end, w).
Proof. unfold truediv. destruct (int_truediv a b); reflexivity. Qed.

Lemma open_write_new (p : Path) w :
  fs w !! path_str p = None ->
  open_write p w =
  match check_parent p w with
  | Some e => (Raise e, w)
  | None => (Return tt, update w (<[path_str p := File []]> (fs w)) (disk_free w)
                               (requests_log w) (stdout w))
  end.
Proof. intros H. unfold open_write. rewrite H. destruct (check_parent p w); reflexivity. Qed.

Lemma check_parent_exn p w e :
  check_parent p w = Some e -> is_RequestException e = false /\ is_Exception e = true.
Proof.
  unfold check_parent. destruct (p_tail p); [intros [= <-]; split; reflexivity|].
  destruct (fs w !! path_str (parent p)) as [[]|]; intros [= <-]; split; reflexivity.
Qed.

Lemma update_update w a b c d a' b' c' d' :
  update (update w a b c d) a' b' c' d' = update w a' b' c' d'.
Proof. reflexivity. Qed.

Lemma print_update m w :
  print m w = (Return tt, update w (fs w) (disk_free w) (requests_log w) (stdout w ++ [m])).
Proof. reflexivity. Qed.

Lemma os_flavour_update w a b c d : os_flavour (update w a b c d) = os_flavour w.
Proof. reflexivity. Qed.

Ltac world_simpl :=
  cbn [sys_platform home environ fs disk_free network requests_log stdout update set_fs] in *.

Lemma open_write_run (p : Path) w :
  open_write p w =
  match fs w !! path_str p with
  | Some Dir => (Raise (OSError IsADirectoryError), w)
  | Some (File old) =>
      (Return tt, update w (<[path_str p := File []]> (fs w)) (disk_free w + len old)
                         (requests_log w) (stdout w))
  | None =>
      match check_parent p w with
      | Some e => (Raise e, w)
      | None => (Return tt, update w (<[path_str p := File []]> (fs w)) (disk_free w)
                                   (requests_log w) (stdout w))
      end
  end.
Proof. reflexivity. Qed.

Lemma write_text_run (p : Path) (s : list Z) w :
  write_text p s w =
  match Codec.utf8_encode (Codec.translate_newlines (os_flavour w) s) with
  | Some data => file_write p data w
  | None => (Raise UnicodeError, w)
  end.
Proof.
  unfold write_text. rewrite run_bind. unfold get_world.
  destruct (Codec.utf8_encode _); reflexivity.
Qed.

Lemma finish_download_cases (fasta config : Path) (url : list Z) (total : Z) w content o w1 :
  fs w !! path_str fasta = Some (File content) ->
  path_str fasta <> path_str config ->
  finish_download fasta config url total w = (o, w1) ->
  match o with
  | Return p =>
      exists x data free,
        int_truediv (len content) (1024 * 1024) = inr x /\
        Codec.utf8_encode (Codec.translate_newlines (os_flavour w)
                             (dumps 2 (config_record fasta url x))) = Some data /\
        p = fasta /\
        w1 = update w (<[path_str config := File data]> (fs w)) free (requests_log w)
                    (stdout w ++ (if 0 <? total then [MsgNewline] else [])
                     ++ [MsgDownloadComplete x; MsgConfigSaved config])
  | Raise e =>
      is_RequestException e = false /\ is_Exception e = true /\
      exists fs1 free out,
        w1 = update w fs1 free (requests_log w) (stdout w ++ out) /\
        (fs1 = fs w \/ fs1 = <[path_str config := File []]> (fs w))
  end.
Proof.
  intros Hf Hne H. unfold finish_download in H.
  rewrite run_bind in H.
  set (nl := if 0 <? total then [MsgNewline] else []).
  assert (Hnl : (if 0 <? total then print MsgNewline else mret tt) w
                = (Return tt, update w (fs w) (disk_free w) (requests_log w) (stdout w ++ nl))).
  { subst nl. destruct (0 <? total); [reflexivity|].
    rewrite app_nil_r, update_id. reflexivity. }
  rewrite Hnl in H. clear Hnl.
  rewrite run_bind in H. unfold stat_size at 1 in H. world_simpl. rewrite Hf in H.
  rewrite run_bind, truediv_run in H. change (st_size (File content)) with (len content) in H.
  destruct (int_truediv (len content) (1024 * 1024)) as [ae|x] eqn:Hx.
  { inversion H; subst. repeat split. exists (fs w), (disk_free w), nl. split; [reflexivity|]. left; reflexivity. }
  rewrite run_bind, print_update in H. world_simpl.
  rewrite run_bind, open_write_run in H. world_simpl.
  assert (Hopen : forall wa e, check_parent config wa = Some e ->
            is_RequestException e = false /\ is_Exception e = true) by (intros; eapply check_parent_exn; eauto).
  set (out1 := (stdout w ++ nl) ++ [MsgDownloadComplete x]) in *.
  assert (Hstep : forall free0,
     (write_text config (dumps 2 (config_record fasta url x))
        ≫= λ _ : (), print (MsgConfigSaved config) ≫= λ _ : (), mret fasta)
       (update w (<[path_str config := File []]> (fs w)) free0 (requests_log w) out1) = (o, w1) ->
     match o with
     | Return p =>
         exists x data free,
           int_truediv (len content) (1024 * 1024) = inr x /\
           Codec.utf8_encode (Codec.translate_newlines (os_flavour w)
                                (dumps 2 (config_record fasta url x))) = Some data /\
           p = fasta /\
           w1 = update w (<[path_str config := File data]> (fs w)) free (requests_log w)
                       (stdout w ++ nl ++ [MsgDownloadComplete x; MsgConfigSaved config])
     | Raise e =>
         is_RequestException e = false /\ is_Exception e = true /\
         exists fs1 free out,
           w1 = update w fs1 free (requests_log w) (stdout w ++ out) /\
           (fs1 = fs w \/ fs1 = <[path_str config := File []]> (fs w))
     end).
  { intros free0 H0. rewrite run_bind, write_text_run in H0. rewrite os_flavour_update in H0.
    destruct (Codec.utf8_encode _) as [data|] eqn:Hdata.
    - unfold file_write at 1 in H0. world_simpl. rewrite lookup_insert_eq in H0.
      destruct (len data <=? free0).
      + rewrite run_bind, print_update in H0. world_simpl. inversion H0; subst.
        exists x, data, (free0 - len data). repeat split; try assumption.
        unfold update. rewrite insert_insert_eq. subst out1. rewrite <- !app_assoc. reflexivity.
      + inversion H0; subst. repeat split.
        exists (<[path_str config := File []]> (fs w)), free0, (nl ++ [MsgDownloadComplete x]).
        split; [subst out1; rewrite app_assoc; reflexivity|]. right; reflexivity.
    - inversion H0; subst. repeat split.
      exists (<[path_str config := File []]> (fs w)), free0, (nl ++ [MsgDownloadComplete x]).
      split; [subst out1; rewrite app_assoc; reflexivity|]. right; reflexivity. }
  rewrite <- Hx.
  destruct (fs w !! path_str config) as [[old|]|] eqn:Hc.
  - apply Hstep in H. exact H.
  - inversion H; subst. repeat split.
    exists (fs w), (disk_free w), (nl ++ [MsgDownloadComplete x]).
    split; [subst out1; rewrite app_assoc; reflexivity|]. left; reflexivity.
  - destruct (check_parent config _) as [e|] eqn:Hp.
    + inversion H; subst. destruct (Hopen _ _ Hp). repeat split; try assumption.
      exists (fs w), (disk_free w), (nl ++ [MsgDownloadComplete x]).
      split; [subst out1; rewrite app_assoc; reflexivity|]. left; reflexivity.
    + apply Hstep in H. exact H.
Qed.

(** what the [try] block can do, case by case *)
Lemma download_body_cases (fasta config : Path) (url : list Z) (w : World) o w1 :
  fs w !! path_str fasta = None ->
  path_str fasta <> path_str config ->
  download_body fasta config url w = (o, w1) ->
  match o with
  | Return p =>
      exists r chunks total x data free,
        network w url = inr r /\ is_error_status r = false /\
        header_total r = Some total /\
        iter_content r (1024 * 1024) = (chunks, None) /\
        int_truediv (len (concat chunks)) (1024 * 1024) = inr x /\
        Codec.utf8_encode (Codec.translate_newlines (os_flavour w)
                             (dumps 2 (config_record fasta url x))) = Some data /\
        p = fasta /\
        w1 = update w (<[path_str config := File data]>
                         (<[path_str fasta := File (concat chunks)]> (fs w)))
                      free (requests_log w ++ [the_request url])
                      (stdout w ++ progress_report total chunks 0
                       ++ (if 0 <? total then [MsgNewline] else [])
                       ++ [MsgDownloadComplete x; MsgConfigSaved config])
  | Raise e =>
      exists fs1 free out,
        w1 = update w fs1 free (requests_log w ++ [the_request url]) (stdout w ++ out) /\
        (forall k, k <> path_str fasta -> k <> path_str config -> fs1 !! k = fs w !! k) /\
        (fs1 !! path_str fasta = None \/ exists c, fs1 !! path_str fasta = Some (File c)) /\
        (if is_RequestException e
         then fs1 !! path_str config = fs w !! path_str config
         else is_Exception e = true /\
              (fs1 !! path_str config = fs w !! path_str config \/
               fs1 !! path_str config = Some (File [])))
  end.
Proof.
  intros Habsent Hne H. unfold download_body in H.
  rewrite run_bind, requests_get_run in H.
  destruct (network w url) as [e|r] eqn:Hnet.
  { inversion H; subst. exists (fs w), (disk_free w), []. rewrite app_nil_r.
    repeat split; auto. }
  rewrite run_bind, raise_for_status_run in H.
  destruct (is_error_status r) eqn:Hstatus.
  { inversion H; subst. exists (fs w), (disk_free w), []. rewrite app_nil_r.
    repeat split; auto. }
  rewrite run_bind, int_header_run in H.
  destruct (header_total r) as [total|] eqn:Htotal.
  2:{ inversion H; subst. exists (fs w), (disk_free w), []. rewrite app_nil_r.
      repeat split; auto. }
  rewrite run_bind, open_write_new in H by exact Habsent.
  destruct (check_parent fasta _) as [e|] eqn:Hparent.
  { inversion H; subst. destruct (check_parent_exn _ _ _ Hparent) as [-> ?].
    exists (fs w), (disk_free w), []. rewrite app_nil_r. repeat split; auto. }
  destruct (iter_content r (1024 * 1024)) as [chunks failure] eqn:Hiter.
  rewrite run_bind in H.
  destruct (write_chunks fasta total chunks 0 _) as [[d'|e] w2] eqn:Hloop.
  2:{ inversion H; subst.
      apply write_chunks_raise with (c0 := []) in Hloop; [|apply lookup_insert_eq].
      destruct Hloop as (-> & ? & c' & free' & out & ->). world_simpl.
      do 3 eexists. split; [reflexivity|].
      rewrite insert_insert_eq.
      repeat split; intros; rewrite ?lookup_insert_eq, ?lookup_insert_ne by congruence; eauto. }
  apply write_chunks_return with (c0 := []) in Hloop; [|apply lookup_insert_eq].
  destruct Hloop as [-> ->]. world_simpl. rewrite insert_insert_eq in H.
  rewrite run_bind in H.
  destruct failure as [e|].
  { inversion H; subst. do 3 eexists. split; [reflexivity|]. cbn [is_RequestException].
    repeat split; intros; rewrite ?lookup_insert_eq, ?lookup_insert_ne by congruence; eauto. }
  change (finish_download fasta config url total
            (update (update (update w (fs w) (disk_free w) (requests_log w ++ [the_request url]) (stdout w))
                       (<[path_str fasta:=File []]> (fs w)) (disk_free w)
                       (requests_log w ++ [the_request url]) (stdout w))
                    (<[path_str fasta:=File ([] ++ concat chunks)]> (fs w))
                    (disk_free w - len (concat chunks))
                    (requests_log w ++ [the_request url])
                    (stdout w ++ progress_report total chunks 0)) = (o, w1)) in H.
  rewrite !update_update in H. rewrite app_nil_l in H.
  apply finish_download_cases with (content := concat chunks) in H;
    [|apply lookup_insert_eq|exact Hne].
  world_simpl. rewrite ?os_flavour_update in H.
  destruct o as [p|e].
  - destruct H as (x & data & free & Hx & Hdata & -> & ->).
    exists r, chunks, total, x, data, free. rewrite update_update, <- !app_assoc.
    repeat split; auto.
  - destruct H as (-> & Hexn & fs1 & free & out & -> & Hfs).
    exists fs1, free, (progress_report total chunks 0 ++ out).
    rewrite update_update, <- app_assoc. split; [reflexivity|].
    destruct Hfs as [-> | ->]; cbv beta iota.
    + split; [intros; rewrite lookup_insert_ne by congruence; reflexivity|].
      split; [right; exists (concat chunks); apply lookup_insert_eq|].
      split; [assumption|]. left. apply lookup_insert_ne. congruence.
    + split; [intros; rewrite !lookup_insert_ne by congruence; reflexivity|].
      split; [right; exists (concat chunks); rewrite lookup_insert_ne by congruence;
              apply lookup_insert_eq|].
      split; [assumption|]. right. apply lookup_insert_eq.
Qed.

(** ** Directory creation only adds directories, at ancestors of the path *)

Lemma only_new_dirs_refl p m : only_new_dirs p m m.
Proof. intros k. left. reflexivity. Qed.

Lemma only_new_dirs_insert p m :
  m !! path_str p = None -> only_new_dirs p m (<[path_str p := Dir]> m).
Proof.
  intros H k. destruct (decide (k = path_str p)) as [->|Hk].
  - right. rewrite lookup_insert_eq. repeat split; auto. exists O. reflexivity.
  - left. apply lookup_insert_ne. congruence.
Qed.

Lemma only_new_dirs_parent p m1 m2 :
  only_new_dirs (parent p) m1 m2 -> only_new_dirs p m1 m2.
Proof.
  intros H k. destruct (H k) as [E|(E1 & E2 & i & Ei)]; [left; exact E|].
  right. repeat split; auto. exists (S i). rewrite Nat.iter_succ_r. exact Ei.
Qed.

Lemma only_new_dirs_trans p m1 m2 m3 :
  only_new_dirs p m1 m2 -> only_new_dirs p m2 m3 -> only_new_dirs p m1 m3.
Proof.
  intros H12 H23 k.
  destruct (H12 k) as [E|(E1 & E2 & i & Ei)], (H23 k) as [F|(F1 & F2 & j & Fj)].
  - left. congruence.
  - right. rewrite <- E. eauto.
  - right. rewrite F. eauto.
  - congruence.
Qed.

Lemma os_mkdir_cases p w :
  (exists e, os_mkdir p w = (Raise (OSError e), w)) \/
  (fs w !! path_str p = None /\
   os_mkdir p w = (Return tt, update w (<[path_str p := Dir]> (fs w)) (disk_free w)
                                     (requests_log w) (stdout w))).
Proof.
  unfold os_mkdir. destruct (fs w !! path_str p) eqn:E; [left; eauto|].
  unfold check_parent. destruct (p_tail p); [left; eauto|].
  destruct (fs w !! path_str (parent p)) as [[]|]; try (left; eexists; reflexivity).
  right. split; reflexivity.
Qed.

Lemma is_dir_check_frame p e w o w' :
  (d ← is_dir p; if d : bool then mret tt else raise e) w = (o : outcome unit, w') -> w' = w.
Proof.
  rewrite run_bind. unfold is_dir.
  destruct (fs w !! path_str p) as [[]|]; simpl; intros [= _ <-]; reflexivity.
Qed.

Lemma mkdir_exist_ok_frame p w o w' :
  mkdir_exist_ok p w = (o, w') ->
  exists fs', fs_only w w' fs' /\ only_new_dirs p (fs w) fs'.
Proof.
  unfold mkdir_exist_ok, try_except. intros H.
  destruct (os_mkdir_cases p w) as [[e He]|[Hnone He]]; rewrite He in H.
  - exists (fs w). split; [|apply only_new_dirs_refl]. unfold fs_only. rewrite update_id.
    destruct e; try (inversion H; reflexivity);
      apply is_dir_check_frame in H; exact H.
  - inversion H; subst. exists (<[path_str p := Dir]> (fs w)).
    split; [reflexivity|]. apply only_new_dirs_insert. exact Hnone.
Qed.

Lemma mkdir_parents_frame (fuel : nat) :
  forall p w o w',
    mkdir_parents fuel p w = (o, w') ->
    exists fs', fs_only w w' fs' /\ only_new_dirs p (fs w) fs'.
Proof.
  induction fuel as [|fuel IH]; intros p w o w' H; simpl in H; unfold try_except in H.
  - destruct (os_mkdir_cases p w) as [[e He]|[Hnone He]]; rewrite He in H.
    + exists (fs w). split; [|apply only_new_dirs_refl]. unfold fs_only. rewrite update_id.
      destruct e; try (inversion H; reflexivity);
        apply is_dir_check_frame in H; exact H.
    + inversion H; subst. exists (<[path_str p := Dir]> (fs w)).
      split; [reflexivity|]. apply only_new_dirs_insert. exact Hnone.
  - destruct (os_mkdir_cases p w) as [[e He]|[Hnone He]]; rewrite He in H.
    + destruct e;
        try (exists (fs w); split; [|apply only_new_dirs_refl]; unfold fs_only; rewrite update_id;
             apply is_dir_check_frame in H; exact H).
      rewrite run_bind in H.
      destruct (mkdir_parents fuel (parent p) w) as [[[]|e] wa] eqn:Hrec.
      * apply IH in Hrec. destruct Hrec as (fsa & -> & Hdirs).
        apply mkdir_exist_ok_frame in H. destruct H as (fsb & -> & Hdirs').
        exists fsb. split; [reflexivity|].
        eapply only_new_dirs_trans; [apply only_new_dirs_parent; exact Hdirs|exact Hdirs'].
      * apply IH in Hrec. destruct Hrec as (fsa & -> & Hdirs).
        inversion H; subst. exists fsa. split; [reflexivity|].
        apply only_new_dirs_parent. exact Hdirs.
    + inversion H; subst. exists (<[path_str p := Dir]> (fs w)).
      split; [reflexivity|]. apply only_new_dirs_insert. exact Hnone.
Qed.

Lemma mkdir_frame p w o w' :
  mkdir p w = (o, w') ->
  exists fs', fs_only w w' fs' /\ only_new_dirs p (fs w) fs'.
Proof. apply mkdir_parents_frame. Qed.

(** directory creation leaves the files of the cache directory alone *)
Lemma mkdir_keeps_child (cache_dir : Path) (name : list Z) (old new : gmap (list Z) node) :
  plain_name name -> (1 < length name)%nat ->
  only_new_dirs cache_dir old new ->
  new !! path_str (cache_dir // name) = old !! path_str (cache_dir // name).
Proof.
  intros Hp Hlen H. destruct (H (path_str (cache_dir // name))) as [E|(_ & _ & i & Ei)]; [exact E|].
  exfalso. eapply child_not_ancestor; eauto.
Qed.

Lemma download_start (cache_dir : Path) (url : list Z) (w w0 : World) :
  mkdir cache_dir w = (Return tt, w0) ->
  fs w0 !! path_str (cache_dir // u "hla_prot.fasta") = None ->
  download_hla_fasta cache_dir url w =
  try_except (download_body (cache_dir // u "hla_prot.fasta") (cache_dir // u "config.json") url)
             (request_handler (cache_dir // u "hla_prot.fasta"))
             (announce (cache_dir // u "hla_prot.fasta") url w0).
Proof.
  intros Hmk Habs. unfold download_hla_fasta.
  rewrite (run_bind_return _ _ _ _ _ Hmk).
  rewrite run_bind. unfold path_exists at 1. rewrite Habs.
  rewrite bool_decide_eq_false_2 by (intros [? ?]; discriminate).
  rewrite run_bind, print_update, run_bind, print_update, run_bind, print_update.
  rewrite !update_update. cbn [fs disk_free requests_log stdout update].
  rewrite <- !app_assoc. reflexivity.
Qed.

Lemma download_failed_run (fasta : Path) (e : exn) (w : World) :
  fs w !! path_str fasta = None \/ (exists c, fs w !! path_str fasta = Some (File c)) ->
  exists free,
    download_failed fasta e w =
    (Raise (SystemExit 1),
     update w (delete (path_str fasta) (fs w)) free (requests_log w)
            (stdout w ++ [MsgDownloadFailed e])).
Proof.
  intros H. unfold download_failed.
  rewrite run_bind, print_update, run_bind. unfold path_exists at 1.
  cbn [fs disk_free requests_log stdout update].
  destruct H as [H|[c H]]; rewrite H.
  - rewrite bool_decide_eq_false_2 by (intros [? ?]; discriminate).
    exists (disk_free w). rewrite run_bind.
    rewrite delete_id by exact H. reflexivity.
  - rewrite bool_decide_eq_true_2 by eauto.
    exists (disk_free w + len c). rewrite run_bind. unfold unlink at 1.
    cbn [fs disk_free requests_log stdout update]. rewrite H. reflexivity.
Qed.

(** a run that issues no request leaves the request log alone: the
    cases before the [try] block *)
Lemma download_without_request (cache_dir : Path) (url : list Z) (w : World) o w' :
  download_hla_fasta cache_dir url w = (o, w') ->
  requests_log w' <> requests_log w ->
  exists fs0,
    mkdir cache_dir w = (Return tt, update w fs0 (disk_free w) (requests_log w) (stdout w)) /\
    only_new_dirs cache_dir (fs w) fs0 /\
    fs0 !! path_str (cache_dir // u "hla_prot.fasta") = None.
Proof.
  intros H Hlog.
  destruct (mkdir cache_dir w) as [[[]|e] w0] eqn:Hmk.
  - destruct (mkdir_frame _ _ _ _ Hmk) as (fs0 & E & Hdirs).
    unfold fs_only in E. subst w0.
    exists fs0. split; [reflexivity|]. split; [exact Hdirs|].
    destruct (fs0 !! path_str (cache_dir // u "hla_prot.fasta")) as [n|] eqn:Hf; [|reflexivity].
    exfalso. apply Hlog. unfold download_hla_fasta in H.
    rewrite (run_bind_return _ _ _ _ _ Hmk) in H.
    rewrite run_bind in H. unfold path_exists at 1 in H.
    cbn [fs disk_free requests_log stdout update] in H. rewrite Hf in H.
    rewrite bool_decide_eq_true_2 in H by eauto.
    rewrite run_bind, print_update, run_bind in H. unfold stat_size at 1 in H.
    cbn [fs disk_free requests_log stdout update] in H. rewrite Hf in H.
    rewrite run_bind, truediv_run in H.
    destruct (int_truediv (st_size n) (1024 * 1024)).
    + inversion H; subst. reflexivity.
    + rewrite run_bind, print_update in H. inversion H; subst. reflexivity.
  - exfalso. apply Hlog. unfold download_hla_fasta in H.
    rewrite (run_bind_raise _ _ _ _ _ Hmk) in H. inversion H; subst.
    destruct (mkdir_frame _ _ _ _ Hmk) as (fs0 & E & _). unfold fs_only in E.
    subst w'. reflexivity.
Qed.

Lemma fasta_config_ne cache_dir : path_str (fasta_of cache_dir) <> path_str (config_of cache_dir).
Proof. apply fasta_ne_config. Qed.

Lemma exit_status_exception {A} (e : exn) :
  is_Exception e = true -> exit_status (Raise e : outcome A) = 1.
Proof. destruct e; simpl; congruence. Qed.

Lemma config_after_mkdir cache_dir old new :
  only_new_dirs cache_dir old new ->
  new !! path_str (config_of cache_dir) = old !! path_str (config_of cache_dir).
Proof. apply mkdir_keeps_child; [apply plain_config|vm_compute; lia]. Qed.

Lemma fasta_after_mkdir cache_dir old new :
  only_new_dirs cache_dir old new ->
  new !! path_str (fasta_of cache_dir) = old !! path_str (fasta_of cache_dir).
Proof. apply mkdir_keeps_child; [apply plain_fasta|vm_compute; lia]. Qed.

(** C1 (amended) *)
Theorem transport_failure_exits (cache_dir : Path) (url : list Z) (w w0 w1 : World)
    (e : request_exception) :
  mkdir cache_dir w = (Return tt, w0) ->
  fs w0 !! path_str (fasta_of cache_dir) = None ->
  download_body (fasta_of cache_dir) (config_of cache_dir) url
                (announce (fasta_of cache_dir) url w0) = (Raise (RequestException e), w1) ->
  exists w' out,
    download_hla_fasta cache_dir url w = (Raise (SystemExit 1), w') /\
    exit_status (Raise (SystemExit 1) : outcome Path) = 1 /\
    fs w' !! path_str (fasta_of cache_dir) = None /\
    fs w' !! path_str (config_of cache_dir) = fs w !! path_str (config_of cache_dir) /\
    stdout w' = stdout w ++ out ++ [MsgDownloadFailed (RequestException e)].
Proof.
  intros Hmk Habs Hbody.
  rewrite (download_start _ _ _ _ Hmk Habs). unfold try_except.
  fold (fasta_of cache_dir) (config_of cache_dir). rewrite Hbody.
  destruct (mkdir_frame _ _ _ _ Hmk) as (fs0 & E & Hdirs). unfold fs_only in E. subst w0.
  apply download_body_cases in Hbody; [|exact Habs|apply fasta_config_ne].
  destruct Hbody as (fs1 & free & out & -> & Hframe & Hfasta & Hconfig).
  cbn [is_RequestException request_handler] in *.
  cbn [fs requests_log stdout update announce] in *.
  match goal with |- context [download_failed ?f ?x ?wx] =>
    destruct (download_failed_run f x wx) as (free' & Hrun); [exact Hfasta|] end.
  eexists _, ([MsgDownloading; MsgUrl url; MsgDestination (fasta_of cache_dir)] ++ out).
  split; [exact Hrun|]. split; [reflexivity|].
  cbn [fs stdout update]. split; [apply lookup_delete_eq|]. split.
  - rewrite lookup_delete_ne by apply fasta_config_ne. rewrite Hconfig.
    apply config_after_mkdir. exact Hdirs.
  - rewrite <- !app_assoc. reflexivity.
Qed.

(** C2 (amended) *)
Theorem download_outcomes (cache_dir : Path) (url : list Z) (w : World) o w' :
  download_hla_fasta cache_dir url w = (o, w') ->
  requests_log w' <> requests_log w ->
  (exists r chunks x data,
      o = Return (fasta_of cache_dir) /\ exit_status o = 0 /\
      network w url = inr r /\ iter_content r (1024 * 1024) = (chunks, None) /\
      fs w' !! path_str (fasta_of cache_dir) = Some (File (concat chunks)) /\
      int_truediv (len (concat chunks)) (1024 * 1024) = inr x /\
      Codec.utf8_encode (Codec.translate_newlines (os_flavour w)
                           (dumps 2 (config_record (fasta_of cache_dir) url x))) = Some data /\
      fs w' !! path_str (config_of cache_dir) = Some (File data))
  \/ (exists e out,
      o = Raise (SystemExit 1) /\ exit_status o = 1 /\
      fs w' !! path_str (fasta_of cache_dir) = None /\
      fs w' !! path_str (config_of cache_dir) = fs w !! path_str (config_of cache_dir) /\
      stdout w' = stdout w ++ out ++ [MsgDownloadFailed (RequestException e)])
  \/ (exists e,
      o = Raise e /\ is_RequestException e = false /\ is_Exception e = true /\
      exit_status o = 1 /\
      (fs w' !! path_str (config_of cache_dir) = fs w !! path_str (config_of cache_dir) \/
       fs w' !! path_str (config_of cache_dir) = Some (File []))).
Proof.
  intros H Hlog.
  destruct (download_without_request _ _ _ _ _ H Hlog) as (fs0 & Hmk & Hdirs & Habs).
  fold (fasta_of cache_dir) in Habs.
  rewrite (download_start _ _ _ _ Hmk Habs) in H. unfold try_except in H.
  fold (fasta_of cache_dir) (config_of cache_dir) in H.
  destruct (download_body _ _ _ _) as [[p|e] w1] eqn:Hbody.
  - left. inversion H; subst. clear H.
    apply download_body_cases in Hbody; [|exact Habs|apply fasta_config_ne].
    destruct Hbody as (r & chunks & total & x & data & free & Hnet & _ & _ & Hiter & Hx & Hdata & -> & ->).
    exists r, chunks, x, data. cbn [fs update announce].
    repeat split; auto.
    + rewrite lookup_insert_ne by (intros E; symmetry in E; revert E; apply fasta_config_ne).
      apply lookup_insert_eq.
    + apply lookup_insert_eq.
  - pose proof Hbody as Hcases.
    apply download_body_cases in Hcases; [|exact Habs|apply fasta_config_ne].
    destruct Hcases as (fs1 & free & out & -> & Hframe & Hfasta & Hconfig).
    unfold request_handler in H.
    destruct (is_RequestException e) eqn:Hreq.
    + right. left. destruct e as [e| | | | | | | | |]; try discriminate.
      match type of H with download_failed _ _ ?wx = _ =>
        destruct (download_failed_run (fasta_of cache_dir) (RequestException e) wx)
          as (free' & Hrun); [exact Hfasta|] end.
      rewrite Hrun in H. inversion H; subst. clear H.
      exists e, ([MsgDownloading; MsgUrl url; MsgDestination (fasta_of cache_dir)] ++ out).
      cbn [fs stdout update announce]. repeat split.
      * apply lookup_delete_eq.
      * rewrite lookup_delete_ne by apply fasta_config_ne. rewrite Hconfig.
        cbn [fs update announce]. apply config_after_mkdir. exact Hdirs.
      * rewrite <- !app_assoc. reflexivity.
    + right. right. inversion H; subst. clear H.
      destruct Hconfig as [Hex Hconfig]. exists e.
      split; [reflexivity|]. split; [exact Hreq|]. split; [exact Hex|].
      split; [apply exit_status_exception; exact Hex|].
      cbn [fs update announce] in *.
      destruct Hconfig as [Hc|Hc].
      * left. rewrite Hc. apply config_after_mkdir. exact Hdirs.
      * right. exact Hc.
Qed.

Lemma load_body_run (w : World) :
  exists o, load_body (config_of (cache_dir_of w)) w = (o, w) /\
    match o with
    | Return r => exists s, config_path_value w = Some (JStr s) /\
                            r = Some (parse_path (os_flavour w) s)
    | Raise e => is_Exception e = true /\
                 forall s, config_path_value w <> Some (JStr s)
    end.
Proof.
  unfold load_body, config_path_value, config_text. rewrite run_bind. unfold read_text at 1.
  destruct (fs w !! path_str (config_of (cache_dir_of w))) as [[content|]|];
    try (eexists; split; [reflexivity|]; split; [reflexivity|]; intros; discriminate).
  destruct (Codec.utf8_decode content) as [text|];
    [|eexists; split; [reflexivity|]; split; [reflexivity|]; intros; discriminate].
  cbn [fmap option_fmap option_map].
  rewrite run_bind. unfold json_loads at 1.
  destruct (loads (Codec.universal_newlines text)) as [v|];
    [|eexists; split; [reflexivity|]; split; [reflexivity|]; intros; discriminate].
  change ((mret v : M json) w) with (Return v, w). cbv beta iota.
  rewrite run_bind. unfold getitem at 1.
  destruct v as [ | | | | |items|d];
    try (eexists; split; [reflexivity|]; split; [reflexivity|]; intros; discriminate).
  destruct (dict_get (u "hla_fasta_path") d) as [v|];
    [|eexists; split; [reflexivity|]; split; [reflexivity|]; intros; discriminate].
  change ((mret v : M json) w) with (Return v, w). cbv beta iota.
  rewrite run_bind. unfold Path_of at 1.
  destruct v as [ | | | |s| | ];
    try (eexists; split; [reflexivity|]; split; [reflexivity|]; intros; discriminate).
  eexists. split; [reflexivity|]. exists s. split; reflexivity.
Qed.

Lemma load_hla_path_unfold (w : World) :
  load_hla_path w =
  match fs w !! path_str (config_of (cache_dir_of w)) with
  | None => (Return None, say w [MsgNotSetUp])
  | Some _ =>
      match load_body (config_of (cache_dir_of w)) w with
      | (Return r, w') => (Return r, w')
      | (Raise e, w') =>
          if is_Exception e then (Return None, say w' [MsgErrorLoadingConfig e])
          else (Raise e, w')
      end
  end.
Proof.
  unfold load_hla_path. rewrite (run_bind_return _ _ _ _ _ (get_cache_dir_run w)).
  rewrite run_bind. unfold path_exists at 1.
  fold (config_of (cache_dir_of w)).
  destruct (fs w !! path_str (config_of (cache_dir_of w))) as [n|].
  - rewrite bool_decide_eq_true_2 by eauto. cbn [negb]. unfold try_except.
    fold (load_body (config_of (cache_dir_of w))).
    destruct (load_body (config_of (cache_dir_of w)) w) as [[r|e] w']; [reflexivity|].
    destruct (is_Exception e); reflexivity.
  - rewrite bool_decide_eq_false_2 by (intros [? ?]; discriminate). reflexivity.
Qed.

(** The loader when [Path.home()], [exists()] and [print] do not fail
    (the model of the runtime above): it returns in every world, changes
    nothing but the console, prints the guidance line when the config is
    missing and the error line when the file cannot be read or parsed or
    has no string under the key. *)
Theorem load_hla_path_total (w : World) :
  exists r out,
    load_hla_path w = (Return r, say w out) /\
    (fs w !! path_str (config_of (cache_dir_of w)) = None ->
       r = None /\ out = [MsgNotSetUp]) /\
    (is_Some (fs w !! path_str (config_of (cache_dir_of w))) ->
       (forall s, config_path_value w <> Some (JStr s)) ->
       r = None /\ exists e, out = [MsgErrorLoadingConfig e]) /\
    (is_Some (fs w !! path_str (config_of (cache_dir_of w))) ->
       forall s, config_path_value w = Some (JStr s) ->
       r = Some (parse_path (os_flavour w) s) /\ out = []).
Proof.
  rewrite load_hla_path_unfold.
  destruct (fs w !! path_str (config_of (cache_dir_of w))) as [n|] eqn:Hc.
  - destruct (load_body_run w) as (o & Hrun & Ho). rewrite Hrun.
    destruct o as [r|e].
    + destruct Ho as (s & Hs & ->). exists (Some (parse_path (os_flavour w) s)), [].
      split; [unfold say; rewrite app_nil_r, update_id; reflexivity|].
      split; [discriminate|]. split.
      * intros _ Hno. exfalso. eapply Hno; eauto.
      * intros _ s' Hs'. rewrite Hs in Hs'. inversion Hs'; subst. split; reflexivity.
    + destruct Ho as [-> Hno]. exists None, [MsgErrorLoadingConfig e].
      split; [reflexivity|]. split; [discriminate|]. split.
      * intros _ _. split; [reflexivity|]. eauto.
      * intros _ s Hs. exfalso. eapply Hno; eauto.
  - exists None, [MsgNotSetUp]. split; [reflexivity|]. split; [auto|].
    split; intros [? ?]; discriminate.
Qed.

(** C9 *)
Theorem get_cache_dir_pure (w1 w2 : World) :
  sys_platform w1 = sys_platform w2 -> home w1 = home w2 ->
  exists p, get_cache_dir w1 = (Return p, w1) /\ get_cache_dir w2 = (Return p, w2).
Proof.
  intros Hp Hh. exists (cache_dir_of w1). rewrite !get_cache_dir_run. split; [reflexivity|].
  unfold cache_dir_of. rewrite Hp, Hh. reflexivity.
Qed.

(** C5 (amended) *)
Theorem get_cache_dir_by_platform (w : World) (env : gmap (list Z) (list Z)) :
  let p := if Str.eqb (sys_platform w) (u "win32")
           then home w // u "AppData" // u "Local" // u "hai_def_cache"
           else home w // u ".cache" // u "hai_def" in
  get_cache_dir w = (Return p, w) /\
  get_cache_dir (set_environ w env) = (Return p, set_environ w env).
Proof. cbv zeta. rewrite !get_cache_dir_run. split; reflexivity. Qed.

(** C4 *)
Theorem download_idempotent (cache_dir : Path) (url : list Z) (w : World) (n : node) :
  fs w !! path_str cache_dir = Some Dir ->
  fs w !! path_str (fasta_of cache_dir) = Some n ->
  st_size n < 2 ^ 1043 ->
  exists mb w1 w2,
    int_truediv (st_size n) (1024 * 1024) = inr mb /\
    download_hla_fasta cache_dir url w = (Return (fasta_of cache_dir), w1) /\
    stdout w1 = stdout w ++ [MsgAlreadyCached (fasta_of cache_dir); MsgFileSize mb] /\
    requests_log w1 = requests_log w /\
    download_hla_fasta cache_dir url w1 = (Return (fasta_of cache_dir), w2) /\
    requests_log w2 = requests_log w.
Proof.
  intros Hdir Hfile Hsize.
  destruct (download_cached cache_dir url w n Hdir Hfile Hsize) as (mb & Hmb & Hrun).
  match type of Hrun with _ = (_, ?wa) =>
    destruct (download_cached cache_dir url wa n Hdir Hfile Hsize) as (mb' & _ & Hrun') end.
  do 3 eexists. split; [exact Hmb|]. split; [exact Hrun|].
  split; [reflexivity|]. split; [reflexivity|]. split; [exact Hrun'|]. reflexivity.
Qed.

(** C10 *)
Theorem cached_run_keeps_config (cache_dir : Path) (url : list Z) (w : World) (n : node) :
  fs w !! path_str cache_dir = Some Dir ->
  fs w !! path_str (fasta_of cache_dir) = Some n ->
  st_size n < 2 ^ 1043 ->
  exists w1,
    download_hla_fasta cache_dir url w = (Return (fasta_of cache_dir), w1) /\
    fs w1 = fs w /\
    fs w1 !! path_str (config_of cache_dir) = fs w !! path_str (config_of cache_dir) /\
    (cache_dir = cache_dir_of w ->
     fs w !! path_str (config_of cache_dir) = None ->
     load_hla_path w1 = (Return None, say w1 [MsgNotSetUp])).
Proof.
  intros Hdir Hfile Hsize.
  destruct (download_cached cache_dir url w n Hdir Hfile Hsize) as (mb & Hmb & Hrun).
  eexists. split; [exact Hrun|]. split; [reflexivity|]. split; [reflexivity|].
  intros -> Hnone. rewrite load_hla_path_unfold.
  change (fs ?wa !! path_str (config_of (cache_dir_of ?wa))) with
    (fs w !! path_str (config_of (cache_dir_of w))).
  rewrite Hnone. reflexivity.
Qed.

(** ** Example worlds *)

(** ** The claims as the specification words them, where the code differs *)

(** ** Counterexamples *)

(** C1: a 304 answer is a non-2xx status, yet the run completes *)
Lemma not_modified_is_not_a_failure :
  ~ transport_failure_as_stated ex_cache_dir default_url w_not_modified.
Proof.
  unfold transport_failure_as_stated, cleans_up_and_exits. intros H.
  assert (Hrun : (download_hla_fasta ex_cache_dir default_url w_not_modified).1
                 = Return (fasta_of ex_cache_dir)) by (vm_compute; reflexivity).
  destruct H as (Hexit & _).
  - vm_compute. reflexivity.
  - unfold transport_level_failure. simpl. left. lia.
  - rewrite Hrun in Hexit. discriminate.
Qed.

(** C2: a full disk in the chunk loop leaves the partial file *)
Lemma disk_full_leaves_partial_file :
  ~ download_invariant_as_stated ex_cache_dir default_url w_disk_full.
Proof.
  unfold download_invariant_as_stated. intros H.
  assert (Hrun : (download_hla_fasta ex_cache_dir default_url w_disk_full).1
                 = Raise (OSError NoSpaceLeft)) by (vm_compute; reflexivity).
  assert (Hfile : fs (download_hla_fasta ex_cache_dir default_url w_disk_full).2
                    !! path_str (fasta_of ex_cache_dir) = Some (File [1; 2; 3]))
    by (vm_compute; reflexivity).
  destruct H as [(p & Hp & _)|(Hnone & _)].
  - vm_compute. discriminate.
  - rewrite Hrun in Hp. discriminate.
  - rewrite Hfile in Hnone. discriminate.
Qed.

(** C5: the resolver does not follow LOCALAPPDATA *)
Lemma local_app_data_is_not_read : ~ windows_path_as_stated w_windows.
Proof.
  unfold windows_path_as_stated. intros H.
  destruct H as (local & p & Henv & Hrun & Hstr); [reflexivity|].
  rewrite get_cache_dir_run in Hrun. inversion Hrun; subst p. clear Hrun.
  vm_compute in Henv. inversion Henv; subst local. clear Henv.
  vm_compute in Hstr. discriminate.
Qed.

(** C8: without the header nothing is printed while the chunks arrive *)
Lemma no_length_no_progress : ~ progress_as_stated ex_cache_dir default_url w_no_length.
Proof.
  unfold progress_as_stated. intros H.
  eapply H.
  - reflexivity.
  - vm_compute. reflexivity.
  - simpl. discriminate.
  - vm_compute. reflexivity.
Qed.

Lemma transport_failure_exits_witness :
  exists w' out,
    download_hla_fasta ex_cache_dir default_url w_stream_error = (Raise (SystemExit 1), w') /\
    exit_status (Raise (SystemExit 1) : outcome Path) = 1 /\
    fs w' !! path_str (fasta_of ex_cache_dir) = None /\
    fs w' !! path_str (config_of ex_cache_dir)
      = fs w_stream_error !! path_str (config_of ex_cache_dir) /\
    stdout w' = stdout w_stream_error ++ out
                ++ [MsgDownloadFailed (RequestException ChunkedEncodingError)].
Proof.
  apply (transport_failure_exits ex_cache_dir default_url w_stream_error
           (mkdir ex_cache_dir w_stream_error).2
           (download_body (fasta_of ex_cache_dir) (config_of ex_cache_dir) default_url
              (announce (fasta_of ex_cache_dir) default_url
                 (mkdir ex_cache_dir w_stream_error).2)).2
           ChunkedEncodingError); vm_compute; reflexivity.
Defined.

Lemma download_outcomes_witness :
  requests_log w_cached <> requests_log w_ok /\
  exists r chunks x data,
    (download_hla_fasta ex_cache_dir default_url w_ok).1 = Return (fasta_of ex_cache_dir) /\
    network w_ok default_url = inr r /\
    iter_content r (1024 * 1024) = (chunks, None) /\
    fs w_cached !! path_str (fasta_of ex_cache_dir) = Some (File (concat chunks)) /\
    int_truediv (len (concat chunks)) (1024 * 1024) = inr x /\
    fs w_cached !! path_str (config_of ex_cache_dir) = Some (File data).
Proof.
  assert (Hlog : requests_log w_cached <> requests_log w_ok) by (vm_compute; discriminate).
  split; [exact Hlog|].
  destruct (download_outcomes ex_cache_dir default_url w_ok
              (download_hla_fasta ex_cache_dir default_url w_ok).1 w_cached)
    as [(r & chunks & x & data & H1 & _ & H2 & H3 & H4 & H5 & _ & H6)
       |[(e & out & H1 & _)|(e & H1 & _)]].
  - unfold w_cached. destruct (download_hla_fasta ex_cache_dir default_url w_ok). reflexivity.
  - exact Hlog.
  - exists r, chunks, x, data. repeat split; assumption.
  - exfalso. vm_compute in H1. discriminate.
  - exfalso. vm_compute in H1. inversion H1.
Defined.

Lemma get_cache_dir_pure_witness :
  exists p, get_cache_dir w_ok = (Return p, w_ok) /\
            get_cache_dir w_cached = (Return p, w_cached).
Proof. apply (get_cache_dir_pure w_ok w_cached); reflexivity. Defined.

Lemma download_idempotent_witness :
  exists mb w1 w2,
    int_truediv (st_size (File [1; 2; 3])) (1024 * 1024) = inr mb /\
    download_hla_fasta ex_cache_dir default_url w_file_only
      = (Return (fasta_of ex_cache_dir), w1) /\
    stdout w1 = stdout w_file_only
                ++ [MsgAlreadyCached (fasta_of ex_cache_dir); MsgFileSize mb] /\
    requests_log w1 = requests_log w_file_only /\
    download_hla_fasta ex_cache_dir default_url w1 = (Return (fasta_of ex_cache_dir), w2) /\
    requests_log w2 = requests_log w_file_only.
Proof.
  apply (download_idempotent ex_cache_dir default_url w_file_only (File [1; 2; 3])).
  - vm_compute. reflexivity.
  - vm_compute. reflexivity.
  - vm_compute. reflexivity.
Defined.

Lemma cached_run_keeps_config_witness :
  exists w1,
    download_hla_fasta ex_cache_dir default_url w_file_only
      = (Return (fasta_of ex_cache_dir), w1) /\
    fs w1 = fs w_file_only /\
    fs w1 !! path_str (config_of ex_cache_dir)
      = fs w_file_only !! path_str (config_of ex_cache_dir) /\
    (ex_cache_dir = cache_dir_of w_file_only ->
     fs w_file_only !! path_str (config_of ex_cache_dir) = None ->
     load_hla_path w1 = (Return None, say w1 [MsgNotSetUp])).
Proof.
  apply (cached_run_keeps_config ex_cache_dir default_url w_file_only (File [1; 2; 3])).
  - vm_compute. reflexivity.
  - vm_compute. reflexivity.
  - vm_compute. reflexivity.
Defined.

(* ===================================================================== *)
(** * Further properties of the script *)
(* ===================================================================== *)

(** ** JSON strings: what is written is what is read *)

Lemma hex_value_digit (d : Z) : 0 <= d < 16 -> hex_value (hex_digit d) = Some d.
Proof.
  intros H.
  assert (d = 0 \/ d = 1 \/ d = 2 \/ d = 3 \/ d = 4 \/ d = 5 \/ d = 6 \/ d = 7 \/
          d = 8 \/ d = 9 \/ d = 10 \/ d = 11 \/ d = 12 \/ d = 13 \/ d = 14 \/ d = 15)
    as Hd by lia.
  repeat (destruct Hd as [-> | Hd]; [reflexivity|]). subst. reflexivity.
Qed.

Lemma hex4_value_hex4 (n : Z) :
  0 <= n < 65536 ->
  hex4_value (hex_digit (n / 4096 mod 16)) (hex_digit (n / 256 mod 16))
             (hex_digit (n / 16 mod 16)) (hex_digit (n mod 16)) = Some n.
Proof.
  intros H. unfold hex4_value.
  rewrite !hex_value_digit by (apply Z.mod_pos_bound; lia).
  f_equal. Z.div_mod_to_equations. lia.
Qed.

Lemma join_surrogates_id (s : list Z) :
  has_surrogate_pair s = false -> join_surrogates s = s.
Proof.
  induction s as [|c1 tl IH]; [reflexivity|].
  destruct tl as [|c2 rest]; [reflexivity|].
  intros H. cbn [has_surrogate_pair] in H. apply orb_false_iff in H. destruct H as [H1 H2].
  cbn [join_surrogates]. rewrite H1. f_equal. apply IH. exact H2.
Qed.

(** *** The surrogates of an astral code point *)

Lemma lor_disjoint (a b k : Z) :
  0 <= k -> 0 <= b < 2 ^ k -> Z.lor (a * 2 ^ k) b = a * 2 ^ k + b.
Proof.
  intros Hk Hb. rewrite <- Z.shiftl_mul_pow2 by lia.
  rewrite <- Z.lxor_lor, <- Z.add_nocarry_lxor; try reflexivity.
  all: apply Z.bits_inj'; intros i Hi; rewrite Z.land_spec, Z.bits_0.
  all: destruct (Z.lt_ge_cases i k) as [Hlt|Hge];
       [rewrite Z.shiftl_spec_low by lia; reflexivity|].
  all: destruct (Z.eq_dec b 0) as [->|Hnz]; [rewrite Z.bits_0; apply andb_false_r|].
  all: rewrite (Z.bits_above_log2 b i); [apply andb_false_r|lia|].
  all: apply Z.log2_lt_pow2; [lia|]; apply Z.lt_le_trans with (2 ^ k); [lia|].
  all: apply Z.pow_le_mono_r; lia.
Qed.

Lemma high_surrogate_of (n : Z) :
  0 <= n < 1048576 ->
  Z.lor 55296 (Z.land (Z.shiftr n 10) 1023) = 55296 + n / 1024.
Proof.
  intros H. rewrite Z.shiftr_div_pow2 by lia. change (2 ^ 10) with 1024.
  change 1023 with (Z.ones 10). rewrite Z.land_ones by lia. change (2 ^ 10) with 1024.
  rewrite Z.mod_small by (Z.div_mod_to_equations; lia).
  change 55296 with (54 * 2 ^ 10). apply lor_disjoint; [lia|]. change (2 ^ 10) with 1024.
  Z.div_mod_to_equations. lia.
Qed.

Lemma low_surrogate_of (n : Z) :
  0 <= n -> Z.lor 56320 (Z.land n 1023) = 56320 + n mod 1024.
Proof.
  intros H. change 1023 with (Z.ones 10). rewrite Z.land_ones by lia.
  change (2 ^ 10) with 1024.
  change 56320 with (55 * 2 ^ 10). apply lor_disjoint; [lia|].
  change (2 ^ 10) with 1024. apply Z.mod_pos_bound. lia.
Qed.

Lemma surrogates_join (n : Z) :
  0 <= n < 1048576 ->
  65536 + Z.lor (Z.shiftl (55296 + n / 1024 - 55296) 10) (56320 + n mod 1024 - 56320)
  = 65536 + n.
Proof.
  intros H. replace (55296 + n / 1024 - 55296) with (n / 1024) by lia.
  replace (56320 + n mod 1024 - 56320) with (n mod 1024) by lia.
  rewrite Z.shiftl_mul_pow2 by lia. rewrite lor_disjoint; [|lia|].
  - change (2 ^ 10) with 1024. Z.div_mod_to_equations. lia.
  - change (2 ^ 10) with 1024. apply Z.mod_pos_bound. lia.
Qed.

(** *** The equations of [scanstring] *)

Lemma scanstring_quote (rest : list Z) : scanstring (34 :: rest) = Some ([], rest).
Proof. reflexivity. Qed.

Lemma scanstring_plain (c : Z) (rest : list Z) :
  32 <= c -> c <> 34 -> c <> 92 ->
  scanstring (c :: rest) = push c (scanstring rest).
Proof.
  intros H1 H2 H3. cbn [scanstring].
  rewrite (proj2 (Z.eqb_neq c 34)) by exact H2.
  rewrite (proj2 (Z.eqb_neq c 92)) by exact H3.
  replace (c <? 32) with false by (symmetry; apply Z.ltb_ge; lia).
  rewrite andb_false_r. reflexivity.
Qed.

Lemma scanstring_escape (esc ch : Z) (rest : list Z) :
  esc <> 117 -> unescape esc = Some ch ->
  scanstring (92 :: esc :: rest) = push ch (scanstring rest).
Proof.
  intros H1 H2. cbn [scanstring]. change (92 =? 34) with false. change (92 =? 92) with true.
  cbv iota. rewrite (proj2 (Z.eqb_neq esc 117)) by exact H1. rewrite H2. reflexivity.
Qed.

Lemma scanstring_u (a b c d uni : Z) (rest : list Z) :
  hex4_value a b c d = Some uni -> is_high_surrogate uni = false ->
  scanstring (92 :: 117 :: a :: b :: c :: d :: rest) = push uni (scanstring rest).
Proof.
  intros H1 H2. cbn [scanstring]. change (92 =? 34) with false. change (92 =? 92) with true.
  change (117 =? 117) with true. cbv iota. rewrite H1, H2. reflexivity.
Qed.

Lemma scanstring_pair (a b c d a2 b2 c2 d2 uni uni2 : Z) (rest : list Z) :
  hex4_value a b c d = Some uni -> is_high_surrogate uni = true ->
  hex4_value a2 b2 c2 d2 = Some uni2 -> is_low_surrogate uni2 = true ->
  scanstring (92 :: 117 :: a :: b :: c :: d :: 92 :: 117 :: a2 :: b2 :: c2 :: d2 :: rest)
  = push (65536 + Z.lor (Z.shiftl (uni - 55296) 10) (uni2 - 56320)) (scanstring rest).
Proof.
  intros H1 H2 H3 H4.
  change (scanstring (92 :: 117 :: a :: b :: c :: d :: 92 :: 117 :: a2 :: b2 :: c2 :: d2 :: rest))
    with (match hex4_value a b c d with
          | None => None
          | Some uni =>
              if is_high_surrogate uni then
                match hex4_value a2 b2 c2 d2 with
                | None => None
                | Some uni2 =>
                    if is_low_surrogate uni2 then
                      push (65536 + Z.lor (Z.shiftl (uni - 55296) 10) (uni2 - 56320))
                           (scanstring rest)
                    else push uni (scanstring (92 :: 117 :: a2 :: b2 :: c2 :: d2 :: rest))
                end
              else push uni (scanstring (92 :: 117 :: a2 :: b2 :: c2 :: d2 :: rest))
          end).
  rewrite H1, H2, H3, H4. reflexivity.
Qed.

Lemma scanstring_high_then_other (a b c d a2 b2 c2 d2 uni uni2 : Z) (rest : list Z) :
  hex4_value a b c d = Some uni ->
  hex4_value a2 b2 c2 d2 = Some uni2 -> is_low_surrogate uni2 = false ->
  scanstring (92 :: 117 :: a :: b :: c :: d :: 92 :: 117 :: a2 :: b2 :: c2 :: d2 :: rest)
  = push uni (scanstring (92 :: 117 :: a2 :: b2 :: c2 :: d2 :: rest)).
Proof.
  intros H1 H3 H4.
  change (scanstring (92 :: 117 :: a :: b :: c :: d :: 92 :: 117 :: a2 :: b2 :: c2 :: d2 :: rest))
    with (match hex4_value a b c d with
          | None => None
          | Some uni =>
              if is_high_surrogate uni then
                match hex4_value a2 b2 c2 d2 with
                | None => None
                | Some uni2 =>
                    if is_low_surrogate uni2 then
                      push (65536 + Z.lor (Z.shiftl (uni - 55296) 10) (uni2 - 56320))
                           (scanstring rest)
                    else push uni (scanstring (92 :: 117 :: a2 :: b2 :: c2 :: d2 :: rest))
                end
              else push uni (scanstring (92 :: 117 :: a2 :: b2 :: c2 :: d2 :: rest))
          end).
  rewrite H1, H3, H4. destruct (is_high_surrogate uni); reflexivity.
Qed.

Lemma scanstring_high_alone (a b c d uni : Z) (rest : list Z) :
  hex4_value a b c d = Some uni ->
  (forall r, rest <> 92 :: 117 :: r) ->
  scanstring (92 :: 117 :: a :: b :: c :: d :: rest) = push uni (scanstring rest).
Proof.
  intros H1 Hrest.
  change (scanstring (92 :: 117 :: a :: b :: c :: d :: rest))
    with (match hex4_value a b c d with
          | None => None
          | Some uni =>
              if is_high_surrogate uni then
                match rest with
                | bs :: uu :: a2 :: b2 :: c2 :: d2 :: rest3 =>
                    if (bs =? 92) && (uu =? 117) then
                      match hex4_value a2 b2 c2 d2 with
                      | None => None
                      | Some uni2 =>
                          if is_low_surrogate uni2 then
                            push (65536 + Z.lor (Z.shiftl (uni - 55296) 10) (uni2 - 56320))
                                 (scanstring rest3)
                          else push uni (scanstring rest)
                      end
                    else push uni (scanstring rest)
                | _ => push uni (scanstring rest)
                end
              else push uni (scanstring rest)
          end).
  rewrite H1. destruct (is_high_surrogate uni); [|reflexivity].
  destruct rest as [|bs [|uu [|a2 [|b2 [|c2 [|d2 rest3]]]]]]; try reflexivity.
  destruct (bs =? 92) eqn:E1; [|reflexivity].
  destruct (uu =? 117) eqn:E2; [|reflexivity].
  apply Z.eqb_eq in E1, E2. subst. exfalso. eapply Hrest. reflexivity.
Qed.

(** *** The escapes of one code point *)

Lemma surrogate_range (c : Z) :
  (c < 55296 \/ 57343 < c) -> is_high_surrogate c = false /\ is_low_surrogate c = false.
Proof.
  intros H. unfold is_high_surrogate, is_low_surrogate.
  split; apply andb_false_iff; destruct H; [left|right|left|right];
    first [apply Z.leb_gt; lia].
Qed.

Lemma escape_char_shape (c : Z) : code_point c -> escape_shape c (escape_char c).
Proof.
  intros Hc. unfold code_point in Hc. unfold escape_char.
  destruct (c =? 92) eqn:E1.
  { apply Z.eqb_eq in E1. subst. apply shape_short; [lia|reflexivity..]. }
  destruct (c =? 34) eqn:E2.
  { apply Z.eqb_eq in E2. subst. apply shape_short; [lia|reflexivity..]. }
  destruct (c =? 8) eqn:E3.
  { apply Z.eqb_eq in E3. subst. apply shape_short; [lia|reflexivity..]. }
  destruct (c =? 12) eqn:E4.
  { apply Z.eqb_eq in E4. subst. apply shape_short; [lia|reflexivity..]. }
  destruct (c =? 10) eqn:E5.
  { apply Z.eqb_eq in E5. subst. apply shape_short; [lia|reflexivity..]. }
  destruct (c =? 13) eqn:E6.
  { apply Z.eqb_eq in E6. subst. apply shape_short; [lia|reflexivity..]. }
  destruct (c =? 9) eqn:E7.
  { apply Z.eqb_eq in E7. subst. apply shape_short; [lia|reflexivity..]. }
  apply Z.eqb_neq in E1, E2.
  destruct ((32 <=? c) && (c <=? 126)) eqn:E8.
  { apply andb_true_iff in E8. destruct E8 as [Ha Hb]. apply Z.leb_le in Ha, Hb.
    destruct (surrogate_range c) as [? ?]; [lia|].
    apply shape_plain; [lia|assumption..]. }
  destruct (c <? 65536) eqn:E9.
  { apply Z.ltb_lt in E9. apply shape_u. apply hex4_value_hex4. lia. }
  apply Z.ltb_ge in E9. cbv zeta.
  assert (Hn : 0 <= c - 65536 < 1048576) by lia.
  rewrite high_surrogate_of by exact Hn. rewrite low_surrogate_of by lia.
  set (n := c - 65536) in *.
  assert (Hq : 0 <= n / 1024 < 1024) by (Z.div_mod_to_equations; lia).
  assert (Hr : 0 <= n mod 1024 < 1024) by (apply Z.mod_pos_bound; lia).
  destruct (surrogate_range c) as [? ?]; [lia|].
  apply shape_astral with (hi := 55296 + n / 1024) (lo := 56320 + n mod 1024).
  - apply hex4_value_hex4. lia.
  - unfold is_high_surrogate. apply andb_true_iff. split; apply Z.leb_le; lia.
  - unfold is_low_surrogate. apply andb_false_iff. left. apply Z.leb_gt. lia.
  - apply hex4_value_hex4. lia.
  - unfold is_low_surrogate. apply andb_true_iff. split; apply Z.leb_le; lia.
  - rewrite surrogates_join by exact Hn. subst n. lia.
  - assumption.
  - assumption.
Qed.

Lemma join_surrogates_cons (c1 : Z) (tl : list Z) :
  is_high_surrogate c1 = false \/
    match tl with c2 :: _ => is_low_surrogate c2 = false | [] => True end ->
  join_surrogates (c1 :: tl) = c1 :: join_surrogates tl.
Proof.
  intros H. destruct tl as [|c2 rest]; [reflexivity|].
  cbn [join_surrogates]. destruct H as [-> | ->]; rewrite ?andb_false_r; reflexivity.
Qed.

(** the decoder reads the escapes of a string up to its closing quote *)
Lemma scanstring_escapes (n : nat) :
  forall (s rest : list Z), (length s <= n)%nat -> Forall code_point s ->
  scanstring (flat_map escape_char s ++ 34 :: rest) = Some (join_surrogates s, rest).
Proof.
  induction n as [|n IH]; intros s rest Hlen Hs.
  { destruct s; [reflexivity|simpl in Hlen; lia]. }
  destruct s as [|c1 tl]; [reflexivity|].
  apply Forall_cons in Hs. destruct Hs as [Hc1 Htl].
  assert (IHtl : forall rest, scanstring (flat_map escape_char tl ++ 34 :: rest)
                              = Some (join_surrogates tl, rest)).
  { intros r. apply IH; [simpl in Hlen; lia|exact Htl]. }
  cbn [flat_map]. rewrite <- app_assoc.
  destruct (escape_char_shape c1 Hc1)
    as [esc He1 He2 Hh Hl | Ha Hb Hc Hh Hl | a b c' d Hhex
        | a b c' d a2 b2 c2 d2 hi lo Hhex1 Hhi Hhi' Hhex2 Hlo Hval Hh Hl].
  - cbn [app]. rewrite (scanstring_escape _ _ _ He1 He2), IHtl.
    rewrite join_surrogates_cons by (left; exact Hh). reflexivity.
  - cbn [app]. rewrite scanstring_plain by (assumption || lia). rewrite IHtl.
    rewrite join_surrogates_cons by (left; exact Hh). reflexivity.
  - cbn [app]. destruct (is_high_surrogate c1) eqn:Hhigh.
    2:{ rewrite (scanstring_u _ _ _ _ _ _ Hhex Hhigh), IHtl.
        rewrite join_surrogates_cons by (left; exact Hhigh). reflexivity. }
    destruct tl as [|c2 tl'].
    { cbn [flat_map app]. rewrite (scanstring_high_alone _ _ _ _ _ _ Hhex) by (intros r; discriminate).
      reflexivity. }
    apply Forall_cons in Htl. destruct Htl as [Hc2 Htl'].
    specialize (IHtl rest). cbn [flat_map] in IHtl |- *. rewrite <- app_assoc in IHtl |- *.
    destruct (escape_char_shape c2 Hc2)
      as [esc He1 He2 Hh2 Hl2 | Ha Hb Hc Hh2 Hl2 | a' b' c'' d' Hhex'
          | a' b' c'' d' a2 b2 c2' d2 hi lo Hhex1 Hhi Hhi' Hhex2 Hlo Hval Hh2 Hl2].
    + cbn [app] in IHtl |- *.
      rewrite (scanstring_high_alone _ _ _ _ _ _ Hhex) by (intros r [=]; congruence).
      rewrite IHtl. rewrite (join_surrogates_cons c1) by (right; exact Hl2). reflexivity.
    + cbn [app] in IHtl |- *.
      rewrite (scanstring_high_alone _ _ _ _ _ _ Hhex) by (intros r [=]; congruence).
      rewrite IHtl. rewrite (join_surrogates_cons c1) by (right; exact Hl2). reflexivity.
    + cbn [app] in IHtl |- *. destruct (is_low_surrogate c2) eqn:Hlow.
      * rewrite (scanstring_pair _ _ _ _ _ _ _ _ _ _ _ Hhex Hhigh Hhex' Hlow).
        rewrite IH; [|simpl in Hlen; lia|exact Htl'].
        cbn [join_surrogates]. rewrite Hhigh, Hlow. reflexivity.
      * rewrite (scanstring_high_then_other _ _ _ _ _ _ _ _ _ _ _ Hhex Hhex' Hlow).
        rewrite IHtl. rewrite (join_surrogates_cons c1) by (right; exact Hlow). reflexivity.
    + cbn [app] in IHtl |- *.
      rewrite (scanstring_high_then_other _ _ _ _ _ _ _ _ _ _ _ Hhex Hhex1 Hhi').
      rewrite IHtl. rewrite (join_surrogates_cons c1) by (right; exact Hl2). reflexivity.
  - cbn [app]. rewrite (scanstring_pair _ _ _ _ _ _ _ _ _ _ _ Hhex1 Hhi Hhex2 Hlo).
    rewrite IHtl, Hval. rewrite join_surrogates_cons by (left; exact Hh). reflexivity.
Qed.

Lemma scanstring_encoded (s rest : list Z) :
  Forall code_point s ->
  scanstring (flat_map escape_char s ++ 34 :: rest) = Some (join_surrogates s, rest).
Proof. intros H. apply (scanstring_escapes (length s)); [lia|exact H]. Qed.

Lemma scanstring_json_text (s rest : list Z) :
  json_text s -> scanstring (flat_map escape_char s ++ 34 :: rest) = Some (s, rest).
Proof.
  intros [H1 H2]. rewrite scanstring_encoded by exact H1.
  rewrite join_surrogates_id by exact H2. reflexivity.
Qed.

(** ** JSON numbers: the text of a float is a number the decoder reads *)

Lemma span_digits_app (ds rest : list Z) :
  all_digits ds ->
  match rest with c :: _ => Str.is_digit c = false | [] => True end ->
  span_digits (ds ++ rest) = (ds, rest).
Proof.
  intros Hds Hrest. induction Hds as [|c ds Hc Hds IH].
  - destruct rest as [|c r]; [reflexivity|]. cbn [app span_digits]. rewrite Hrest. reflexivity.
  - cbn [app span_digits]. rewrite Hc, IH. reflexivity.
Qed.

Lemma is_digit_range (c : Z) : Str.is_digit c = true <-> 48 <= c <= 57.
Proof.
  unfold Str.is_digit. rewrite andb_true_iff, !Z.leb_le. tauto.
Qed.

Lemma scan_int_part_app (ip rest : list Z) :
  (ip = [48] \/ exists c ds, ip = c :: ds /\ 49 <= c <= 57 /\ all_digits ds) ->
  match rest with c :: _ => Str.is_digit c = false | [] => True end ->
  scan_int_part (ip ++ rest) = Some (ip, rest).
Proof.
  intros [-> | (c & ds & -> & Hc & Hds)] Hrest; [reflexivity|].
  cbn [app]. unfold scan_int_part.
  replace (c =? 48) with false by (symmetry; apply Z.eqb_neq; lia).
  replace (Str.is_digit c) with true by (symmetry; apply is_digit_range; lia).
  change (c :: ds ++ rest) with ((c :: ds) ++ rest).
  rewrite span_digits_app; [reflexivity| |exact Hrest].
  constructor; [apply is_digit_range; lia|exact Hds].
Qed.

Lemma scan_frac_some (fp rest : list Z) :
  fp <> [] -> all_digits fp ->
  match rest with c :: _ => Str.is_digit c = false | [] => True end ->
  scan_frac (46 :: fp ++ rest) = (fp, rest).
Proof.
  intros Hne Hfp Hrest. unfold scan_frac. change (46 =? 46) with true. cbv iota.
  rewrite span_digits_app by assumption. destruct fp; [congruence|reflexivity].
Qed.

Lemma scan_frac_none (rest : list Z) :
  match rest with c :: _ => c <> 46 | [] => True end ->
  scan_frac rest = ([], rest).
Proof.
  intros H. destruct rest as [|c r]; [reflexivity|]. unfold scan_frac.
  rewrite (proj2 (Z.eqb_neq c 46)) by exact H. reflexivity.
Qed.

Lemma scan_exp_some (eneg : bool) (ep rest : list Z) :
  ep <> [] -> all_digits ep ->
  match rest with c :: _ => Str.is_digit c = false | [] => True end ->
  scan_exp (101 :: (if eneg then 45 else 43) :: ep ++ rest) = (eneg, ep, rest).
Proof.
  intros Hne Hep Hrest. unfold scan_exp. change (101 =? 101) with true. cbn [orb].
  destruct eneg.
  - change (45 =? 45) with true. cbv iota.
    rewrite span_digits_app by assumption. destruct ep; [congruence|reflexivity].
  - change (43 =? 45) with false. change (43 =? 43) with true. cbv iota.
    rewrite span_digits_app by assumption. destruct ep; [congruence|reflexivity].
Qed.

Lemma scan_exp_none (rest : list Z) :
  match rest with c :: _ => c <> 101 /\ c <> 69 | [] => True end ->
  scan_exp rest = (false, [], rest).
Proof.
  intros H. destruct rest as [|c r]; [reflexivity|]. unfold scan_exp. destruct H as [H1 H2].
  rewrite (proj2 (Z.eqb_neq c 101)) by exact H1.
  rewrite (proj2 (Z.eqb_neq c 69)) by exact H2. reflexivity.
Qed.

Lemma scan_number_unfold (neg : bool) (ip tail : list Z) :
  (ip = [48] \/ exists c ds, ip = c :: ds /\ 49 <= c <= 57 /\ all_digits ds) ->
  match tail with c :: _ => Str.is_digit c = false | [] => True end ->
  scan_number ((if neg then [45] else []) ++ ip ++ tail)
  = let '(fp, s3) := scan_frac tail in
    let '(eneg, ep, s4) := scan_exp s3 in
    match fp, ep with
    | [], [] => Some (JInt (if neg then - digits_value ip else digits_value ip), s4)
    | _, _ =>
        Some (JFloat (float_of_decimal neg (digits_value (ip ++ fp))
                        ((if eneg then - digits_value ep else digits_value ep)
                         - Z.of_nat (length fp))), s4)
    end.
Proof.
  intros Hip Htail.
  assert (Hint : scan_int_part (ip ++ tail) = Some (ip, tail))
    by (apply scan_int_part_app; assumption).
  unfold scan_number. destruct neg.
  - cbn [app]. change (45 =? 45) with true. cbv iota. rewrite Hint. reflexivity.
  - cbn [app]. destruct Hip as [-> | (c & ds & -> & Hc & Hds)].
    + cbn [app] in Hint |- *. change (48 =? 45) with false. cbv iota. rewrite Hint. reflexivity.
    + cbn [app] in Hint |- *. replace (c =? 45) with false by (symmetry; apply Z.eqb_neq; lia).
      rewrite Hint. reflexivity.
Qed.

(** the decoder reads a literal as the float it denotes *)
Lemma scan_number_render (n : number_text) (rest : list Z) :
  float_literal n -> stops rest ->
  scan_number (render n ++ rest) = Some (JFloat (number_value n), rest).
Proof.
  destruct n as [neg ip fp ex]. unfold float_literal, render, number_value.
  cbn [nt_neg nt_int nt_frac nt_exp]. intros (Hip & Hfp & Hex) Hrest.
  assert (Hstop : match rest with c :: _ => Str.is_digit c = false | [] => True end).
  { destruct rest; [exact I|]. apply Hrest. }
  assert (Hnoexp : match rest with c :: _ => c <> 101 /\ c <> 69 | [] => True end).
  { destruct rest; [exact I|]. split; apply Hrest. }
  destruct fp as [|f fp]; destruct ex as [[eneg ep]|]; cbn [default].
  - destruct Hex as [Hne Hep].
    match goal with |- scan_number ?x = _ =>
      replace x with ((if neg then [45] else []) ++ ip
                      ++ 101 :: (if eneg then 45 else 43) :: ep ++ rest)
        by (rewrite <- ?app_assoc; cbn [app]; rewrite <- ?app_assoc; reflexivity) end.
    rewrite scan_number_unfold; [|exact Hip|exact eq_refl].
    unfold scan_frac at 1. change (101 =? 46) with false. cbv iota.
    rewrite scan_exp_some by assumption.
    destruct ep; [congruence|]. reflexivity.
  - destruct Hex. reflexivity.
  - destruct Hex as [Hne Hep].
    match goal with |- scan_number ?x = _ =>
      replace x with ((if neg then [45] else []) ++ ip
                      ++ 46 :: (f :: fp) ++ 101 :: (if eneg then 45 else 43) :: ep ++ rest)
        by (rewrite <- ?app_assoc; cbn [app]; rewrite <- ?app_assoc; reflexivity) end.
    rewrite scan_number_unfold; [|exact Hip|exact eq_refl].
    rewrite scan_frac_some; [|discriminate|exact Hfp|exact eq_refl].
    rewrite scan_exp_some by assumption. reflexivity.
  - match goal with |- scan_number ?x = _ =>
      replace x with ((if neg then [45] else []) ++ ip ++ 46 :: (f :: fp) ++ rest)
        by (rewrite <- ?app_assoc; cbn [app]; rewrite <- ?app_assoc; reflexivity) end.
    rewrite scan_number_unfold; [|exact Hip|exact eq_refl].
    rewrite scan_frac_some; [|discriminate|exact Hfp|exact Hstop].
    rewrite scan_exp_none by exact Hnoexp. reflexivity.
Qed.

(** *** The digits of [repr] *)

Lemma digits_go_spec (fuel : nat) :
  forall (n : Z) (acc : list Z), 0 < n < 2 ^ Z.of_nat fuel ->
  exists c ds, digits_go fuel n acc = c :: ds ++ acc /\ 49 <= c <= 57 /\ all_digits ds.
Proof.
  induction fuel as [|fuel IH]; intros n acc Hn.
  { change (2 ^ Z.of_nat 0) with 1 in Hn. lia. }
  cbn [digits_go]. destruct (n <? 10) eqn:E.
  - apply Z.ltb_lt in E. exists (48 + n mod 10), []. split; [reflexivity|].
    split; [rewrite Z.mod_small by lia; lia|constructor].
  - apply Z.ltb_ge in E.
    rewrite Nat2Z.inj_succ, Z.pow_succ_r in Hn by lia.
    destruct (IH (n / 10) ((48 + n mod 10) :: acc)) as (c & ds & Hgo & Hc & Hds).
    { Z.div_mod_to_equations. lia. }
    exists c, (ds ++ [48 + n mod 10]). split; [rewrite Hgo, <- app_assoc; reflexivity|].
    split; [exact Hc|]. apply Forall_app. split; [exact Hds|].
    constructor; [|constructor]. apply is_digit_range.
    pose proof (Z.mod_pos_bound n 10). lia.
Qed.

Lemma Z_digits_positive (n : Z) :
  0 < n -> exists c ds, Z_digits n = c :: ds /\ 49 <= c <= 57 /\ all_digits ds.
Proof.
  intros Hn. unfold Z_digits.
  destruct (digits_go_spec (S (Z.to_nat (Z.log2 n))) n []) as (c & ds & Hgo & Hc & Hds).
  - rewrite Nat2Z.inj_succ, Z2Nat.id by apply Z.log2_nonneg.
    split; [exact Hn|]. apply Z.log2_spec. exact Hn.
  - exists c, ds. rewrite Hgo, app_nil_r. auto.
Qed.

Lemma Z_digits_digits (n : Z) : 0 <= n -> Z_digits n <> [] /\ all_digits (Z_digits n).
Proof.
  intros Hn. destruct (Z.eq_dec n 0) as [->|Hnz].
  - split; [discriminate|]. repeat constructor.
  - destruct (Z_digits_positive n) as (c & ds & -> & Hc & Hds); [lia|].
    split; [discriminate|]. constructor; [apply is_digit_range; lia|exact Hds].
Qed.

Lemma strip_zeros_digits (ds : list Z) : all_digits ds -> all_digits (strip_zeros ds).
Proof.
  induction 1 as [|c ds Hc Hds IH]; [constructor|].
  cbn [strip_zeros]. destruct (strip_zeros ds) as [|c' ds'].
  - destruct (c =? 48); repeat constructor. exact Hc.
  - constructor; assumption.
Qed.

Lemma exponent_text_shape (x : Z) :
  exists ep, exponent_text x = (if x <? 0 then 45 else 43) :: ep /\ ep <> [] /\ all_digits ep.
Proof.
  unfold exponent_text.
  destruct (Z_digits_digits (Z.abs x)) as [Hne Hds]; [lia|].
  destruct (Z.abs x <? 10).
  - eexists. split; [reflexivity|]. split; [discriminate|].
    constructor; [reflexivity|exact Hds].
  - eexists. split; [reflexivity|]. split; assumption.
Qed.

(** *** The decimal point and the shortest digits *)

Lemma decpt_up_lower (num den : Z) (fuel : nat) :
  forall p, 1 <= p -> den * 10 ^ (p - 1) <= num ->
  decpt_lower num den (decpt_up fuel num den p).
Proof.
  induction fuel as [|fuel IH]; intros p Hp H; cbn [decpt_up].
  - unfold decpt_lower. replace (1 <=? p) with true by (symmetry; apply Z.leb_le; lia). exact H.
  - destruct (num <? den * 10 ^ p) eqn:E.
    + unfold decpt_lower. replace (1 <=? p) with true by (symmetry; apply Z.leb_le; lia). exact H.
    + apply Z.ltb_ge in E. apply IH; [lia|]. replace (p + 1 - 1) with p by lia. exact E.
Qed.

Lemma decpt_down_lower (num den : Z) (fuel : nat) :
  forall j, 0 <= j -> den <= num * 10 ^ (j + Z.of_nat fuel + 1) ->
  decpt_lower num den (decpt_down fuel num den j).
Proof.
  induction fuel as [|fuel IH]; intros j Hj H; cbn [decpt_down].
  - unfold decpt_lower. replace (1 <=? - j) with false by (symmetry; apply Z.leb_gt; lia).
    replace (1 - - j) with (j + Z.of_nat 0 + 1) by lia. exact H.
  - destruct (den <=? num * 10 ^ (j + 1)) eqn:E.
    + apply Z.leb_le in E. unfold decpt_lower.
      replace (1 <=? - j) with false by (symmetry; apply Z.leb_gt; lia).
      replace (1 - - j) with (j + 1) by lia. exact E.
    + apply IH; [lia|]. replace (j + 1 + Z.of_nat fuel + 1) with (j + Z.of_nat (S fuel) + 1) by lia.
      exact H.
Qed.

Lemma decpt_of_lower (num den : Z) :
  0 < num -> 0 < den <= 2 ^ 1074 -> decpt_lower num den (decpt_of num den).
Proof.
  intros Hnum Hden. unfold decpt_of. destruct (den <=? num) eqn:E.
  - apply Z.leb_le in E. apply decpt_up_lower; [lia|]. change (10 ^ (1 - 1)) with 1. lia.
  - apply decpt_down_lower; [lia|].
    apply Z.le_trans with (1 * 10 ^ (0 + Z.of_nat 400 + 1)).
    + apply Z.le_trans with (2 ^ 1074); [lia|]. vm_compute. discriminate.
    + apply Z.mul_le_mono_nonneg_r; [|lia]. apply Z.pow_nonneg. lia.
Qed.

Lemma scale10_lower (num den p k : Z) :
  0 < num -> 0 < den -> decpt_lower num den p -> 1 <= k ->
  forall A B, scale10 num den (p - k) = (A, B) -> 0 < B <= A.
Proof.
  intros Hnum Hden Hlow Hk A B. unfold scale10, decpt_lower in *.
  destruct (0 <=? p - k) eqn:Et; intros [= <- <-].
  - apply Z.leb_le in Et. replace (1 <=? p) with true in Hlow by (symmetry; apply Z.leb_le; lia).
    assert (0 < 10 ^ (p - k)) by (apply Z.pow_pos_nonneg; lia).
    split; [lia|]. apply Z.le_trans with (den * 10 ^ (p - 1)); [|exact Hlow].
    apply Z.mul_le_mono_nonneg_l; [lia|]. apply Z.pow_le_mono_r; lia.
  - apply Z.leb_gt in Et. split; [exact Hden|].
    assert (Hpow : 0 < 10 ^ (- (p - k))) by (apply Z.pow_pos_nonneg; lia).
    destruct (1 <=? p) eqn:Ep.
    + apply Z.leb_le in Ep.
      assert (0 < 10 ^ (p - 1)) by (apply Z.pow_pos_nonneg; lia). nia.
    + apply Z.leb_gt in Ep. apply Z.le_trans with (num * 10 ^ (1 - p)); [exact Hlow|].
      apply Z.mul_le_mono_nonneg_l; [lia|]. apply Z.pow_le_mono_r; lia.
Qed.

Lemma shortest_at_positive (m e p k : Z) (force : bool) (d t : Z) :
  (forall A B, scale10 (dyadic_ratio m e).1 (dyadic_ratio m e).2 (p - k) = (A, B) -> 0 < B <= A) ->
  shortest_at m e p k force = Some (d, t) -> 0 < d.
Proof.
  intros Hscale. unfold shortest_at.
  destruct (dyadic_ratio m e) as [num den]. cbn [fst snd] in Hscale.
  destruct (scale10 num den (p - k)) as [A B] eqn:Es.
  specialize (Hscale A B eq_refl).
  assert (Hlo : 0 < A / B) by (apply Z.div_str_pos; lia).
  cbv zeta.
  repeat match goal with |- context [if ?b then _ else _] => destruct b end;
    intros [= <- <-]; lia.
Qed.

Lemma shortest_go_positive (m e p : Z) (fuel : nat) :
  0 < m ->
  (forall k A B, 1 <= k ->
     scale10 (dyadic_ratio m e).1 (dyadic_ratio m e).2 (p - k) = (A, B) -> 0 < B <= A) ->
  forall k d t, 1 <= k -> shortest_go fuel m e p k = (d, t) -> 0 < d.
Proof.
  intros Hm Hscale. induction fuel as [|fuel IH]; intros k d t Hk; cbn [shortest_go].
  - intros [= <- <-]. exact Hm.
  - destruct (shortest_at m e p k (17 <=? k)) as [[d' t']|] eqn:E.
    + intros [= <- <-]. eapply shortest_at_positive; [|exact E]. intros A B. apply Hscale. exact Hk.
    + apply IH. lia.
Qed.

Lemma dyadic_ratio_positive (m e : Z) :
  0 < m -> emin <= e ->
  0 < (dyadic_ratio m e).1 /\ 0 < (dyadic_ratio m e).2 <= 2 ^ 1074.
Proof.
  intros Hm He. unfold dyadic_ratio, emin in *. destruct (0 <=? e) eqn:E; cbn [fst snd].
  - apply Z.leb_le in E. assert (0 < 2 ^ e) by (apply Z.pow_pos_nonneg; lia).
    split; [nia|]. split; [lia|]. vm_compute. discriminate.
  - apply Z.leb_gt in E. split; [exact Hm|]. split; [apply Z.pow_pos_nonneg; lia|].
    apply Z.pow_le_mono_r; lia.
Qed.

(** the shortest digits start with a digit that is not zero *)
Lemma shortest_digits_shape (m e : Z) :
  0 < m -> emin <= e ->
  exists c ds decpt, shortest_digits m e = (c :: ds, decpt) /\ 49 <= c <= 57 /\ all_digits ds.
Proof.
  intros Hm He. unfold shortest_digits.
  destruct (dyadic_ratio_positive m e Hm He) as [Hnum Hden].
  destruct (dyadic_ratio m e) as [num den] eqn:Hr. cbn [fst snd] in Hnum, Hden.
  destruct (shortest_go 17 m e (decpt_of num den) 1) as [d t] eqn:Hgo.
  assert (Hd : 0 < d).
  { eapply (shortest_go_positive m e (decpt_of num den) 17 Hm); [|reflexivity|exact Hgo].
    intros k A B Hk. rewrite Hr. cbn [fst snd].
    apply scale10_lower; try lia. apply decpt_of_lower; lia. }
  destruct (Z_digits_positive d Hd) as (c & ds & -> & Hc & Hds).
  exists c, (strip_zeros ds), (t + Z.of_nat (length (c :: ds))).
  split; [reflexivity|]. split; [exact Hc|]. apply strip_zeros_digits. exact Hds.
Qed.

(** *** The layout of [repr] *)

Lemma all_digits_zeros (k : nat) : all_digits (replicate k 48).
Proof. apply Forall_replicate. reflexivity. Qed.

Lemma format_repr_literal (neg : bool) (c : Z) (ds : list Z) (decpt : Z) :
  49 <= c <= 57 -> all_digits ds ->
  exists n, float_literal n /\
            (if neg then [45] else []) ++ format_repr (c :: ds) decpt = render n.
Proof.
  intros Hc Hds. unfold format_repr.
  assert (Hcd : Str.is_digit c = true) by (apply is_digit_range; lia).
  destruct ((decpt <=? -4) || (16 <? decpt)).
  { destruct (exponent_text_shape (decpt - 1)) as (ep & -> & Hne & Hep).
    destruct ds as [|d2 ds'].
    - exists (mkNumber neg [c] [] (Some (decpt - 1 <? 0, ep))). split; [|reflexivity].
      split; [right; exists c, []; repeat split; try lia; constructor|].
      split; [constructor|]. split; assumption.
    - exists (mkNumber neg [c] (d2 :: ds') (Some (decpt - 1 <? 0, ep))). split.
      + split; [right; exists c, []; repeat split; try lia; constructor|].
        split; [exact Hds|]. split; assumption.
      + unfold render. cbn [nt_neg nt_int nt_frac nt_exp app]. rewrite <- ?app_assoc. reflexivity. }
  destruct (decpt <=? 0) eqn:E1.
  { exists (mkNumber neg [48] (replicate (Z.to_nat (- decpt)) 48 ++ c :: ds) None). split.
    - split; [left; reflexivity|]. split.
      + apply Forall_app. split; [apply all_digits_zeros|]. constructor; assumption.
      + cbn [nt_exp nt_frac]. intros E. apply app_eq_nil in E. destruct E. discriminate.
    - unfold render. cbn [nt_neg nt_int nt_frac nt_exp app]. rewrite app_nil_r.
      destruct (replicate (Z.to_nat (- decpt)) 48 ++ c :: ds) eqn:E; [|reflexivity].
      apply app_eq_nil in E. destruct E. discriminate. }
  apply Z.leb_gt in E1.
  destruct (decpt <? Z.of_nat (length (c :: ds))) eqn:E2.
  { apply Z.ltb_lt in E2. cbn [length] in E2.
    destruct (Z.to_nat decpt) as [|k] eqn:Ek; [lia|].
    cbn [take drop].
    destruct (drop k ds) as [|f fp] eqn:Ed.
    { apply (f_equal (@length Z)) in Ed. rewrite length_drop in Ed. simpl in Ed. lia. }
    exists (mkNumber neg (c :: take k ds) (f :: fp) None). split.
    - split; [right; exists c, (take k ds); repeat split; try lia; apply Forall_take; exact Hds|].
      split; [rewrite <- Ed; apply Forall_drop; exact Hds|]. discriminate.
    - unfold render. cbn [nt_neg nt_int nt_frac nt_exp]. rewrite app_nil_r. reflexivity. }
  exists (mkNumber neg ((c :: ds) ++ replicate (Z.to_nat (decpt - Z.of_nat (length (c :: ds)))) 48)
                   [48] None). split.
  - split; [right; eexists c, _; split; [reflexivity|]; split; [lia|];
            apply Forall_app; split; [exact Hds|apply all_digits_zeros]|].
    split; [repeat constructor|]. discriminate.
  - unfold render. cbn [nt_neg nt_int nt_frac nt_exp]. rewrite app_nil_r, <- app_assoc. reflexivity.
Qed.

(** the decoder reads the text of a float as a float *)
Lemma float_repr_literal (neg : bool) (m e : Z) :
  0 <= m -> emin <= e ->
  exists n, float_literal n /\ float_repr (Finite neg m e) = render n.
Proof.
  intros Hm He. unfold float_repr. destruct (m =? 0) eqn:E.
  - exists (mkNumber neg [48] [48] None). split; [|reflexivity].
    split; [left; reflexivity|]. split; [repeat constructor|]. discriminate.
  - apply Z.eqb_neq in E.
    destruct (shortest_digits_shape m e) as (c & ds & decpt & -> & Hc & Hds); [lia|exact He|].
    apply format_repr_literal; assumption.
Qed.

Lemma round_ratio_range (num den : Z) :
  0 <= num -> 0 < den ->
  0 <= (round_ratio num den).1 /\ emin <= (round_ratio num den).2.
Proof.
  intros Hnum Hden. unfold round_ratio.
  destruct (num =? 0); [cbn [fst snd]; unfold emin; lia|]. cbv zeta.
  set (s := 55 - (Z.log2 num - Z.log2 den)).
  set (N := if 0 <=? s then num * 2 ^ s else num).
  set (D := if 0 <=? s then den else den * 2 ^ (- s)).
  set (d := Z.max (bits (N / D) - 53) (s + emin)).
  assert (HN : 0 <= N).
  { subst N. destruct (0 <=? s) eqn:Es; [|exact Hnum]. apply Z.leb_le in Es.
    apply Z.mul_nonneg_nonneg; [exact Hnum|]. apply Z.pow_nonneg. lia. }
  assert (HD : 0 < D).
  { subst D. destruct (0 <=? s) eqn:Es; [exact Hden|]. apply Z.leb_gt in Es.
    apply Z.mul_pos_pos; [exact Hden|]. apply Z.pow_pos_nonneg; lia. }
  assert (HQ : 0 <= N / D) by (apply Z.div_pos; assumption).
  assert (Hm0 : 0 <= N / D / 2 ^ d).
  { destruct (Z.le_gt_cases 0 d) as [Hd|Hd].
    - apply Z.div_pos; [exact HQ|]. apply Z.pow_pos_nonneg; lia.
    - rewrite (Z.pow_neg_r 2 d) by exact Hd. rewrite Z.div_0_r. lia. }
  assert (Hd : s + emin <= d) by (subst d; lia).
  match goal with |- context [if ?b then N / D / 2 ^ d + 1 else N / D / 2 ^ d] =>
    destruct b end;
  match goal with |- context [if ?b then _ else _] => destruct b end;
  cbn [fst snd]; lia.
Qed.

Lemma int_truediv_literal (a b : Z) (x : pyfloat) :
  int_truediv a b = inr x -> exists n, float_literal n /\ float_repr x = render n.
Proof.
  unfold int_truediv. destruct (b =? 0) eqn:Eb; [discriminate|]. apply Z.eqb_neq in Eb.
  pose proof (round_ratio_range (Z.abs a) (Z.abs b)) as Hr.
  destruct (round_ratio (Z.abs a) (Z.abs b)) as [m e]. cbn [fst snd] in Hr.
  destruct (emax <? e); [discriminate|]. intros [= <-].
  apply float_repr_literal; apply Hr; lia.
Qed.

(** ** The config record as a text *)

Lemma dumps_config_record (fasta : Path) (url : list Z) (neg : bool) (m e : Z) :
  dumps 2 (config_record fasta url (Finite neg m e))
  = config_layout (path_str fasta) url (float_repr (Finite neg m e)).
Proof.
  unfold dumps, config_record, config_layout.
  cbn [iterencode map Str.join newline_indent replicate Nat.mul Nat.add floatstr].
  rewrite <- !app_assoc. reflexivity.
Qed.

Lemma skip_ws_stop (c : Z) (r : list Z) : is_ws c = false -> skip_ws (c :: r) = c :: r.
Proof. intros H. cbn [skip_ws]. rewrite H. reflexivity. Qed.

Lemma encoded_quote (s rest : list Z) :
  encode_basestring_ascii s ++ rest = 34 :: flat_map escape_char s ++ 34 :: rest.
Proof. unfold encode_basestring_ascii. cbn [app]. rewrite <- app_assoc. reflexivity. Qed.

Lemma scan_once_string (fuel : nat) (s rest : list Z) :
  Forall code_point s ->
  scan_once (S fuel) (encode_basestring_ascii s ++ rest) = Some (JStr (join_surrogates s), rest).
Proof.
  intros Hs. rewrite encoded_quote. cbn [scan_once]. change (34 =? 34) with true. cbv iota.
  rewrite scanstring_encoded by exact Hs. reflexivity.
Qed.

Lemma render_head (n : number_text) :
  float_literal n -> exists c tl, render n = c :: tl /\ (c = 45 \/ 48 <= c <= 57).
Proof.
  destruct n as [neg ip fp ex]. intros (Hip & _ & _). unfold render. cbn [nt_neg nt_int nt_frac nt_exp] in *.
  destruct neg; [eexists _, _; split; [reflexivity|left; reflexivity]|].
  destruct Hip as [-> | (c & ds & -> & Hc & _)];
    (eexists _, _; split; [reflexivity|right; lia]).
Qed.

Lemma scan_once_number (fuel : nat) (n : number_text) (rest : list Z) :
  float_literal n -> stops rest ->
  scan_once (S fuel) (render n ++ rest) = Some (JFloat (number_value n), rest).
Proof.
  intros Hn Hrest. pose proof (scan_number_render n rest Hn Hrest) as Hscan.
  destruct (render_head n Hn) as (c & tl & Hr & Hc). rewrite Hr in *.
  cbn [app] in *. cbn [scan_once].
  replace (c =? 34) with false by (symmetry; apply Z.eqb_neq; lia).
  replace (c =? 123) with false by (symmetry; apply Z.eqb_neq; lia).
  replace (c =? 91) with false by (symmetry; apply Z.eqb_neq; lia).
  change (u "null") with [110; 117; 108; 108].
  change (u "true") with [116; 114; 117; 101].
  change (u "false") with [102; 97; 108; 115; 101].
  cbn [Str.starts_with].
  replace (110 =? c) with false by (symmetry; apply Z.eqb_neq; lia).
  replace (116 =? c) with false by (symmetry; apply Z.eqb_neq; lia).
  replace (102 =? c) with false by (symmetry; apply Z.eqb_neq; lia).
  cbn [andb]. rewrite Hscan. reflexivity.
Qed.

(** one member of an object that is followed by another *)
Lemma scan_members_next (fuel : nat) (key value rest : list Z) (v : json)
    (acc : list (list Z * json)) :
  Forall code_point key ->
  scan_once fuel (value ++ 44 :: 10 :: 32 :: 32 :: 34 :: rest)
    = Some (v, 44 :: 10 :: 32 :: 32 :: 34 :: rest) ->
  scan_members (S fuel)
    (flat_map escape_char key ++ 34 :: 58 :: 32 :: value ++ 44 :: 10 :: 32 :: 32 :: 34 :: rest) acc
  = scan_members fuel rest (dict_set (join_surrogates key) v acc).
Proof.
  intros Hkey Hval. cbn [scan_members]. rewrite scanstring_encoded by exact Hkey.
  rewrite skip_ws_stop by reflexivity. change (58 =? 58) with true. cbv iota.
  change (skip_ws (32 :: ?r)) with (skip_ws r).
  assert (Hws : skip_ws (value ++ 44 :: 10 :: 32 :: 32 :: 34 :: rest)
                = value ++ 44 :: 10 :: 32 :: 32 :: 34 :: rest).
  { destruct fuel; [discriminate|]. destruct value as [|c value]; [reflexivity|].
    cbn [app] in *. destruct (is_ws c) eqn:Ews; [|apply skip_ws_stop; exact Ews].
    exfalso. unfold is_ws in Ews. cbn [scan_once] in Hval.
    repeat (apply orb_true_iff in Ews; destruct Ews as [Ews|Ews]);
      apply Z.eqb_eq in Ews; subst c; vm_compute in Hval; discriminate. }
  rewrite Hws, Hval. rewrite skip_ws_stop by reflexivity.
  change (44 =? 125) with false. change (44 =? 44) with true. cbv iota.
  change (skip_ws (10 :: 32 :: 32 :: 34 :: rest)) with (34 :: rest).
  change (34 =? 34) with true. cbv iota. reflexivity.
Qed.

(** the last member of an object *)
Lemma scan_members_last (fuel : nat) (key value rest : list Z) (v : json)
    (acc : list (list Z * json)) :
  Forall code_point key ->
  scan_once fuel (value ++ 10 :: 125 :: rest) = Some (v, 10 :: 125 :: rest) ->
  scan_members (S fuel) (flat_map escape_char key ++ 34 :: 58 :: 32 :: value ++ 10 :: 125 :: rest) acc
  = Some (JObj (dict_set (join_surrogates key) v acc), rest).
Proof.
  intros Hkey Hval. cbn [scan_members]. rewrite scanstring_encoded by exact Hkey.
  rewrite skip_ws_stop by reflexivity. change (58 =? 58) with true. cbv iota.
  change (skip_ws (32 :: ?r)) with (skip_ws r).
  assert (Hws : skip_ws (value ++ 10 :: 125 :: rest) = value ++ 10 :: 125 :: rest).
  { destruct fuel; [discriminate|]. destruct value as [|c value].
    - exfalso. cbn [app] in Hval. vm_compute in Hval. discriminate.
    - cbn [app] in *. destruct (is_ws c) eqn:Ews; [|apply skip_ws_stop; exact Ews].
      exfalso. unfold is_ws in Ews. cbn [scan_once] in Hval.
      repeat (apply orb_true_iff in Ews; destruct Ews as [Ews|Ews]);
        apply Z.eqb_eq in Ews; subst c; vm_compute in Hval; discriminate. }
  rewrite Hws, Hval.
  change (skip_ws (10 :: 125 :: rest)) with (skip_ws (125 :: rest)).
  rewrite skip_ws_stop by reflexivity.
  change (125 =? 125) with true. cbv iota. reflexivity.
Qed.

Lemma key_code_points (s : string) :
  forallb (fun c => (0 <=? c) && (c <? 1114112)) (u s) = true -> Forall code_point (u s).
Proof.
  intros H. apply Forall_forall. intros c Hc.
  rewrite forallb_forall in H. specialize (H c). unfold code_point.
  assert (Hin : In c (u s)) by (apply list_elem_of_In; exact Hc).
  apply H in Hin. apply andb_true_iff in Hin. destruct Hin as [H1 H2].
  apply Z.leb_le in H1. apply Z.ltb_lt in H2. lia.
Qed.

(** the decoder reads the layout back as an object of three members *)
Lemma loads_config_layout (path url : list Z) (n : number_text) :
  Forall code_point path -> Forall code_point url -> float_literal n ->
  loads (config_layout path url (render n))
  = Some (JObj [(u "hla_fasta_path", JStr (join_surrogates path));
                (u "download_url", JStr (join_surrogates url));
                (u "file_size_mb", JFloat (number_value n))]).
Proof.
  intros Hpath Hurl Hn.
  assert (Hk1 : Forall code_point (u "hla_fasta_path")) by (apply key_code_points; reflexivity).
  assert (Hk2 : Forall code_point (u "download_url")) by (apply key_code_points; reflexivity).
  assert (Hk3 : Forall code_point (u "file_size_mb")) by (apply key_code_points; reflexivity).
  unfold loads, config_layout.
  set (m3 := flat_map escape_char (u "file_size_mb") ++ 34 :: 58 :: 32 :: render n ++ 10 :: 125 :: []).
  set (m2 := flat_map escape_char (u "download_url") ++ 34 :: 58 :: 32
             :: encode_basestring_ascii url ++ 44 :: 10 :: 32 :: 32 :: 34 :: m3).
  set (m1 := flat_map escape_char (u "hla_fasta_path") ++ 34 :: 58 :: 32
             :: encode_basestring_ascii path ++ 44 :: 10 :: 32 :: 32 :: 34 :: m2).
  match goal with |- context [Str.starts_with [65279] ?t] =>
    assert (Htext : t = 123 :: 10 :: 32 :: 32 :: 34 :: m1) end.
  { subst m1 m2 m3. rewrite !encoded_quote. reflexivity. }
  rewrite Htext. clear Htext.
  cbn [Str.starts_with]. change (65279 =? 123) with false. cbn [andb].
  rewrite skip_ws_stop by reflexivity.
  assert (Hfuel : exists f, length (123 :: 10 :: 32 :: 32 :: 34 :: m1) = S (S (S (S f)))).
  { cbn [length]. eexists. reflexivity. }
  destruct Hfuel as [f ->].
  cbn [scan_once]. change (123 =? 34) with false. change (123 =? 123) with true. cbv iota.
  change (skip_ws (10 :: 32 :: 32 :: 34 :: m1)) with (34 :: m1).
  change (34 =? 125) with false. change (34 =? 34) with true. cbv iota.
  subst m1. rewrite (scan_members_next _ _ _ _ (JStr (join_surrogates path)));
    [|exact Hk1|apply scan_once_string; exact Hpath].
  subst m2. rewrite (scan_members_next _ _ _ _ (JStr (join_surrogates url)));
    [|exact Hk2|apply scan_once_string; exact Hurl].
  subst m3. rewrite (scan_members_last _ _ _ _ (JFloat (number_value n)));
    [|exact Hk3|apply scan_once_number; [exact Hn|repeat split; discriminate]].
  reflexivity.
Qed.

(** ** The config text on disk *)

Lemma utf8_encode_cons (c : Z) (s : list Z) :
  Codec.utf8_encode (c :: s)
  = match Codec.utf8_encode_char c, Codec.utf8_encode s with
    | Some bs, Some bs' => Some (bs ++ bs')
    | _, _ => None
    end.
Proof. reflexivity. Qed.

Lemma utf8_decode_cons (c : Z) (s : list Z) :
  0 <= c < 128 -> Codec.utf8_decode (c :: s) = cons c <$> Codec.utf8_decode s.
Proof.
  intros H. unfold Codec.utf8_decode at 1. fold Codec.utf8_decode.
  replace ((0 <=? c) && (c <? 128)) with true
    by (symmetry; apply andb_true_iff; split; [apply Z.leb_le|apply Z.ltb_lt]; lia).
  reflexivity.
Qed.

Lemma utf8_encode_seven_bit (s : list Z) :
  Forall (fun c => 0 <= c < 128) s -> Codec.utf8_encode s = Some s.
Proof.
  induction 1 as [|c s Hc Hs IH]; [reflexivity|].
  rewrite utf8_encode_cons. unfold Codec.utf8_encode_char.
  replace ((0 <=? c) && (c <? 128)) with true
    by (symmetry; apply andb_true_iff; split; [apply Z.leb_le|apply Z.ltb_lt]; lia).
  rewrite IH. reflexivity.
Qed.

Lemma utf8_decode_seven_bit (s : list Z) :
  Forall (fun c => 0 <= c < 128) s -> Codec.utf8_decode s = Some s.
Proof.
  induction 1 as [|c s Hc Hs IH]; [reflexivity|].
  rewrite utf8_decode_cons by exact Hc. rewrite IH. reflexivity.
Qed.

Lemma translate_newlines_seven_bit (f : flavour) (s : list Z) :
  Forall plain_char s -> Forall (fun c => 0 <= c < 128) (Codec.translate_newlines f s).
Proof.
  induction 1 as [|c s Hc Hs IH]; [constructor|].
  unfold Codec.translate_newlines. cbn [flat_map]. apply Forall_app. split; [|exact IH].
  destruct (c =? 10).
  - destruct f; repeat constructor; lia.
  - repeat constructor; apply Hc.
Qed.

Lemma universal_newlines_cons (c : Z) (rest : list Z) :
  c <> 13 -> Codec.universal_newlines (c :: rest) = c :: Codec.universal_newlines rest.
Proof.
  intros H.
  change (Codec.universal_newlines (c :: rest))
    with (if c =? 13 then
            match rest with
            | c2 :: rest2 => if c2 =? 10 then 10 :: Codec.universal_newlines rest2
                             else 10 :: Codec.universal_newlines rest
            | [] => [10]
            end
          else c :: Codec.universal_newlines rest).
  rewrite (proj2 (Z.eqb_neq c 13)) by exact H. reflexivity.
Qed.

Lemma universal_newlines_crlf (rest : list Z) :
  Codec.universal_newlines (13 :: 10 :: rest) = 10 :: Codec.universal_newlines rest.
Proof. reflexivity. Qed.

Lemma universal_newlines_translate (f : flavour) (s : list Z) :
  Forall plain_char s ->
  Codec.universal_newlines (Codec.translate_newlines f s) = s.
Proof.
  induction 1 as [|c s Hc Hs IH]; [reflexivity|].
  unfold Codec.translate_newlines in *. cbn [flat_map]. destruct Hc as [Hc Hcr].
  destruct (c =? 10) eqn:E.
  - apply Z.eqb_eq in E. subst c. destruct f; cbn [Codec.linesep app] in IH |- *.
    + rewrite universal_newlines_cons by lia. rewrite IH. reflexivity.
    + rewrite universal_newlines_crlf. rewrite IH. reflexivity.
  - cbn [app]. rewrite universal_newlines_cons by exact Hcr. rewrite IH. reflexivity.
Qed.

(** a text of plain characters is stored and read back unchanged *)
Lemma text_file_round_trip (f : flavour) (s data : list Z) :
  Forall plain_char s ->
  Codec.utf8_encode (Codec.translate_newlines f s) = Some data ->
  Codec.universal_newlines <$> Codec.utf8_decode data = Some s.
Proof.
  intros Hs Henc.
  pose proof (translate_newlines_seven_bit f s Hs) as H7.
  rewrite utf8_encode_seven_bit in Henc by exact H7. inversion Henc; subst data.
  rewrite utf8_decode_seven_bit by exact H7. cbn [fmap option_fmap option_map].
  rewrite universal_newlines_translate by exact Hs. reflexivity.
Qed.

(** *** The characters of the config text *)

Lemma printable_plain (s : list Z) : Forall printable s -> Forall plain_char s.
Proof. intros H. eapply Forall_impl; [exact H|]. unfold printable, plain_char. intros c. lia. Qed.

Lemma unescape_printable (esc c : Z) : unescape esc = Some c -> printable esc.
Proof.
  unfold unescape, printable.
  destruct ((esc =? 34) || (esc =? 92) || (esc =? 47)) eqn:E.
  { intros _. repeat (apply orb_true_iff in E; destruct E as [E|E]); apply Z.eqb_eq in E; lia. }
  repeat match goal with |- context [esc =? ?k] =>
    let E := fresh "E" in destruct (esc =? k) eqn:E;
      [apply Z.eqb_eq in E; intros _; lia|] end.
  discriminate.
Qed.

Lemma hex_value_printable (a n : Z) : hex_value a = Some n -> printable a.
Proof.
  unfold hex_value, printable.
  repeat match goal with |- context [if ?b then _ else _] =>
    let E := fresh "E" in destruct b eqn:E;
      [apply andb_true_iff in E; destruct E as [E1 E2];
       apply Z.leb_le in E1, E2; intros _; lia|] end.
  discriminate.
Qed.

Lemma hex4_value_printable (a b c d n : Z) :
  hex4_value a b c d = Some n -> Forall printable [a; b; c; d].
Proof.
  unfold hex4_value.
  destruct (hex_value a) eqn:Ea; [|discriminate].
  destruct (hex_value b) eqn:Eb; [|discriminate].
  destruct (hex_value c) eqn:Ec; [|discriminate].
  destruct (hex_value d) eqn:Ed; [|discriminate].
  intros _. repeat constructor; eapply hex_value_printable; eauto.
Qed.

Lemma escape_char_printable (c : Z) : code_point c -> Forall printable (escape_char c).
Proof.
  intros Hc.
  destruct (escape_char_shape c Hc)
    as [esc He1 He2 Hh Hl | Ha Hb Hc' Hh Hl | a b c' d Hhex
        | a b c' d a2 b2 c2 d2 hi lo Hhex1 Hhi Hhi' Hhex2 Hlo Hval Hh Hl].
  - constructor; [unfold printable; lia|]. constructor; [|constructor].
    eapply unescape_printable; eauto.
  - repeat constructor; lia.
  - constructor; [unfold printable; lia|]. constructor; [unfold printable; lia|].
    eapply hex4_value_printable; eauto.
  - constructor; [unfold printable; lia|]. constructor; [unfold printable; lia|].
    apply (Forall_app _ [a; b; c'; d]). split; [eapply hex4_value_printable; eauto|].
    constructor; [unfold printable; lia|]. constructor; [unfold printable; lia|].
    eapply hex4_value_printable; eauto.
Qed.

Lemma encoded_printable (s : list Z) :
  Forall code_point s -> Forall printable (encode_basestring_ascii s).
Proof.
  intros Hs. unfold encode_basestring_ascii. constructor; [unfold printable; lia|].
  apply Forall_app. split; [|repeat constructor; unfold printable; lia].
  induction Hs as [|c s Hc Hs IH]; [constructor|].
  cbn [flat_map]. apply Forall_app. split; [apply escape_char_printable; exact Hc|exact IH].
Qed.

Lemma digits_printable (ds : list Z) : all_digits ds -> Forall printable ds.
Proof.
  intros H. eapply Forall_impl; [exact H|]. intros c Hc. apply is_digit_range in Hc.
  unfold printable. lia.
Qed.

Lemma render_printable (n : number_text) : float_literal n -> Forall printable (render n).
Proof.
  destruct n as [neg ip fp ex]. unfold float_literal, render.
  cbn [nt_neg nt_int nt_frac nt_exp]. intros (Hip & Hfp & Hex).
  apply Forall_app. split; [destruct neg; repeat constructor; unfold printable; lia|].
  apply Forall_app. split.
  { destruct Hip as [-> | (c & ds & -> & Hc & Hds)].
    - repeat constructor; unfold printable; lia.
    - constructor; [unfold printable; lia|apply digits_printable; exact Hds]. }
  apply Forall_app. split.
  { destruct fp as [|f fp]; [constructor|].
    constructor; [unfold printable; lia|apply digits_printable; exact Hfp]. }
  destruct ex as [[eneg ep]|]; [|constructor]. destruct Hex as [_ Hep].
  constructor; [unfold printable; lia|].
  constructor; [destruct eneg; unfold printable; lia|apply digits_printable; exact Hep].
Qed.

Lemma config_layout_plain (path url : list Z) (n : number_text) :
  Forall code_point path -> Forall code_point url -> float_literal n ->
  Forall plain_char (config_layout path url (render n)).
Proof.
  intros Hpath Hurl Hn.
  assert (Hk1 : Forall code_point (u "hla_fasta_path")) by (apply key_code_points; reflexivity).
  assert (Hk2 : Forall code_point (u "download_url")) by (apply key_code_points; reflexivity).
  assert (Hk3 : Forall code_point (u "file_size_mb")) by (apply key_code_points; reflexivity).
  assert (Hsep : Forall plain_char [44; 10; 32; 32]) by (repeat constructor; lia).
  assert (Hcolon : Forall plain_char [58; 32]) by (repeat constructor; lia).
  unfold config_layout.
  repeat match goal with |- Forall _ (_ ++ _) => apply Forall_app; split end;
    try assumption;
    try (apply printable_plain; first [apply encoded_printable | apply render_printable];
         assumption);
    repeat constructor; lia.
Qed.

(** ** Paths: [Path(str(p)) == p] *)

Lemma split_no_sep (c : Z) (x : list Z) :
  Forall (fun a => a <> c) x -> Str.split c x = [x].
Proof.
  induction 1 as [|a x Ha Hx IH]; [reflexivity|].
  cbn [Str.split]. rewrite (proj2 (Z.eqb_neq a c)) by exact Ha. rewrite IH. reflexivity.
Qed.

Lemma split_app_sep (c : Z) (x rest : list Z) :
  Forall (fun a => a <> c) x -> Str.split c (x ++ c :: rest) = x :: Str.split c rest.
Proof.
  induction 1 as [|a x Ha Hx IH].
  - cbn [app Str.split]. rewrite Z.eqb_refl. reflexivity.
  - cbn [app Str.split]. rewrite (proj2 (Z.eqb_neq a c)) by exact Ha. rewrite IH. reflexivity.
Qed.

Lemma split_join (c : Z) (parts : list (list Z)) :
  parts <> [] -> Forall (Forall (fun a => a <> c)) parts ->
  Str.split c (Str.join [c] parts) = parts.
Proof.
  intros Hne H. induction H as [|p parts Hp Hparts IH]; [congruence|].
  destruct parts as [|q parts].
  - cbn [Str.join]. apply split_no_sep. exact Hp.
  - change (Str.join [c] (p :: q :: parts)) with (p ++ c :: Str.join [c] (q :: parts)).
    rewrite split_app_sep by exact Hp. rewrite IH by discriminate. reflexivity.
Qed.

Lemma is_part_wf (f : flavour) (x : list Z) : wf_part f x -> is_part x = true.
Proof.
  intros (H1 & H2 & _). unfold is_part.
  rewrite (proj2 (eqb_false x [])) by exact H1.
  rewrite (proj2 (eqb_false x [46])) by exact H2. reflexivity.
Qed.

Lemma filter_parts (f : flavour) (parts : list (list Z)) :
  Forall (wf_part f) parts -> filter (fun x => is_part x = true) parts = parts.
Proof.
  induction 1 as [|p parts Hp Hparts IH]; [reflexivity|].
  rewrite filter_cons_True by (eapply is_part_wf; exact Hp). rewrite IH. reflexivity.
Qed.

(** the tail is read back from its text *)
Lemma parse_tail (f : flavour) (parts : list (list Z)) :
  Forall (wf_part f) parts ->
  filter (fun x => is_part x = true) (Str.split (sep f) (Str.join [sep f] parts)) = parts.
Proof.
  intros H. destruct parts as [|p parts]; [reflexivity|].
  rewrite split_join; [eapply filter_parts; exact H|discriminate|].
  eapply Forall_impl; [exact H|]. intros x (_ & _ & Hx).
  eapply Forall_impl; [exact Hx|]. intros a [Ha _]. exact Ha.
Qed.

(** the characters of the text of a tail *)
Lemma join_chars (f : flavour) (parts : list (list Z)) :
  Forall (wf_part f) parts ->
  Forall (fun c => c = sep f \/ name_char f c) (Str.join [sep f] parts).
Proof.
  induction 1 as [|p parts Hp Hparts IH]; [constructor|].
  assert (Hpc : Forall (fun c => c = sep f \/ name_char f c) p).
  { destruct Hp as (_ & _ & Hp). eapply Forall_impl; [exact Hp|]. auto. }
  destruct parts as [|q parts]; [exact Hpc|].
  change (Str.join [sep f] (p :: q :: parts)) with (p ++ sep f :: Str.join [sep f] (q :: parts)).
  apply Forall_app. split; [exact Hpc|]. constructor; [left; reflexivity|exact IH].
Qed.

Lemma join_head (f : flavour) (parts : list (list Z)) :
  Forall (wf_part f) parts ->
  match Str.join [sep f] parts with
  | c :: _ => name_char f c
  | [] => parts = []
  end.
Proof.
  intros H. destruct H as [|p parts Hp Hparts]; [reflexivity|].
  destruct Hp as (Hne & _ & Hp). destruct p as [|c p]; [congruence|].
  apply Forall_cons in Hp. destruct Hp as [Hc _].
  destruct parts; exact Hc.
Qed.

Lemma replace_absent (a b : Z) (s : list Z) :
  Forall (fun c => c <> a) s -> Str.replace a b s = s.
Proof.
  induction 1 as [|c s Hc Hs IH]; [reflexivity|].
  unfold Str.replace in *. cbn [map]. rewrite (proj2 (Z.eqb_neq c a)) by exact Hc.
  rewrite IH. reflexivity.
Qed.

(** *** [splitroot] on the texts that [str] produces *)

Lemma splitroot_posix_rel (s : list Z) :
  match s with c :: _ => c <> 47 | [] => True end ->
  splitroot Posix s = ([], [], s).
Proof.
  intros H. destruct s as [|c s]; [reflexivity|]. cbn [splitroot].
  rewrite (proj2 (Z.eqb_neq c 47)) by exact H. reflexivity.
Qed.

Lemma splitroot_posix_root (s : list Z) :
  match s with c :: _ => c <> 47 | [] => True end ->
  splitroot Posix (47 :: s) = ([], [47], s).
Proof.
  intros H. destruct s as [|c s]; [reflexivity|]. cbn [splitroot].
  change (47 =? 47) with true. cbv iota.
  rewrite (proj2 (Z.eqb_neq c 47)) by exact H. reflexivity.
Qed.

Lemma splitroot_posix_root2 (s : list Z) :
  match s with c :: _ => c <> 47 | [] => True end ->
  splitroot Posix (47 :: 47 :: s) = ([], [47; 47], s).
Proof.
  intros H. destruct s as [|c s]; [reflexivity|]. cbn [splitroot].
  change (47 =? 47) with true. cbv iota.
  rewrite (proj2 (Z.eqb_neq c 47)) by exact H. reflexivity.
Qed.

Lemma splitroot_windows_rel (s : list Z) :
  match s with c :: _ => c <> 92 | [] => True end ->
  match s with _ :: c :: _ => c <> 58 | _ => True end ->
  splitroot Windows s = ([], [], s).
Proof.
  intros H1 H2. destruct s as [|c s]; [reflexivity|]. cbn [splitroot Str.starts_with].
  replace (92 =? c) with false by (symmetry; apply Z.eqb_neq; lia). cbn [andb].
  destruct s as [|c2 s]; [reflexivity|]. cbn [take drop]. rewrite ?take_0, ?drop_0.
  rewrite (proj2 (eqb_false [c2] [58])) by congruence. reflexivity.
Qed.

Lemma splitroot_windows_root (s : list Z) :
  match s with c :: _ => c <> 92 | [] => True end ->
  splitroot Windows (92 :: s) = ([], [92], s).
Proof.
  intros H. cbn [splitroot Str.starts_with]. change (92 =? 92) with true. cbn [andb].
  destruct s as [|c s]; [reflexivity|].
  replace (92 =? c) with false by (symmetry; apply Z.eqb_neq; lia). reflexivity.
Qed.

Lemma splitroot_windows_drive (c : Z) (s : list Z) :
  c <> 92 -> match s with c2 :: _ => c2 <> 92 | [] => True end ->
  splitroot Windows (c :: 58 :: s) = ([c; 58], [], s).
Proof.
  intros Hc H. cbn [splitroot Str.starts_with].
  replace (92 =? c) with false by (symmetry; apply Z.eqb_neq; lia). cbn [andb take drop].
  rewrite ?take_0, ?drop_0.
  rewrite (proj2 (eqb_true [58] [58])) by reflexivity.
  destruct s as [|c2 s]; [reflexivity|]. cbn [take]. rewrite ?take_0.
  rewrite (proj2 (eqb_false [c2] [92])) by congruence. reflexivity.
Qed.

Lemma splitroot_windows_drive_root (c : Z) (s : list Z) :
  c <> 92 -> splitroot Windows (c :: 58 :: 92 :: s) = ([c; 58], [92], s).
Proof.
  intros Hc. cbn [splitroot Str.starts_with].
  replace (92 =? c) with false by (symmetry; apply Z.eqb_neq; lia). cbn [andb take drop].
  rewrite ?take_0, ?drop_0.
  rewrite (proj2 (eqb_true [58] [58])) by reflexivity.
  rewrite (proj2 (eqb_true [92] [92])) by reflexivity. reflexivity.
Qed.

(** [Path(s)] when [splitroot] finds no UNC drive *)
Lemma parse_path_parts (f : flavour) (s drv root rel : list Z) :
  s <> [] -> (f = Windows -> Forall (fun c => c <> 47) s) ->
  splitroot f s = (drv, root, rel) ->
  Str.starts_with [sep f] drv = false ->
  parse_path f s
  = mkPath f drv root (filter (fun x => is_part x = true) (Str.split (sep f) rel)).
Proof.
  intros Hne H47 Hsplit Hdrv. unfold parse_path. destruct s as [|c s]; [congruence|].
  assert (Hrep : match f with Windows => Str.replace 47 92 (c :: s) | Posix => c :: s end = c :: s).
  { destruct f; [reflexivity|]. apply replace_absent. auto. }
  rewrite Hrep, Hsplit, Hdrv. rewrite andb_false_r. reflexivity.
Qed.

Lemma join_head_not_sep (f : flavour) (parts : list (list Z)) :
  Forall (wf_part f) parts ->
  match Str.join [sep f] parts with c :: _ => c <> sep f | [] => True end.
Proof.
  intros H. pose proof (join_head f parts H) as Hh.
  destruct (Str.join [sep f] parts); [exact I|]. apply Hh.
Qed.

Lemma join_no_slash (parts : list (list Z)) :
  Forall (wf_part Windows) parts ->
  Forall (fun c => c <> 47) (Str.join [sep Windows] parts).
Proof.
  intros H. eapply Forall_impl; [apply join_chars; exact H|].
  intros c [-> | [_ Hc]]; [discriminate|]. apply Hc. reflexivity.
Qed.

Lemma join_second_not_colon (parts : list (list Z)) :
  Forall (wf_part Windows) parts ->
  match Str.join [sep Windows] parts with _ :: c :: _ => c <> 58 | _ => True end.
Proof.
  intros H. pose proof (join_chars Windows parts H) as Hc.
  destruct (Str.join [sep Windows] parts) as [|c1 [|c2 s]]; try exact I.
  apply Forall_cons in Hc. destruct Hc as [_ Hc].
  apply Forall_cons in Hc. destruct Hc as [Hc _].
  destruct Hc as [-> | [_ Hc]]; [discriminate|]. apply Hc. reflexivity.
Qed.

Lemma format_relative (f : flavour) (tail : list (list Z)) :
  Forall (wf_part f) tail ->
  format_parsed_parts f [] [] tail = Str.join [sep f] tail.
Proof.
  intros H. unfold format_parsed_parts.
  change (negb (Str.eqb [] []) || negb (Str.eqb [] [])) with false. cbv iota.
  destruct tail as [|t0 tail]; [reflexivity|].
  assert (Hroot : (splitroot f t0).1.1 = []).
  { apply Forall_cons in H. destruct H as [(Hne & _ & Ht0) _].
    destruct f.
    - rewrite splitroot_posix_rel; [reflexivity|].
      destruct t0 as [|c t0]; [exact I|]. apply Forall_cons in Ht0.
      destruct Ht0 as [[Hc _] _]. exact Hc.
    - rewrite splitroot_windows_rel; [reflexivity| |].
      + destruct t0 as [|c t0]; [exact I|]. apply Forall_cons in Ht0.
        destruct Ht0 as [[Hc _] _]. exact Hc.
      + destruct t0 as [|c [|c2 t0]]; try exact I.
        apply Forall_cons in Ht0. destruct Ht0 as [_ Ht0].
        apply Forall_cons in Ht0. destruct Ht0 as [[_ Hc] _]. apply Hc. reflexivity. }
  rewrite Hroot. reflexivity.
Qed.

Lemma format_anchored (f : flavour) (drv root : list Z) (tail : list (list Z)) :
  drv <> [] \/ root <> [] ->
  format_parsed_parts f drv root tail = drv ++ root ++ Str.join [sep f] tail.
Proof.
  intros H. unfold format_parsed_parts.
  replace (negb (Str.eqb drv []) || negb (Str.eqb root [])) with true; [reflexivity|].
  symmetry. apply orb_true_iff.
  destruct H as [H|H]; [left|right]; apply negb_true_iff; apply eqb_false; exact H.
Qed.

(** a path is read back from its text *)
Lemma parse_path_str (p : Path) :
  wf_path p -> parse_path (p_flavour p) (path_str p) = p.
Proof.
  destruct p as [f drv root tail]. unfold wf_path, path_str.
  cbn [p_flavour p_drive p_root p_tail]. intros [Htail Hshape].
  pose proof (parse_tail f tail Htail) as Hparse.
  pose proof (join_head_not_sep f tail Htail) as Hhead.
  destruct f.
  - destruct Hshape as [-> [-> | [-> | ->]]].
    + rewrite format_relative by exact Htail.
      destruct (Str.join [sep Posix] tail) as [|c s] eqn:Ej.
      * pose proof (join_head Posix tail Htail) as Hj. rewrite Ej in Hj. subst tail. reflexivity.
      * rewrite (parse_path_parts Posix (c :: s) [] [] (c :: s));
          [rewrite Hparse; reflexivity|discriminate|discriminate| |reflexivity].
        apply splitroot_posix_rel. exact Hhead.
    + rewrite format_anchored by (right; discriminate). cbn [app].
      rewrite (parse_path_parts Posix _ [] [47] (Str.join [sep Posix] tail));
        [rewrite Hparse; reflexivity|discriminate|discriminate| |reflexivity].
      apply splitroot_posix_root. exact Hhead.
    + rewrite format_anchored by (right; discriminate). cbn [app].
      rewrite (parse_path_parts Posix _ [] [47; 47] (Str.join [sep Posix] tail));
        [rewrite Hparse; reflexivity|discriminate|discriminate| |reflexivity].
      apply splitroot_posix_root2. exact Hhead.
  - pose proof (join_no_slash tail Htail) as Hslash.
    pose proof (join_second_not_colon tail Htail) as Hcolon.
    destruct Hshape as [[-> | (c & -> & Hc1 & Hc2)] [-> | ->]].
    + rewrite format_relative by exact Htail.
      destruct (Str.join [sep Windows] tail) as [|c s] eqn:Ej.
      * pose proof (join_head Windows tail Htail) as Hj. rewrite Ej in Hj. subst tail. reflexivity.
      * rewrite (parse_path_parts Windows (c :: s) [] [] (c :: s));
          [rewrite Hparse; reflexivity|discriminate|intros _; exact Hslash| |reflexivity].
        apply splitroot_windows_rel; assumption.
    + rewrite format_anchored by (right; discriminate). cbn [app].
      rewrite (parse_path_parts Windows _ [] [92] (Str.join [sep Windows] tail));
        [rewrite Hparse; reflexivity|discriminate| | |reflexivity].
      * intros _. constructor; [discriminate|exact Hslash].
      * apply splitroot_windows_root. exact Hhead.
    + rewrite format_anchored by (left; discriminate). cbn [app].
      rewrite (parse_path_parts Windows _ [c; 58] [] (Str.join [sep Windows] tail));
        [rewrite Hparse; reflexivity|discriminate| | |].
      * intros _. constructor; [exact Hc2|]. constructor; [discriminate|exact Hslash].
      * apply splitroot_windows_drive; assumption.
      * cbn [Str.starts_with sep]. rewrite (proj2 (Z.eqb_neq 92 c)) by congruence. reflexivity.
    + rewrite format_anchored by (left; discriminate). cbn [app].
      rewrite (parse_path_parts Windows _ [c; 58] [92] (Str.join [sep Windows] tail));
        [rewrite Hparse; reflexivity|discriminate| | |].
      * intros _. constructor; [exact Hc2|]. constructor; [discriminate|].
        constructor; [discriminate|exact Hslash].
      * apply splitroot_windows_drive_root. exact Hc1.
      * cbn [Str.starts_with sep]. rewrite (proj2 (Z.eqb_neq 92 c)) by congruence. reflexivity.
Qed.

(** *** The paths of the script *)

Lemma wf_joinpath (p : Path) (name : list Z) :
  wf_path p -> wf_part (p_flavour p) name -> wf_path (p // name).
Proof.
  destruct p as [f drv root tail]. unfold wf_path, joinpath.
  cbn [p_flavour p_drive p_root p_tail]. intros [Htail Hshape] Hname.
  split; [|exact Hshape]. apply Forall_app. split; [exact Htail|]. constructor; [exact Hname|constructor].
Qed.

Lemma wf_part_literal (f : flavour) (s : string) :
  forallb (fun c => negb (c =? 47) && negb (c =? 92) && negb (c =? 58)) (u s) = true ->
  u s <> [] -> u s <> [46] -> wf_part f (u s).
Proof.
  intros H Hne Hdot. split; [exact Hne|]. split; [exact Hdot|].
  apply Forall_forall. intros c Hc. rewrite forallb_forall in H.
  assert (Hin : In c (u s)) by (apply list_elem_of_In; exact Hc).
  apply H in Hin. apply andb_true_iff in Hin. destruct Hin as [Hin H58].
  apply andb_true_iff in Hin. destruct Hin as [H47 H92].
  apply negb_true_iff in H47, H92, H58. apply Z.eqb_neq in H47, H92, H58.
  split; [destruct f; assumption|]. intros _. split; assumption.
Qed.

Lemma wf_cache_dir (w : World) : wf_path (home w) -> wf_path (cache_dir_of w).
Proof.
  intros H. unfold cache_dir_of. destruct (Str.eqb (sys_platform w) (u "win32")).
  - repeat apply wf_joinpath; try exact H;
      (apply wf_part_literal; [reflexivity|discriminate|discriminate]).
  - repeat apply wf_joinpath; try exact H;
      (apply wf_part_literal; [reflexivity|discriminate|discriminate]).
Qed.

Lemma wf_fasta (cache_dir : Path) :
  wf_path cache_dir -> wf_path (cache_dir // u "hla_prot.fasta").
Proof.
  intros H. apply wf_joinpath; [exact H|].
  apply wf_part_literal; [reflexivity|discriminate|discriminate].
Qed.

Lemma flavour_cache_dir (w : World) : p_flavour (cache_dir_of w) = p_flavour (home w).
Proof. unfold cache_dir_of. destruct (Str.eqb _ _); reflexivity. Qed.

(** ** A run that downloads and returns *)

Lemma download_success (cache_dir : Path) (url : list Z) (w : World) p w' :
  download_hla_fasta cache_dir url w = (Return p, w') ->
  requests_log w' <> requests_log w ->
  exists fs0 r chunks total x data free,
    mkdir cache_dir w = (Return tt, update w fs0 (disk_free w) (requests_log w) (stdout w)) /\
    only_new_dirs cache_dir (fs w) fs0 /\
    fs0 !! path_str (fasta_of cache_dir) = None /\
    network w url = inr r /\ is_error_status r = false /\
    header_total r = Some total /\
    iter_content r (1024 * 1024) = (chunks, None) /\
    int_truediv (len (concat chunks)) (1024 * 1024) = inr x /\
    Codec.utf8_encode (Codec.translate_newlines (os_flavour w)
                         (dumps 2 (config_record (fasta_of cache_dir) url x))) = Some data /\
    p = fasta_of cache_dir /\
    w' = update w (<[path_str (config_of cache_dir) := File data]>
                     (<[path_str (fasta_of cache_dir) := File (concat chunks)]> fs0))
                free (requests_log w ++ [the_request url])
                (stdout w ++ [MsgDownloading; MsgUrl url; MsgDestination (fasta_of cache_dir)]
                 ++ progress_report total chunks 0
                 ++ (if 0 <? total then [MsgNewline] else [])
                 ++ [MsgDownloadComplete x; MsgConfigSaved (config_of cache_dir)]).
Proof.
  intros H Hlog.
  destruct (download_without_request _ _ _ _ _ H Hlog) as (fs0 & Hmk & Hdirs & Habs).
  fold (fasta_of cache_dir) in Habs.
  rewrite (download_start _ _ _ _ Hmk Habs) in H. unfold try_except in H.
  fold (fasta_of cache_dir) (config_of cache_dir) in H.
  destruct (download_body _ _ _ _) as [[p'|e] w1] eqn:Hbody.
  - inversion H; subst. clear H.
    apply download_body_cases in Hbody; [|exact Habs|apply fasta_config_ne].
    destruct Hbody as (r & chunks & total & x & data & free & Hnet & Hstatus & Htotal & Hiter
                       & Hx & Hdata & -> & ->).
    exists fs0, r, chunks, total, x, data, free.
    repeat (split; [first [assumption|reflexivity]|]).
    unfold announce. rewrite !update_update. cbn [fs disk_free requests_log stdout update].
    rewrite <- !app_assoc. reflexivity.
  - unfold request_handler in H. destruct (is_RequestException e) eqn:Hreq.
    + destruct e; try discriminate.
      apply download_body_cases in Hbody; [|exact Habs|apply fasta_config_ne].
      destruct Hbody as (fs1 & free & out & -> & _ & Hfasta & _).
      match type of H with download_failed _ _ ?wx = _ =>
        destruct (download_failed_run (fasta_of cache_dir) (RequestException e) wx)
          as (free' & Hrun); [exact Hfasta|] end.
      rewrite Hrun in H. discriminate.
    + discriminate.
Qed.

Lemma int_truediv_shape (a b : Z) (x : pyfloat) :
  int_truediv a b = inr x -> exists neg m e, x = Finite neg m e.
Proof.
  unfold int_truediv. destruct (b =? 0); [discriminate|].
  destruct (round_ratio (Z.abs a) (Z.abs b)) as [m e].
  destruct (emax <? e); [discriminate|]. intros [= <-]. eauto.
Qed.

(** the config text of a run: the layout, stored and read back as it
    is, and the object the decoder makes of it *)
Lemma config_written (f : flavour) (fasta : Path) (url : list Z) (a b : Z) (x : pyfloat)
    (data : list Z) :
  Forall code_point (path_str fasta) -> Forall code_point url ->
  int_truediv a b = inr x ->
  Codec.utf8_encode (Codec.translate_newlines f (dumps 2 (config_record fasta url x)))
    = Some data ->
  exists n,
    float_literal n /\ float_repr x = render n /\
    Codec.universal_newlines <$> Codec.utf8_decode data
      = Some (config_layout (path_str fasta) url (float_repr x)) /\
    loads (config_layout (path_str fasta) url (float_repr x))
      = Some (JObj [(u "hla_fasta_path", JStr (join_surrogates (path_str fasta)));
                    (u "download_url", JStr (join_surrogates url));
                    (u "file_size_mb", JFloat (number_value n))]).
Proof.
  intros Hpath Hurl Hx Hdata.
  destruct (int_truediv_literal a b x Hx) as (n & Hn & Hrepr).
  destruct (int_truediv_shape a b x Hx) as (neg & m & e & ->).
  rewrite dumps_config_record in Hdata.
  exists n. split; [exact Hn|]. split; [exact Hrepr|]. rewrite Hrepr in *. split.
  - eapply text_file_round_trip; [|exact Hdata]. apply config_layout_plain; assumption.
  - apply loads_config_layout; assumption.
Qed.

(** X1: after a call of download_hla_fasta on the directory that
    get_cache_dir returns, if the call downloaded and returned the path
    p, then load_hla_path returns p and prints nothing; the home directory
    is a path of the platform's flavour and the text of p is written by
    json and read back unchanged (no surrogate pair spelled as two code
    points). *)
Theorem config_round_trip (cache_dir : Path) (url : list Z) (w : World) p w' :
  get_cache_dir w = (Return cache_dir, w) ->
  wf_path (home w) -> p_flavour (home w) = os_flavour w ->
  Forall code_point url ->
  download_hla_fasta cache_dir url w = (Return p, w') ->
  requests_log w' <> requests_log w ->
  json_text (path_str p) ->
  load_hla_path w' = (Return (Some p), w').
Proof.
  intros Hdir Hwf Hflavour Hurl Hrun Hlog [Hcp Hpair].
  rewrite get_cache_dir_run in Hdir. inversion Hdir as [Hcache]. clear Hdir. subst cache_dir.
  destruct (download_success _ _ _ _ _ Hrun Hlog)
    as (fs0 & r & chunks & total & x & data & free & _ & _ & _ & _ & _ & _ & _ & Hx & Hdata & -> & ->).
  destruct (config_written _ _ _ _ _ _ _ Hcp Hurl Hx Hdata) as (n & _ & _ & Htext & Hloads).
  rewrite (join_surrogates_id _ Hpair) in Hloads.
  rewrite load_hla_path_unfold.
  match goal with |- context [load_body _ ?wx] => set (w1 := wx) end.
  assert (Hcd : cache_dir_of w1 = cache_dir_of w) by reflexivity.
  assert (Hfs : fs w1 !! path_str (config_of (cache_dir_of w1)) = Some (File data)).
  { rewrite Hcd. subst w1. cbn [fs update]. apply lookup_insert_eq. }
  rewrite Hfs.
  assert (Hvalue : config_path_value w1 = Some (JStr (path_str (fasta_of (cache_dir_of w))))).
  { unfold config_path_value, config_text. rewrite Hfs, Htext, Hloads. reflexivity. }
  destruct (load_body_run w1) as (o & Hload & Ho). rewrite Hload.
  destruct o as [res|e].
  - destruct Ho as (s & Hs & ->). rewrite Hvalue in Hs. inversion Hs; subst s.
    replace (os_flavour w1) with (p_flavour (fasta_of (cache_dir_of w))).
    + rewrite parse_path_str; [reflexivity|]. apply wf_fasta. apply wf_cache_dir. exact Hwf.
    + change (os_flavour w1) with (os_flavour w). rewrite <- Hflavour.
      unfold fasta_of. cbn [joinpath p_flavour]. apply flavour_cache_dir.
  - destruct Ho as [_ Ho]. exfalso. eapply Ho. exact Hvalue.
Qed.

(** ** Progress lines *)

Lemma progress_report_silent (total : Z) (chunks : list (list Z)) :
  total <= 0 -> forall d, progress_report total chunks d = [].
Proof.
  intros Ht. induction chunks as [|ch rest IH]; intros d; [reflexivity|].
  destruct ch as [|c ch]; [apply IH|].
  rewrite progress_report_nonempty by discriminate.
  replace (0 <? total) with false by (symmetry; apply Z.ltb_ge; lia).
  apply IH.
Qed.

Lemma progress_line_is_progress total d m :
  progress_line total d = inr m -> is_progress m.
Proof.
  unfold progress_line.
  destruct (int_truediv d total); [discriminate|].
  destruct (float_of_int 100); [discriminate|].
  destruct (int_truediv d (1024 * 1024)); [discriminate|].
  destruct (int_truediv total (1024 * 1024)); [discriminate|].
  intros [= <-]. do 3 eexists. reflexivity.
Qed.

Lemma progress_report_lines (total : Z) (chunks : list (list Z)) :
  forall d, Forall is_progress (progress_report total chunks d).
Proof.
  induction chunks as [|ch rest IH]; intros d; [constructor|].
  destruct ch as [|c ch]; [apply IH|].
  rewrite progress_report_nonempty by discriminate.
  apply Forall_app. split; [|apply IH].
  destruct (0 <? total); [|constructor].
  destruct (progress_line total (d + len (c :: ch))) eqn:E; constructor; [|constructor].
  eapply progress_line_is_progress; eauto.
Qed.

(** a loop that completes has printed one line for each chunk it wrote,
    when the total is known, and none otherwise *)
Lemma write_chunks_count (fasta : Path) (total : Z) (chunks : list (list Z)) :
  forall d w c0 d' w',
    fs w !! path_str fasta = Some (File c0) ->
    write_chunks fasta total chunks d w = (Return d', w') ->
    length (progress_report total chunks d)
      = (if 0 <? total then count_nonempty chunks else O).
Proof.
  induction chunks as [|ch rest IH]; intros d w c0 d' w' Hf H.
  - destruct (0 <? total); reflexivity.
  - destruct (decide (ch = [])) as [->|Hne].
    + rewrite write_chunks_empty in H. eapply IH; eauto.
    + rewrite write_chunks_nonempty in H by exact Hne.
      rewrite progress_report_nonempty by exact Hne.
      rewrite run_bind in H. unfold file_write at 1 in H. rewrite Hf in H.
      destruct (len ch <=? disk_free w) eqn:Hfree; [|discriminate].
      rewrite run_bind in H.
      assert (Hstep : exists out,
                 (if 0 <? total then progress_block total (d + len ch) else mret tt)
                   (set_fs w (<[path_str fasta := File (c0 ++ ch)]> (fs w)) (disk_free w - len ch))
                 = (Return tt,
                    update w (<[path_str fasta := File (c0 ++ ch)]> (fs w)) (disk_free w - len ch)
                           (requests_log w) (stdout w ++ out)) /\
                 out = (if 0 <? total then
                          match progress_line total (d + len ch) with
                          | inr m => [m] | inl _ => [] end
                        else []) /\
                 length out = (if 0 <? total then 1%nat else 0%nat)).
      { destruct (0 <? total).
        - rewrite progress_block_run in H |- *.
          destruct (progress_line total (d + len ch)); [discriminate|].
          eexists. repeat split; reflexivity.
        - exists []. split; [|split; reflexivity]. unfold update. simpl.
          rewrite app_nil_r. reflexivity. }
      destruct Hstep as (out & Hstep & Hout & Hlen). rewrite Hstep in H. rewrite <- Hout.
      apply IH with (c0 := c0 ++ ch) in H; [|apply lookup_insert_eq].
      rewrite length_app, H, Hlen. destruct ch; [congruence|].
      destruct (0 <? total); reflexivity.
Qed.

Lemma download_body_count (fasta config : Path) (url : list Z) (w : World) p w1
    (r : Response) (total : Z) (chunks : list (list Z)) failure :
  fs w !! path_str fasta = None ->
  download_body fasta config url w = (Return p, w1) ->
  network w url = inr r -> header_total r = Some total ->
  iter_content r (1024 * 1024) = (chunks, failure) ->
  length (progress_report total chunks 0)
    = (if 0 <? total then count_nonempty chunks else O).
Proof.
  intros Habsent H Hnet Htotal Hiter. unfold download_body in H.
  rewrite run_bind, requests_get_run in H. rewrite Hnet in H.
  rewrite run_bind, raise_for_status_run in H.
  destruct (is_error_status r); [discriminate|].
  rewrite run_bind, int_header_run in H. rewrite Htotal in H.
  rewrite run_bind, open_write_new in H by exact Habsent.
  destruct (check_parent fasta _); [discriminate|].
  rewrite Hiter in H. rewrite run_bind in H.
  destruct (write_chunks fasta total chunks 0 _) as [[d'|e] w2] eqn:Hloop; [|discriminate].
  eapply write_chunks_count; [|exact Hloop]. apply lookup_insert_eq.
Qed.

(** X2: a run that downloads and returns prints, between the three
    lines that announce the download and the completion line, one
    progress line for each non-empty chunk when the content-length is a
    positive integer, followed by one newline; when the header is absent
    (or not positive) it prints nothing there at all. *)
Theorem download_progress (cache_dir : Path) (url : list Z) (w : World) p w' :
  download_hla_fasta cache_dir url w = (Return p, w') ->
  requests_log w' <> requests_log w ->
  exists r total chunks x,
    network w url = inr r /\ header_total r = Some total /\
    iter_content r (1024 * 1024) = (chunks, None) /\
    stdout w' = stdout w
                ++ [MsgDownloading; MsgUrl url; MsgDestination (fasta_of cache_dir)]
                ++ progress_report total chunks 0
                ++ (if 0 <? total then [MsgNewline] else [])
                ++ [MsgDownloadComplete x; MsgConfigSaved (config_of cache_dir)] /\
    Forall is_progress (progress_report total chunks 0) /\
    length (progress_report total chunks 0)
      = (if 0 <? total then count_nonempty chunks else O) /\
    (headers r !! u "content-length" = None ->
       total = 0 /\ progress_report total chunks 0 = []).
Proof.
  intros H Hlog.
  destruct (download_without_request _ _ _ _ _ H Hlog) as (fs0 & Hmk & Hdirs & Habs).
  fold (fasta_of cache_dir) in Habs.
  rewrite (download_start _ _ _ _ Hmk Habs) in H. unfold try_except in H.
  fold (fasta_of cache_dir) (config_of cache_dir) in H.
  destruct (download_body _ _ _ _) as [[p'|e] w1] eqn:Hbody.
  - inversion H; subst. clear H. pose proof Hbody as Hcount.
    apply download_body_cases in Hbody; [|exact Habs|apply fasta_config_ne].
    destruct Hbody as (r & chunks & total & x & data & free & Hnet & _ & Htotal & Hiter & _ & _
                       & -> & ->).
    apply (download_body_count _ _ _ _ _ _ r total chunks None) in Hcount;
      [|exact Habs|exact Hnet|exact Htotal|exact Hiter].
    exists r, total, chunks, x. cbn [stdout update announce].
    split; [exact Hnet|]. split; [exact Htotal|]. split; [exact Hiter|].
    split; [rewrite <- !app_assoc; reflexivity|].
    split; [apply progress_report_lines|]. split; [exact Hcount|].
    intros Hnone. unfold header_total in Htotal. rewrite Hnone in Htotal.
    inversion Htotal; subst. split; [reflexivity|].
    apply progress_report_silent. lia.
  - unfold request_handler in H. destruct (is_RequestException e) eqn:Hreq.
    + destruct e; try discriminate.
      apply download_body_cases in Hbody; [|exact Habs|apply fasta_config_ne].
      destruct Hbody as (fs1 & free & out & -> & _ & Hfasta & _).
      match type of H with download_failed _ _ ?wx = _ =>
        destruct (download_failed_run (fasta_of cache_dir) (RequestException e) wx)
          as (free' & Hrun); [exact Hfasta|] end.
      rewrite Hrun in H. discriminate.
    + discriminate.
Qed.

Lemma download_progress_witness :
  requests_log w_cached <> requests_log w_ok /\
  exists r total chunks x,
    network w_ok default_url = inr r /\ header_total r = Some total /\
    iter_content r (1024 * 1024) = (chunks, None) /\
    stdout w_cached = stdout w_ok
                ++ [MsgDownloading; MsgUrl default_url; MsgDestination (fasta_of ex_cache_dir)]
                ++ progress_report total chunks 0
                ++ (if 0 <? total then [MsgNewline] else [])
                ++ [MsgDownloadComplete x; MsgConfigSaved (config_of ex_cache_dir)] /\
    Forall is_progress (progress_report total chunks 0) /\
    length (progress_report total chunks 0)
      = (if 0 <? total then count_nonempty chunks else O) /\
    (headers r !! u "content-length" = None ->
       total = 0 /\ progress_report total chunks 0 = []).
Proof.
  assert (Hlog : requests_log w_cached <> requests_log w_ok) by (vm_compute; discriminate).
  split; [exact Hlog|].
  apply (download_progress ex_cache_dir default_url w_ok (fasta_of ex_cache_dir) w_cached).
  - vm_compute. reflexivity.
  - exact Hlog.
Defined.

(** ** Every run of download_hla_fasta *)

Lemma is_dir_check_raises p e w e' w' :
  (d ← is_dir p; if d : bool then mret tt else raise e) w = (Raise e' : outcome unit, w') -> e' = e.
Proof.
  rewrite run_bind. unfold is_dir.
  destruct (fs w !! path_str p) as [[]|]; simpl; intros [= <- _]; reflexivity.
Qed.

Lemma mkdir_exist_ok_raises p w e w' :
  mkdir_exist_ok p w = (Raise e, w') -> exists oe, e = OSError oe.
Proof.
  unfold mkdir_exist_ok, try_except. intros H.
  destruct (os_mkdir_cases p w) as [[oe He]|[Hnone He]]; rewrite He in H; [|discriminate].
  destruct oe; try (inversion H; eauto); apply is_dir_check_raises in H; eauto.
Qed.

Lemma mkdir_parents_raises (fuel : nat) :
  forall p w e w', mkdir_parents fuel p w = (Raise e, w') -> exists oe, e = OSError oe.
Proof.
  induction fuel as [|fuel IH]; intros p w e w' H; simpl in H; unfold try_except in H.
  - destruct (os_mkdir_cases p w) as [[oe He]|[Hnone He]]; rewrite He in H; [|discriminate].
    destruct oe; try (inversion H; eauto); apply is_dir_check_raises in H; eauto.
  - destruct (os_mkdir_cases p w) as [[oe He]|[Hnone He]]; rewrite He in H; [|discriminate].
    destruct oe; try (apply is_dir_check_raises in H; eauto).
    rewrite run_bind in H.
    destruct (mkdir_parents fuel (parent p) w) as [[[]|e0] wa] eqn:Hrec.
    + apply mkdir_exist_ok_raises in H. exact H.
    + inversion H; subst. eapply IH. exact Hrec.
Qed.

Lemma mkdir_raises p w e w' : mkdir p w = (Raise e, w') -> exists oe, e = OSError oe.
Proof. apply mkdir_parents_raises. Qed.

(** the outcome and the effects of a run, whatever path it takes *)
Lemma download_run (cache_dir : Path) (url : list Z) (w : World) o w' :
  download_hla_fasta cache_dir url w = (o, w') ->
  (requests_log w' = requests_log w \/ requests_log w' = requests_log w ++ [the_request url]) /\
  (forall k, k <> path_str (fasta_of cache_dir) -> k <> path_str (config_of cache_dir) ->
             kept_or_new_dir cache_dir (fs w) (fs w') k) /\
  match o with
  | Return p => p = fasta_of cache_dir /\ is_Some (fs w' !! path_str (fasta_of cache_dir))
  | Raise e =>
      (e = SystemExit 1 /\
       fs w' !! path_str (fasta_of cache_dir) = None /\
       fs w' !! path_str (config_of cache_dir) = fs w !! path_str (config_of cache_dir) /\
       requests_log w' = requests_log w ++ [the_request url]) \/
      is_Exception e = true
  end /\
  (exists fs1 free log out, w' = update w fs1 free log (stdout w ++ out)).
Proof.
  intros H.
  destruct (mkdir cache_dir w) as [[[]|e] w0] eqn:Hmk.
  2:{ unfold download_hla_fasta in H. rewrite (run_bind_raise _ _ _ _ _ Hmk) in H.
      inversion H; subst. destruct (mkdir_raises _ _ _ _ Hmk) as [oe ->].
      destruct (mkdir_frame _ _ _ _ Hmk) as (fs0 & E & Hdirs). unfold fs_only in E. subst w'.
      split; [left; reflexivity|]. split; [intros k _ _; apply Hdirs|].
      split; [right; reflexivity|]. exists fs0, (disk_free w), (requests_log w), [].
      rewrite app_nil_r. reflexivity. }
  destruct (mkdir_frame _ _ _ _ Hmk) as (fs0 & E & Hdirs). unfold fs_only in E. subst w0.
  destruct (fs0 !! path_str (fasta_of cache_dir)) as [n|] eqn:Hf.
  - unfold download_hla_fasta in H. rewrite (run_bind_return _ _ _ _ _ Hmk) in H.
    rewrite run_bind in H. unfold path_exists at 1 in H.
    cbn [fs disk_free requests_log stdout update] in H. fold (fasta_of cache_dir) in H.
    rewrite Hf in H. rewrite bool_decide_eq_true_2 in H by eauto.
    rewrite run_bind, print_update, run_bind in H. unfold stat_size at 1 in H.
    cbn [fs disk_free requests_log stdout update] in H. rewrite Hf in H.
    rewrite run_bind, truediv_run in H.
    destruct (int_truediv (st_size n) (1024 * 1024)).
    + inversion H; subst. split; [left; reflexivity|]. split; [intros k _ _; apply Hdirs|].
      split; [right; reflexivity|]. do 4 eexists. reflexivity.
    + rewrite run_bind, print_update in H. inversion H; subst.
      split; [left; reflexivity|]. split; [intros k _ _; apply Hdirs|].
      split; [split; [reflexivity|]; cbn [fs update]; rewrite Hf; eauto|].
      cbn [fs disk_free requests_log stdout update]. rewrite <- app_assoc. do 4 eexists. reflexivity.
  - rewrite (download_start _ _ _ _ Hmk Hf) in H. unfold try_except in H.
    fold (fasta_of cache_dir) (config_of cache_dir) in H.
    destruct (download_body _ _ _ _) as [[p|e] w1] eqn:Hbody.
    + inversion H; subst. clear H.
      apply download_body_cases in Hbody; [|exact Hf|apply fasta_config_ne].
      destruct Hbody as (r & chunks & total & x & data & free & _ & _ & _ & _ & _ & _ & -> & ->).
      cbn [fs disk_free requests_log stdout update announce].
      split; [right; reflexivity|]. split.
      { intros k Hk1 Hk2. unfold kept_or_new_dir. rewrite !lookup_insert_ne by congruence.
        apply Hdirs. }
      split.
      { split; [reflexivity|].
        rewrite lookup_insert_ne by (intros E; symmetry in E; revert E; apply fasta_config_ne).
        rewrite lookup_insert_eq. eauto. }
      rewrite <- !app_assoc. do 4 eexists. reflexivity.
    + pose proof Hbody as Hcases.
      apply download_body_cases in Hcases; [|exact Hf|apply fasta_config_ne].
      destruct Hcases as (fs1 & free & out & -> & Hframe & Hfasta & Hconfig).
      cbn [fs disk_free requests_log stdout update announce] in *.
      unfold request_handler in H. destruct (is_RequestException e) eqn:Hreq.
      * match type of H with download_failed _ _ ?wx = _ =>
          destruct (download_failed_run (fasta_of cache_dir) e wx)
            as (free' & Hrun); [exact Hfasta|] end.
        rewrite Hrun in H. inversion H; subst. clear H.
        cbn [fs disk_free requests_log stdout update].
        split; [right; reflexivity|]. split.
        { intros k Hk1 Hk2. unfold kept_or_new_dir. rewrite lookup_delete_ne by congruence.
          rewrite Hframe by assumption. apply Hdirs. }
        split.
        { left. split; [reflexivity|]. split; [apply lookup_delete_eq|]. split; [|reflexivity].
          rewrite lookup_delete_ne by apply fasta_config_ne.
          rewrite Hconfig. apply config_after_mkdir. exact Hdirs. }
        rewrite <- !app_assoc. do 4 eexists. reflexivity.
      * inversion H; subst. clear H. cbn [fs disk_free requests_log stdout update].
        split; [right; reflexivity|]. split.
        { intros k Hk1 Hk2. unfold kept_or_new_dir. rewrite Hframe by assumption. apply Hdirs. }
        split; [right; apply Hconfig|]. rewrite <- !app_assoc. do 4 eexists. reflexivity.
Qed.

(** ** What a computation prints *)

Lemma prints_silent {A} (P : Msg -> bool) (m : M A) :
  (forall w o w', m w = (o, w') -> stdout w' = stdout w) -> prints P m.
Proof.
  intros H w o w' Hrun. exists []. rewrite app_nil_r. split; [eapply H; eauto|reflexivity].
Qed.

Lemma prints_ret {A} (P : Msg -> bool) (a : A) : prints P (mret a).
Proof. apply prints_silent. intros w o w' [= _ <-]. reflexivity. Qed.

Lemma prints_raise {A} (P : Msg -> bool) (e : exn) : prints P (raise e : M A).
Proof. apply prints_silent. intros w o w' [= _ <-]. reflexivity. Qed.

Lemma prints_print (P : Msg -> bool) (m : Msg) : P m = true -> prints P (print m).
Proof.
  intros Hm w o w' [= _ <-]. exists [m]. split; [reflexivity|].
  cbn [forallb]. rewrite Hm. reflexivity.
Qed.

Lemma prints_bind {A B} (P : Msg -> bool) (m : M A) (k : A -> M B) :
  prints P m -> (forall a, prints P (k a)) -> prints P (m ≫= k).
Proof.
  intros Hm Hk w o w' H. rewrite run_bind in H.
  destruct (m w) as [[a|e] w1] eqn:E.
  - destruct (Hm _ _ _ E) as (out1 & H1 & F1). destruct (Hk a _ _ _ H) as (out2 & H2 & F2).
    exists (out1 ++ out2). rewrite H2, H1, <- app_assoc. split; [reflexivity|].
    rewrite forallb_app, F1, F2. reflexivity.
  - inversion H; subst. eapply Hm. exact E.
Qed.

Lemma prints_try_except {A} (P : Msg -> bool) (body : M A) (handler : exn -> option (M A)) :
  prints P body -> (forall e h, handler e = Some h -> prints P h) ->
  prints P (try_except body handler).
Proof.
  intros Hb Hh w o w' H. unfold try_except in H.
  destruct (body w) as [[a|e] w1] eqn:E.
  - inversion H; subst. eapply Hb. exact E.
  - destruct (Hb _ _ _ E) as (out1 & H1 & F1).
    destruct (handler e) as [h|] eqn:Eh.
    + destruct (Hh e h Eh _ _ _ H) as (out2 & H2 & F2).
      exists (out1 ++ out2). rewrite H2, H1, <- app_assoc. split; [reflexivity|].
      rewrite forallb_app, F1, F2. reflexivity.
    + inversion H; subst. exists out1. auto.
Qed.

Lemma prints_if {A} (P : Msg -> bool) (b : bool) (m1 m2 : M A) :
  prints P m1 -> prints P m2 -> prints P (if b then m1 else m2).
Proof. destruct b; auto. Qed.

(** *** The operations that print nothing *)

Lemma prints_truediv (P : Msg -> bool) (a b : Z) : prints P (truediv a b).
Proof.
  apply prints_silent. intros w o w'. rewrite truediv_run.
  intros [= _ <-]. reflexivity.
Qed.

Lemma prints_mul_int (P : Msg -> bool) (x : pyfloat) (n : Z) : prints P (mul_int x n).
Proof.
  apply prints_silent. intros w o w'. unfold mul_int, arith. rewrite run_bind.
  destruct (float_of_int n); intros [= _ <-]; reflexivity.
Qed.

Lemma prints_path_exists (P : Msg -> bool) (p : Path) : prints P (path_exists p).
Proof. apply prints_silent. intros w o w' [= _ <-]. reflexivity. Qed.

Lemma prints_stat_size (P : Msg -> bool) (p : Path) : prints P (stat_size p).
Proof.
  apply prints_silent. intros w o w'. unfold stat_size.
  destruct (fs w !! path_str p); intros [= _ <-]; reflexivity.
Qed.

Lemma prints_open_write (P : Msg -> bool) (p : Path) : prints P (open_write p).
Proof.
  apply prints_silent. intros w o w'. rewrite open_write_run.
  destruct (fs w !! path_str p) as [[old|]|]; [| |destruct (check_parent p w)];
    intros [= _ <-]; reflexivity.
Qed.

Lemma prints_file_write (P : Msg -> bool) (p : Path) (data : list Z) :
  prints P (file_write p data).
Proof.
  apply prints_silent. intros w o w'. unfold file_write.
  destruct (fs w !! path_str p) as [[content|]|]; [destruct (len data <=? disk_free w)| |];
    intros [= _ <-]; reflexivity.
Qed.

Lemma prints_unlink (P : Msg -> bool) (p : Path) : prints P (unlink p).
Proof.
  apply prints_silent. intros w o w'. unfold unlink.
  destruct (fs w !! path_str p) as [[content|]|]; intros [= _ <-]; reflexivity.
Qed.

Lemma prints_write_text (P : Msg -> bool) (p : Path) (s : list Z) : prints P (write_text p s).
Proof.
  intros w o w'. rewrite write_text_run.
  destruct (Codec.utf8_encode _) as [data|]; [apply prints_file_write|].
  intros [= _ <-]. exists []. rewrite app_nil_r. split; reflexivity.
Qed.

Lemma prints_requests_get (P : Msg -> bool) (url : list Z) : prints P (requests_get url 300 true).
Proof.
  apply prints_silent. intros w o w'. rewrite requests_get_run.
  intros [= _ <-]. reflexivity.
Qed.

Lemma prints_raise_for_status (P : Msg -> bool) (r : Response) : prints P (raise_for_status r).
Proof.
  apply prints_silent. intros w o w'. rewrite raise_for_status_run.
  intros [= _ <-]. reflexivity.
Qed.

Lemma prints_int_header (P : Msg -> bool) (r : Response) :
  prints P (int_header r (u "content-length")).
Proof.
  apply prints_silent. intros w o w'. rewrite int_header_run.
  intros [= _ <-]. reflexivity.
Qed.

Lemma prints_mkdir (P : Msg -> bool) (p : Path) : prints P (mkdir p).
Proof.
  apply prints_silent. intros w o w' H.
  destruct (mkdir_frame _ _ _ _ H) as (fs0 & E & _). unfold fs_only in E. subst w'. reflexivity.
Qed.

(** *** The script *)

Lemma prints_write_chunks (fasta : Path) (total : Z) (chunks : list (list Z)) :
  forall d, prints download_msg (write_chunks fasta total chunks d).
Proof.
  induction chunks as [|ch rest IH]; intros d; [apply prints_ret|].
  rewrite write_chunks_cons. destruct ch as [|c ch]; [apply IH|].
  apply prints_bind; [apply prints_file_write|]. intros _.
  apply prints_bind; [|intros _; apply IH].
  apply prints_if; [|apply prints_ret]. unfold progress_block.
  apply prints_bind; [apply prints_truediv|]. intros ratio.
  apply prints_bind; [apply prints_mul_int|]. intros percent.
  apply prints_bind; [apply prints_truediv|]. intros a.
  apply prints_bind; [apply prints_truediv|]. intros b.
  apply prints_print. reflexivity.
Qed.

Lemma prints_download_body (fasta config : Path) (url : list Z) :
  prints download_msg (download_body fasta config url).
Proof.
  unfold download_body.
  apply prints_bind; [apply prints_requests_get|]. intros r.
  apply prints_bind; [apply prints_raise_for_status|]. intros _.
  apply prints_bind; [apply prints_int_header|]. intros total.
  apply prints_bind; [apply prints_open_write|]. intros _.
  destruct (iter_content r (1024 * 1024)) as [chunks failure].
  apply prints_bind; [apply prints_write_chunks|]. intros _.
  apply prints_bind; [destruct failure; [apply prints_raise|apply prints_ret]|]. intros _.
  apply prints_bind; [apply prints_if; [apply prints_print; reflexivity|apply prints_ret]|].
  intros _.
  apply prints_bind; [apply prints_stat_size|]. intros size.
  apply prints_bind; [apply prints_truediv|]. intros x.
  apply prints_bind; [apply prints_print; reflexivity|]. intros _.
  apply prints_bind; [apply prints_open_write|]. intros _.
  apply prints_bind; [apply prints_write_text|]. intros _.
  apply prints_bind; [apply prints_print; reflexivity|]. intros _.
  apply prints_ret.
Qed.

Lemma prints_download_failed (fasta : Path) (e : exn) :
  prints download_msg (download_failed fasta e).
Proof.
  unfold download_failed.
  apply prints_bind; [apply prints_print; reflexivity|]. intros _.
  apply prints_bind; [apply prints_path_exists|]. intros present.
  apply prints_bind; [apply prints_if; [apply prints_unlink|apply prints_ret]|]. intros _.
  apply prints_raise.
Qed.

Lemma prints_download (cache_dir : Path) (url : list Z) :
  prints download_msg (download_hla_fasta cache_dir url).
Proof.
  unfold download_hla_fasta.
  apply prints_bind; [apply prints_mkdir|]. intros _.
  apply prints_bind; [apply prints_path_exists|]. intros present.
  apply prints_if.
  - apply prints_bind; [apply prints_print; reflexivity|]. intros _.
    apply prints_bind; [apply prints_stat_size|]. intros size.
    apply prints_bind; [apply prints_truediv|]. intros x.
    apply prints_bind; [apply prints_print; reflexivity|]. intros _.
    apply prints_ret.
  - apply prints_bind; [apply prints_print; reflexivity|]. intros _.
    apply prints_bind; [apply prints_print; reflexivity|]. intros _.
    apply prints_bind; [apply prints_print; reflexivity|]. intros _.
    apply prints_try_except; [apply prints_download_body|].
    intros e h. destruct (is_RequestException e); [|discriminate].
    intros [= <-]. apply prints_download_failed.
Qed.

(** ** main *)

Lemma main_run (w : World) :
  main w =
  match download_hla_fasta (cache_dir_of w) default_url (say w (main_title w)) with
  | (Return _, w1) => (Return tt, say w1 main_completion)
  | (Raise e, w1) => (Raise e, w1)
  end.
Proof.
  unfold main, main_title, main_completion, say.
  rewrite run_bind, print_update, run_bind, print_update, run_bind, print_update.
  rewrite run_bind, get_cache_dir_run, run_bind, print_update, run_bind.
  rewrite !update_update. cbn [fs disk_free requests_log stdout update].
  rewrite <- !app_assoc. cbn [app].
  match goal with |- context [download_hla_fasta ?c ?url ?x] =>
    change c with (cache_dir_of w) end.
  match goal with |- context [download_hla_fasta ?c ?url ?x] =>
    destruct (download_hla_fasta c url x) as [[p|e] w1] end; [|reflexivity].
  rewrite run_bind, print_update, run_bind, print_update, run_bind, print_update,
          run_bind, print_update, run_bind, print_update, run_bind, print_update, print_update.
  rewrite !update_update. cbn [fs disk_free requests_log stdout update].
  rewrite <- !app_assoc. reflexivity.
Qed.

Lemma exit_status_raised {A} (e : exn) :
  e = SystemExit 1 \/ is_Exception e = true -> exit_status (Raise e : outcome A) = 1.
Proof. intros [-> | H]; [reflexivity|apply exit_status_exception; exact H]. Qed.

(** X13: main prints the title block and the cache directory, then the
    lines of download_hla_fasta; it prints the completion block only
    when download_hla_fasta returned, and then the target file is in
    the cache directory; when download_hla_fasta raises, main prints
    nothing more and the process ends with exit status 1. *)
Theorem main_outcomes (w : World) :
  exists out,
    forallb download_msg out = true /\
    match (main w).1 with
    | Return _ =>
        stdout (main w).2 = stdout w ++ main_title w ++ out ++ main_completion /\
        is_Some (fs (main w).2 !! path_str (fasta_of (cache_dir_of w)))
    | Raise e =>
        stdout (main w).2 = stdout w ++ main_title w ++ out /\
        exit_status (main w).1 = 1
    end.
Proof.
  rewrite main_run.
  destruct (download_hla_fasta (cache_dir_of w) default_url (say w (main_title w)))
    as [[p|e] w1] eqn:Hrun.
  - destruct (prints_download _ _ _ _ _ Hrun) as (out & Hout & Hall).
    destruct (download_run _ _ _ _ _ Hrun) as (_ & _ & [_ Hfile] & _).
    exists out. split; [exact Hall|]. cbn [fst snd say stdout fs update].
    rewrite Hout. cbn [say stdout update]. rewrite <- !app_assoc. split; [reflexivity|exact Hfile].
  - destruct (prints_download _ _ _ _ _ Hrun) as (out & Hout & Hall).
    destruct (download_run _ _ _ _ _ Hrun) as (_ & _ & He & _).
    exists out. split; [exact Hall|]. cbn [fst snd].
    rewrite Hout. cbn [say stdout update]. rewrite <- !app_assoc. split; [reflexivity|].
    apply exit_status_raised. destruct He as [(-> & _)|He]; auto.
Qed.

(** X14: with the target already in the cache directory, main makes no
    request and changes no file: it prints the title block, the cache
    directory, the cached path with its size, and the completion
    block, and returns. *)
Theorem main_cached (w : World) (n : node) :
  fs w !! path_str (cache_dir_of w) = Some Dir ->
  fs w !! path_str (fasta_of (cache_dir_of w)) = Some n ->
  st_size n < 2 ^ 1043 ->
  exists mb,
    int_truediv (st_size n) (1024 * 1024) = inr mb /\
    main w = (Return tt,
              say w (main_title w
                     ++ [MsgAlreadyCached (fasta_of (cache_dir_of w)); MsgFileSize mb]
                     ++ main_completion)).
Proof.
  intros Hdir Hfile Hsize. rewrite main_run.
  destruct (download_cached (cache_dir_of w) default_url (say w (main_title w)) n Hdir Hfile Hsize)
    as (mb & Hmb & Hrun).
  exists mb. split; [exact Hmb|]. rewrite Hrun. unfold say, fasta_of.
  cbn [fs disk_free requests_log stdout update]. unfold update. rewrite <- !app_assoc. reflexivity.
Qed.

Lemma main_cached_witness :
  exists mb,
    int_truediv (st_size (File [1; 2; 3])) (1024 * 1024) = inr mb /\
    main w_file_only
    = (Return tt,
       say w_file_only
           (main_title w_file_only
            ++ [MsgAlreadyCached (fasta_of (cache_dir_of w_file_only)); MsgFileSize mb]
            ++ main_completion)).
Proof.
  apply (main_cached w_file_only (File [1; 2; 3])).
  - vm_compute. reflexivity.
  - vm_compute. reflexivity.
  - vm_compute. reflexivity.
Defined.

(** ** What download_hla_fasta does and does not do *)

(** X6: a call of download_hla_fasta issues at most one request, a GET
    of the given URL with a timeout of 300 seconds and streaming on; it
    leaves every file system entry other than the target and the config
    file as it was, or creates it as a directory on the way to the cache
    directory; it leaves the platform, the home and the environment
    alone; and it prints its own lines only. *)
Theorem download_effects (cache_dir : Path) (url : list Z) (w : World) :
  let w' := (download_hla_fasta cache_dir url w).2 in
  (requests_log w' = requests_log w \/
   requests_log w' = requests_log w ++ [mkRequest url 300 true]) /\
  (forall k, k <> path_str (cache_dir // u "hla_prot.fasta") ->
             k <> path_str (cache_dir // u "config.json") ->
             kept_or_new_dir cache_dir (fs w) (fs w') k) /\
  sys_platform w' = sys_platform w /\ home w' = home w /\ environ w' = environ w /\
  exists out, stdout w' = stdout w ++ out /\ forallb download_msg out = true.
Proof.
  cbv zeta. destruct (download_hla_fasta cache_dir url w) as [o w'] eqn:Hrun. cbn [snd].
  destruct (download_run _ _ _ _ _ Hrun) as (Hlog & Hframe & _ & (fs1 & free & log & out & Hw)).
  split; [exact Hlog|]. split; [exact Hframe|].
  rewrite Hw. cbn [sys_platform home environ update]. repeat (split; [reflexivity|]).
  rewrite <- Hw. eapply prints_download. exact Hrun.
Qed.

(** X7: when download_hla_fasta returns, the path returned is
    cache_dir / hla_prot.fasta and there is an entry at that path; when it
    raises, the exit status of the process is 1, and if the exception is
    SystemExit then one request was made, no entry is left at the target
    path and the config file is as it was before the call. *)
Theorem download_result (cache_dir : Path) (url : list Z) (w : World) :
  let run := download_hla_fasta cache_dir url w in
  match run.1 with
  | Return p =>
      p = cache_dir // u "hla_prot.fasta" /\ is_Some (fs run.2 !! path_str p)
  | Raise e =>
      exit_status run.1 = 1 /\
      (forall code, e = SystemExit code ->
         code = 1 /\
         requests_log run.2 = requests_log w ++ [mkRequest url 300 true] /\
         fs run.2 !! path_str (cache_dir // u "hla_prot.fasta") = None /\
         fs run.2 !! path_str (cache_dir // u "config.json")
           = fs w !! path_str (cache_dir // u "config.json"))
  end.
Proof.
  cbv zeta. destruct (download_hla_fasta cache_dir url w) as [o w'] eqn:Hrun. cbn [fst snd].
  destruct (download_run _ _ _ _ _ Hrun) as (_ & _ & Ho & _).
  destruct o as [p|e].
  - destruct Ho as [-> Hfile]. split; [reflexivity|exact Hfile].
  - split.
    + apply exit_status_raised. destruct Ho as [(-> & _)|He]; auto.
    + intros code ->. destruct Ho as [(Hcode & Hf & Hc & Hlog)|He]; [|discriminate].
      inversion Hcode; subst. auto.
Qed.

(** ** Directory creation *)

Lemma is_dir_check_run p e w :
  (d ← is_dir p; if d : bool then mret tt else raise e) w
  = (match fs w !! path_str p with Some Dir => Return tt | _ => Raise e end, w).
Proof.
  rewrite run_bind. unfold is_dir. destruct (fs w !! path_str p) as [[]|]; reflexivity.
Qed.

Lemma os_mkdir_existing p n w :
  fs w !! path_str p = Some n -> os_mkdir p w = (Raise (OSError FileExistsError), w).
Proof. intros H. unfold os_mkdir. rewrite H. reflexivity. Qed.

(** a regular file where the directory should be *)
Lemma mkdir_on_file p c w :
  fs w !! path_str p = Some (File c) -> mkdir p w = (Raise (OSError FileExistsError), w).
Proof.
  intros H. unfold mkdir.
  destruct (length (p_tail p)); simpl; unfold try_except;
    rewrite (os_mkdir_existing _ _ _ H), is_dir_check_run, H; reflexivity.
Qed.

Lemma mkdir_exist_ok_makes_dir p w w' :
  mkdir_exist_ok p w = (Return tt, w') -> fs w' !! path_str p = Some Dir.
Proof.
  unfold mkdir_exist_ok, try_except. intros H.
  destruct (os_mkdir_cases p w) as [[oe He]|[Hnone He]]; rewrite He in H.
  - destruct oe; try discriminate; rewrite is_dir_check_run in H;
      destruct (fs w !! path_str p) as [[]|] eqn:E; inversion H; subst; exact E.
  - inversion H; subst. apply lookup_insert_eq.
Qed.

Lemma mkdir_parents_makes_dir (fuel : nat) p w w' :
  mkdir_parents fuel p w = (Return tt, w') -> fs w' !! path_str p = Some Dir.
Proof.
  destruct fuel as [|fuel]; simpl; unfold try_except; intros H.
  - destruct (os_mkdir_cases p w) as [[oe He]|[Hnone He]]; rewrite He in H.
    + destruct oe; try discriminate; rewrite is_dir_check_run in H;
        destruct (fs w !! path_str p) as [[]|] eqn:E; inversion H; subst; exact E.
    + inversion H; subst. apply lookup_insert_eq.
  - destruct (os_mkdir_cases p w) as [[oe He]|[Hnone He]]; rewrite He in H.
    + destruct oe;
        try (rewrite is_dir_check_run in H;
             destruct (fs w !! path_str p) as [[]|] eqn:E; inversion H; subst; exact E).
      rewrite run_bind in H.
      destruct (mkdir_parents fuel (parent p) w) as [[[]|e0] wa]; [|discriminate].
      apply mkdir_exist_ok_makes_dir in H. exact H.
    + inversion H; subst. apply lookup_insert_eq.
Qed.

(** after [p.mkdir(parents=True, exist_ok=True)] returns, [p] is a directory *)
Lemma mkdir_makes_dir p w w' :
  mkdir p w = (Return tt, w') -> fs w' !! path_str p = Some Dir.
Proof. apply mkdir_parents_makes_dir. Qed.

(** X11: when a regular file sits where the cache directory should be,
    download_hla_fasta raises FileExistsError from the directory
    creation: nothing is printed, no request is made and the file system
    is unchanged. *)
Theorem download_blocked_by_file (cache_dir : Path) (url : list Z) (w : World) (c : list Z) :
  fs w !! path_str cache_dir = Some (File c) ->
  download_hla_fasta cache_dir url w = (Raise (OSError FileExistsError), w).
Proof.
  intros H. unfold download_hla_fasta.
  apply run_bind_raise. apply mkdir_on_file with (c := c). exact H.
Qed.

Lemma download_blocked_by_file_witness :
  download_hla_fasta ex_cache_dir default_url w_blocked
  = (Raise (OSError FileExistsError), w_blocked).
Proof.
  apply (download_blocked_by_file ex_cache_dir default_url w_blocked [7]).
  vm_compute. reflexivity.
Defined.

(** ** The content-length header *)

(** X12: a content-length header that is not an integer makes
    download_hla_fasta raise ValueError after the request and before the
    target file is opened: the exception is not a RequestException, so it
    is not caught, no failure line is printed and no file is created. *)
Theorem download_bad_content_length (cache_dir : Path) (url : list Z) (w : World)
    (r : Response) (v : list Z) :
  fs w !! path_str cache_dir = Some Dir ->
  fs w !! path_str (fasta_of cache_dir) = None ->
  network w url = inr r ->
  (400 <=? status_code r) && (status_code r <? 600) = false ->
  headers r !! u "content-length" = Some v ->
  Str.int_of_str v = None ->
  download_hla_fasta cache_dir url w
  = (Raise ValueError,
     update w (fs w) (disk_free w) (requests_log w ++ [mkRequest url 300 true])
            (stdout w ++ [MsgDownloading; MsgUrl url; MsgDestination (fasta_of cache_dir)])).
Proof.
  intros Hdir Hf Hnet Hstatus Hv Hint.
  rewrite (download_start cache_dir url w w (mkdir_existing _ _ Hdir) Hf).
  unfold try_except. unfold download_body.
  rewrite run_bind, requests_get_run. cbn [network announce update]. rewrite Hnet.
  rewrite run_bind, raise_for_status_run. unfold is_error_status. rewrite Hstatus.
  rewrite run_bind, int_header_run. unfold header_total. rewrite Hv, Hint.
  reflexivity.
Qed.

Lemma download_bad_content_length_witness :
  download_hla_fasta ex_cache_dir default_url w_bad_length
  = (Raise ValueError,
     update w_bad_length (fs w_bad_length) (disk_free w_bad_length)
            (requests_log w_bad_length ++ [mkRequest default_url 300 true])
            (stdout w_bad_length
             ++ [MsgDownloading; MsgUrl default_url; MsgDestination (fasta_of ex_cache_dir)])).
Proof.
  apply (download_bad_content_length ex_cache_dir default_url w_bad_length
           (mkResponse 200 {[ u "content-length" := u "12 bytes" ]}
                       (fun _ => ([[1; 2; 3]], None)))
           (u "12 bytes")).
  - vm_compute. reflexivity.
  - vm_compute. reflexivity.
  - reflexivity.
  - vm_compute. reflexivity.
  - vm_compute. reflexivity.
  - vm_compute. reflexivity.
Defined.

(** ** A second call *)

(** the early return, for a target whose size in MB is known *)
Lemma download_cached_at (cache_dir : Path) (url : list Z) (w : World) (n : node) (mb : pyfloat) :
  fs w !! path_str cache_dir = Some Dir ->
  fs w !! path_str (fasta_of cache_dir) = Some n ->
  int_truediv (st_size n) (1024 * 1024) = inr mb ->
  download_hla_fasta cache_dir url w
  = (Return (fasta_of cache_dir),
     say w [MsgAlreadyCached (fasta_of cache_dir); MsgFileSize mb]).
Proof.
  intros Hdir Hfile Hmb. unfold download_hla_fasta. fold (fasta_of cache_dir).
  rewrite (run_bind_return _ _ _ _ _ (mkdir_existing _ _ Hdir)).
  rewrite run_bind. unfold path_exists at 1. rewrite Hfile.
  rewrite bool_decide_eq_true_2 by eauto.
  rewrite run_bind, print_update, run_bind. unfold stat_size at 1.
  cbn [fs disk_free requests_log stdout update]. rewrite Hfile.
  rewrite run_bind, truediv_run, Hmb. rewrite run_bind, print_update.
  rewrite update_update. cbn [fs disk_free requests_log stdout update].
  rewrite <- app_assoc. reflexivity.
Qed.

Lemma cache_dir_not_child (cache_dir : Path) (name : list Z) :
  plain_name name -> (1 < length name)%nat ->
  path_str cache_dir <> path_str (cache_dir // name).
Proof.
  intros Hp Hlen E. symmetry in E. revert E.
  apply (child_not_ancestor cache_dir name 0 Hp Hlen).
Qed.

(** X8: after a call that downloaded and returned, a second call with
    the same cache directory makes no request and changes no file; it
    prints the cached path and the size the first call stored, and
    returns the same path. *)
Theorem download_twice (cache_dir : Path) (url url2 : list Z) (w : World) p w1 :
  download_hla_fasta cache_dir url w = (Return p, w1) ->
  requests_log w1 <> requests_log w ->
  exists content mb,
    fs w1 !! path_str p = Some (File content) /\
    int_truediv (len content) (1024 * 1024) = inr mb /\
    download_hla_fasta cache_dir url2 w1
    = (Return p, say w1 [MsgAlreadyCached p; MsgFileSize mb]).
Proof.
  intros Hrun Hlog.
  destruct (download_success _ _ _ _ _ Hrun Hlog)
    as (fs0 & r & chunks & total & x & data & free & Hmk & _ & _ & _ & _ & _ & _ & Hx & _ & -> & ->).
  apply mkdir_makes_dir in Hmk. cbn [fs update] in Hmk.
  assert (Hfasta : path_str (config_of cache_dir) <> path_str (fasta_of cache_dir)).
  { intros E. symmetry in E. revert E. apply fasta_config_ne. }
  exists (concat chunks), x. cbn [fs update].
  split; [rewrite lookup_insert_ne by exact Hfasta; apply lookup_insert_eq|].
  split; [exact Hx|].
  apply download_cached_at with (n := File (concat chunks)).
  - cbn [fs update]. rewrite !lookup_insert_ne; [exact Hmk| |].
    + intros E. symmetry in E. revert E. apply cache_dir_not_child; [apply plain_fasta|vm_compute; lia].
    + intros E. symmetry in E. revert E. apply cache_dir_not_child; [apply plain_config|vm_compute; lia].
  - cbn [fs update]. rewrite lookup_insert_ne by exact Hfasta. apply lookup_insert_eq.
  - exact Hx.
Qed.

Lemma download_twice_witness :
  exists content mb,
    fs w_cached !! path_str (fasta_of ex_cache_dir) = Some (File content) /\
    int_truediv (len content) (1024 * 1024) = inr mb /\
    download_hla_fasta ex_cache_dir default_url w_cached
    = (Return (fasta_of ex_cache_dir),
       say w_cached [MsgAlreadyCached (fasta_of ex_cache_dir); MsgFileSize mb]).
Proof.
  apply (download_twice ex_cache_dir default_url default_url w_ok (fasta_of ex_cache_dir) w_cached).
  - vm_compute. reflexivity.
  - vm_compute. discriminate.
Defined.

(** ** The round trip on the example *)

Lemma code_points_check (l : list Z) :
  forallb (fun c => (0 <=? c) && (c <? 1114112)) l = true -> Forall code_point l.
Proof.
  intros H. apply Forall_forall. intros c Hc.
  rewrite forallb_forall in H. specialize (H c). unfold code_point.
  assert (Hin : In c l) by (apply list_elem_of_In; exact Hc).
  apply H in Hin. apply andb_true_iff in Hin. destruct Hin as [H1 H2].
  apply Z.leb_le in H1. apply Z.ltb_lt in H2. lia.
Qed.

Lemma config_round_trip_witness :
  load_hla_path w_cached = (Return (Some (fasta_of ex_cache_dir)), w_cached).
Proof.
  apply (config_round_trip ex_cache_dir default_url w_ok (fasta_of ex_cache_dir) w_cached).
  - vm_compute. reflexivity.
  - split; [|split; [reflexivity|right; left; reflexivity]].
    repeat constructor; try discriminate.
  - reflexivity.
  - apply code_points_check. vm_compute. reflexivity.
  - vm_compute. reflexivity.
  - vm_compute. discriminate.
  - split; [apply code_points_check; vm_compute; reflexivity|vm_compute; reflexivity].
Defined.

(** ** The size in MB *)

(** the quotient by 2^20 of a size below 2^53 is a float: the division
    does not round *)
Lemma size_mb_round_ratio (n : Z) :
  0 < n < 2 ^ 53 ->
  round_ratio n (1024 * 1024) = (n * 2 ^ (52 - Z.log2 n), Z.log2 n - 72).
Proof.
  intros Hn.
  pose proof (log2_bounds n (proj1 Hn)) as [Hlo Hhi].
  assert (HL0 : 0 <= Z.log2 n) by apply Z.log2_nonneg.
  assert (HL : Z.log2 n <= 52).
  { destruct (Z.le_gt_cases (Z.log2 n) 52) as [H|H]; [exact H|]. exfalso.
    assert (2 ^ 53 <= 2 ^ Z.log2 n) by (apply Z.pow_le_mono_r; lia). lia. }
  set (L := Z.log2 n) in *. set (j := 52 - L).
  assert (Hj : 0 <= j) by (subst j; lia).
  set (M := n * 2 ^ j).
  assert (Hpj : 0 < 2 ^ j) by (apply Z.pow_pos_nonneg; lia).
  assert (HM : 2 ^ 52 <= M < 2 ^ 53).
  { subst M. replace 52 with (L + j) at 1 by (subst j; lia).
    replace 53 with (L + 1 + j) by (subst j; lia).
    rewrite !Z.pow_add_r by lia. split; [apply Z.mul_le_mono_nonneg_r; lia|].
    apply Z.mul_lt_mono_pos_r; [exact Hpj|]. rewrite Z.pow_add_r in Hhi by lia. exact Hhi. }
  unfold round_ratio. replace (n =? 0) with false by (symmetry; apply Z.eqb_neq; lia).
  change (Z.log2 (1024 * 1024)) with 20. fold L. cbv zeta.
  replace (55 - (L - 20)) with (j + 23) by (subst j; lia).
  replace (0 <=? j + 23) with true by (symmetry; apply Z.leb_le; lia).
  assert (HN : n * 2 ^ (j + 23) = M * 8 * (1024 * 1024)).
  { subst M. rewrite Z.pow_add_r by lia. change (2 ^ 23) with (8 * (1024 * 1024)). ring. }
  rewrite HN. rewrite Z.div_mul by discriminate. rewrite Z.mod_mul by discriminate.
  change (0 =? 0) with true. cbn [negb orb andb].
  assert (Hbits : bits (M * 8) = 56).
  { unfold bits. replace (M * 8 =? 0) with false by (symmetry; apply Z.eqb_neq; lia).
    assert (Z.log2 (M * 8) = 55); [|lia].
    apply Z.log2_unique; [lia|]. change (2 ^ 55) with (2 ^ 52 * 8).
    change (2 ^ (55 + 1)) with (2 ^ 53 * 8). lia. }
  rewrite Hbits. unfold emin.
  replace (Z.max (56 - 53) (j + 23 + -1074)) with 3 by (subst j; lia).
  change (2 ^ 3) with 8. change (2 ^ (3 - 1)) with 4.
  rewrite Z.div_mul by discriminate. rewrite Z.mod_mul by discriminate.
  change (4 <? 0) with false. change (0 =? 4) with false. cbn [orb andb].
  replace (M =? 2 ^ 53) with false by (symmetry; apply Z.eqb_neq; lia).
  f_equal. subst j. lia.
Qed.

(** X4: the size in MB that the script computes, [size / (1024 * 1024)],
    is exact for every size below 2^53 bytes: the float equals the
    rational size / 1048576, with no rounding error. *)
Theorem file_size_mb_exact (n : Z) :
  0 <= n < 2 ^ 53 ->
  exists x q, int_truediv n (1024 * 1024) = inr x /\ to_Q x = Some q /\ (q == n # 1048576)%Q.
Proof.
  intros Hn. destruct (Z.eq_dec n 0) as [->|Hnz].
  { eexists _, _. split; [reflexivity|]. split; [reflexivity|]. reflexivity. }
  assert (Hpos : 0 < n < 2 ^ 53) by lia.
  pose proof (size_mb_round_ratio n Hpos) as Hr.
  pose proof (log2_bounds n (proj1 Hpos)) as [Hlo Hhi].
  assert (HL0 : 0 <= Z.log2 n) by apply Z.log2_nonneg.
  assert (HL : Z.log2 n <= 52).
  { destruct (Z.le_gt_cases (Z.log2 n) 52) as [H|H]; [exact H|]. exfalso.
    assert (2 ^ 53 <= 2 ^ Z.log2 n) by (apply Z.pow_le_mono_r; lia). lia. }
  exists (Finite false (n * 2 ^ (52 - Z.log2 n)) (Z.log2 n - 72)).
  exists (n * 2 ^ (52 - Z.log2 n) # Z.to_pos (2 ^ (- (Z.log2 n - 72)))).
  split; [|split].
  - unfold int_truediv. change (1024 * 1024 =? 0) with false. cbv iota.
    rewrite Z.abs_eq by lia. change (Z.abs (1024 * 1024)) with (1024 * 1024).
    rewrite Hr. unfold emax.
    replace (971 <? Z.log2 n - 72) with false by (symmetry; apply Z.ltb_ge; lia).
    replace (n <? 0) with false by (symmetry; apply Z.ltb_ge; lia). reflexivity.
  - unfold to_Q, dyadic_ratio.
    replace (0 <=? Z.log2 n - 72) with false by (symmetry; apply Z.leb_gt; lia).
    reflexivity.
  - unfold Qeq. cbn [Qnum Qden].
    assert (Hp : 0 < 2 ^ (- (Z.log2 n - 72))) by (apply Z.pow_pos_nonneg; lia).
    rewrite Z2Pos.id by exact Hp.
    replace (- (Z.log2 n - 72)) with ((52 - Z.log2 n) + 20) by lia.
    rewrite Z.pow_add_r by lia. change (Z.pos 1048576) with (2 ^ 20). ring.
Qed.

Lemma file_size_mb_exact_witness :
  exists x q, int_truediv 3145728 (1024 * 1024) = inr x /\
              to_Q x = Some q /\ (q == 3145728 # 1048576)%Q.
Proof. apply (file_size_mb_exact 3145728). split; [lia|reflexivity]. Defined.

(** ** The config file *)

(** X3: after a call that downloaded and returned path p, the config
    file holds, as text, an object of three members laid out one per
    line with two spaces in front: hla_fasta_path with the text of p,
    download_url with the url, and file_size_mb with the repr of the
    float size / (1024 * 1024), size being the length of the target file;
    json reads this text back as an object with exactly these three
    keys, in this order, the first two holding strings and the last a
    float. *)
Theorem config_file_written (cache_dir : Path) (url : list Z) (w : World) p w' :
  download_hla_fasta cache_dir url w = (Return p, w') ->
  requests_log w' <> requests_log w ->
  Forall code_point url -> Forall code_point (path_str p) ->
  exists content x data,
    fs w' !! path_str p = Some (File content) /\
    int_truediv (len content) (1024 * 1024) = inr x /\
    fs w' !! path_str (cache_dir // u "config.json") = Some (File data) /\
    Codec.universal_newlines <$> Codec.utf8_decode data
      = Some (config_layout (path_str p) url (float_repr x)) /\
    exists x',
      loads (config_layout (path_str p) url (float_repr x))
      = Some (JObj [(u "hla_fasta_path", JStr (join_surrogates (path_str p)));
                    (u "download_url", JStr (join_surrogates url));
                    (u "file_size_mb", JFloat x')]).
Proof.
  intros Hrun Hlog Hurl Hpath.
  destruct (download_success _ _ _ _ _ Hrun Hlog)
    as (fs0 & r & chunks & total & x & data & free & _ & _ & _ & _ & _ & _ & _ & Hx & Hdata & -> & ->).
  destruct (config_written _ _ _ _ _ _ _ Hpath Hurl Hx Hdata) as (n & _ & _ & Htext & Hloads).
  exists (concat chunks), x, data. cbn [fs update].
  split.
  { rewrite lookup_insert_ne by (intros E; symmetry in E; revert E; apply fasta_config_ne).
    apply lookup_insert_eq. }
  split; [exact Hx|]. split; [apply lookup_insert_eq|]. split; [exact Htext|].
  exists (number_value n). exact Hloads.
Qed.

Lemma config_file_written_witness :
  exists content x data,
    fs w_cached !! path_str (fasta_of ex_cache_dir) = Some (File content) /\
    int_truediv (len content) (1024 * 1024) = inr x /\
    fs w_cached !! path_str (ex_cache_dir // u "config.json") = Some (File data) /\
    Codec.universal_newlines <$> Codec.utf8_decode data
      = Some (config_layout (path_str (fasta_of ex_cache_dir)) default_url (float_repr x)) /\
    exists x',
      loads (config_layout (path_str (fasta_of ex_cache_dir)) default_url (float_repr x))
      = Some (JObj [(u "hla_fasta_path", JStr (join_surrogates (path_str (fasta_of ex_cache_dir))));
                    (u "download_url", JStr (join_surrogates default_url));
                    (u "file_size_mb", JFloat x')]).
Proof.
  apply (config_file_written ex_cache_dir default_url w_ok (fasta_of ex_cache_dir) w_cached).
  - vm_compute. reflexivity.
  - vm_compute. discriminate.
  - apply code_points_check. vm_compute. reflexivity.
  - apply code_points_check. vm_compute. reflexivity.
Defined.

(** ** The loader after a failed download *)

(** the [try] block of the loader reads the config entry and the
    platform, nothing else *)
Lemma load_body_reads (c : Path) :
  exists F : option node -> flavour -> outcome (option Path),
    forall w, load_body c w = (F (fs w !! path_str c) (os_flavour w), w).
Proof.
  exists (fun n f =>
    match n with
    | Some (File content) =>
        match Codec.utf8_decode content with
        | Some s =>
            match loads (Codec.universal_newlines s) with
            | Some (JObj d) =>
                match dict_get (u "hla_fasta_path") d with
                | Some (JStr v) => Return (Some (parse_path f v))
                | Some _ => Raise TypeError
                | None => Raise (KeyError (u "hla_fasta_path"))
                end
            | Some _ => Raise TypeError
            | None => Raise JSONDecodeError
            end
        | None => Raise UnicodeError
        end
    | Some Dir => Raise (OSError IsADirectoryError)
    | None => Raise (OSError FileNotFoundError)
    end).
  intros w. unfold load_body. rewrite run_bind. unfold read_text at 1.
  destruct (fs w !! path_str c) as [[content|]|]; try reflexivity.
  destruct (Codec.utf8_decode content) as [text|]; [|reflexivity].
  rewrite run_bind. unfold json_loads at 1.
  destruct (loads (Codec.universal_newlines text)) as [v|]; [|reflexivity].
  change ((mret v : M json) w) with (Return v, w). cbv beta iota.
  rewrite run_bind. unfold getitem at 1.
  destruct v as [ | | | | |items|d]; try reflexivity.
  destruct (dict_get (u "hla_fasta_path") d) as [v|]; [|reflexivity].
  change ((mret v : M json) w) with (Return v, w). cbv beta iota.
  rewrite run_bind. unfold Path_of at 1.
  destruct v; reflexivity.
Qed.

(** two worlds with the same platform, home and config entry give the
    loader the same answer and the same lines *)
Lemma load_hla_path_same (w1 w2 : World) :
  sys_platform w1 = sys_platform w2 -> home w1 = home w2 ->
  fs w1 !! path_str (config_of (cache_dir_of w1))
    = fs w2 !! path_str (config_of (cache_dir_of w2)) ->
  exists r out,
    load_hla_path w1 = (Return r, say w1 out) /\ load_hla_path w2 = (Return r, say w2 out).
Proof.
  intros Hp Hh Hc.
  assert (Hcd : cache_dir_of w1 = cache_dir_of w2) by (unfold cache_dir_of; rewrite Hp, Hh; reflexivity).
  assert (Hfl : os_flavour w1 = os_flavour w2) by (unfold os_flavour; rewrite Hp; reflexivity).
  rewrite !load_hla_path_unfold. rewrite Hcd in *. rewrite Hc.
  destruct (fs w2 !! path_str (config_of (cache_dir_of w2))) as [n|] eqn:E.
  - destruct (load_body_reads (config_of (cache_dir_of w2))) as [F HF].
    rewrite (HF w1), (HF w2). rewrite Hc, E, Hfl.
    destruct (F (Some n) (os_flavour w2)) as [r|e] eqn:EF.
    + exists r, []. unfold say. rewrite !app_nil_r, !update_id. split; reflexivity.
    + destruct (is_Exception e) eqn:Ee.
      * exists None, [MsgErrorLoadingConfig e]. split; reflexivity.
      * exfalso. destruct (load_body_run w2) as (o & Hrun & Ho).
        rewrite (HF w2), E, EF in Hrun.
        inversion Hrun; subst o. destruct Ho as [Ho _]. congruence.
  - exists None, [MsgNotSetUp]. split; reflexivity.
Qed.

(** X10: when download_hla_fasta, called on the directory of
    get_cache_dir, ends in sys.exit (the transport failed), load_hla_path
    answers afterwards exactly as it would have before the call: the same
    result and the same lines; a failed download does not disturb an
    earlier configuration. *)
Theorem failed_download_keeps_loader (url : list Z) (w : World) (code : Z) w' :
  download_hla_fasta (cache_dir_of w) url w = (Raise (SystemExit code), w') ->
  exists r out,
    load_hla_path w = (Return r, say w out) /\ load_hla_path w' = (Return r, say w' out).
Proof.
  intros Hrun.
  destruct (download_run _ _ _ _ _ Hrun) as (_ & _ & He & (fs1 & free & log & out & Hw)).
  destruct He as [(_ & _ & Hconfig & _)|He]; [|discriminate].
  apply load_hla_path_same.
  - rewrite Hw. reflexivity.
  - rewrite Hw. reflexivity.
  - replace (cache_dir_of w') with (cache_dir_of w) by (rewrite Hw; reflexivity).
    symmetry. exact Hconfig.
Qed.

Lemma failed_download_keeps_loader_witness :
  exists r out,
    load_hla_path w_stream_error = (Return r, say w_stream_error out) /\
    load_hla_path (download_hla_fasta ex_cache_dir default_url w_stream_error).2
    = (Return r, say (download_hla_fasta ex_cache_dir default_url w_stream_error).2 out).
Proof.
  apply (failed_download_keeps_loader default_url w_stream_error 1
           (download_hla_fasta ex_cache_dir default_url w_stream_error).2).
  vm_compute. reflexivity.
Defined.

(** ** When the download succeeds *)










(** ** A full disk *)

Lemma check_parent_not_full p w e :
  check_parent p w = Some e -> e <> OSError NoSpaceLeft.
Proof.
  unfold check_parent. destruct (p_tail p); [intros [= <-]; discriminate|].
  destruct (fs w !! path_str (parent p)) as [[]|]; intros [= <-]; discriminate.
Qed.

(** the [try] block fails for lack of space only after the target was
    opened: the target is then a file *)
Lemma download_body_disk_full (fasta config : Path) (url : list Z) (w : World) w1 :
  fs w !! path_str fasta = None ->
  path_str fasta <> path_str config ->
  download_body fasta config url w = (Raise (OSError NoSpaceLeft), w1) ->
  exists c fs1 free out,
    w1 = update w fs1 free (requests_log w ++ [the_request url]) (stdout w ++ out) /\
    fs1 !! path_str fasta = Some (File c) /\
    (forall k, k <> path_str fasta -> k <> path_str config -> fs1 !! k = fs w !! k).
Proof.
  intros Habsent Hne H. unfold download_body in H.
  rewrite run_bind, requests_get_run in H.
  destruct (network w url) as [e|r] eqn:Hnet; [discriminate|].
  rewrite run_bind, raise_for_status_run in H.
  destruct (is_error_status r) eqn:Hstatus; [discriminate|].
  rewrite run_bind, int_header_run in H.
  destruct (header_total r) as [total|] eqn:Htotal; [|discriminate].
  rewrite run_bind, open_write_new in H by exact Habsent.
  destruct (check_parent fasta _) as [e|] eqn:Hparent.
  { inversion H; subst. exfalso. eapply check_parent_not_full; eauto. }
  destruct (iter_content r (1024 * 1024)) as [chunks failure] eqn:Hiter.
  rewrite run_bind in H.
  destruct (write_chunks fasta total chunks 0 _) as [[d'|e] w2] eqn:Hloop.
  2:{ inversion H; subst.
      apply write_chunks_raise with (c0 := []) in Hloop; [|apply lookup_insert_eq].
      destruct Hloop as (_ & _ & c' & free' & out & ->). world_simpl.
      exists ([] ++ c'). do 3 eexists. split; [reflexivity|].
      rewrite insert_insert_eq. split; [apply lookup_insert_eq|].
      intros k Hk1 Hk2. apply lookup_insert_ne. congruence. }
  apply write_chunks_return with (c0 := []) in Hloop; [|apply lookup_insert_eq].
  destruct Hloop as (-> & ->). world_simpl. rewrite insert_insert_eq in H.
  rewrite run_bind in H.
  destruct failure as [e|]; [discriminate|].
  change (finish_download fasta config url total
            (update (update (update w (fs w) (disk_free w) (requests_log w ++ [the_request url]) (stdout w))
                       (<[path_str fasta:=File []]> (fs w)) (disk_free w)
                       (requests_log w ++ [the_request url]) (stdout w))
                    (<[path_str fasta:=File ([] ++ concat chunks)]> (fs w))
                    (disk_free w - len (concat chunks))
                    (requests_log w ++ [the_request url])
                    (stdout w ++ progress_report total chunks 0)) = (Raise (OSError NoSpaceLeft), w1)) in H.
  rewrite !update_update in H. rewrite app_nil_l in H.
  apply finish_download_cases with (content := concat chunks) in H;
    [|apply lookup_insert_eq|exact Hne].
  world_simpl.
  destruct H as (_ & _ & fs1 & free & out & -> & Hfs).
  exists (concat chunks), fs1, free, (progress_report total chunks 0 ++ out).
  rewrite update_update, <- app_assoc. split; [reflexivity|].
  destruct Hfs as [-> | ->].
  - split; [apply lookup_insert_eq|]. intros k Hk1 Hk2. apply lookup_insert_ne. congruence.
  - split; [rewrite lookup_insert_ne by congruence; apply lookup_insert_eq|].
    intros k Hk1 Hk2. rewrite !lookup_insert_ne by congruence. reflexivity.
Qed.

(** X9: when a call has made its request and then fails because the
    disk is full, the exception is not caught, so the target file stays
    as far as it was written; a later call on the same cache directory
    then finds the target, makes no request, reports the size of what
    is there and returns its path: the partial file is taken for the
    database. *)
Theorem partial_file_is_then_cached (cache_dir : Path) (url : list Z) (w w1 : World) :
  download_hla_fasta cache_dir url w = (Raise (OSError NoSpaceLeft), w1) ->
  requests_log w1 <> requests_log w ->
  exists c,
    fs w1 !! path_str (cache_dir // u "hla_prot.fasta") = Some (File c) /\
    forall url2, len c < 2 ^ 1043 ->
      exists mb,
        int_truediv (len c) (1024 * 1024) = inr mb /\
        download_hla_fasta cache_dir url2 w1
        = (Return (cache_dir // u "hla_prot.fasta"),
           say w1 [MsgAlreadyCached (cache_dir // u "hla_prot.fasta"); MsgFileSize mb]).
Proof.
  intros Hrun Hlog.
  destruct (download_without_request _ _ _ _ _ Hrun Hlog) as (fs0 & Hmk & Hdirs & Habs).
  pose proof (mkdir_makes_dir _ _ _ Hmk) as Hdir. cbn [fs update] in Hdir.
  fold (fasta_of cache_dir) in Habs |- *.
  rewrite (download_start _ _ _ _ Hmk Habs) in Hrun. unfold try_except in Hrun.
  fold (fasta_of cache_dir) (config_of cache_dir) in Hrun.
  destruct (download_body _ _ _ _) as [[p|e] w2] eqn:Hbody; [discriminate|].
  unfold request_handler in Hrun. destruct (is_RequestException e) eqn:Hreq.
  { pose proof Hbody as Hcases.
    apply download_body_cases in Hcases; [|exact Habs|apply fasta_config_ne].
    destruct Hcases as (fs1 & free & out & -> & _ & Hfasta & _).
    match type of Hrun with download_failed _ _ ?wx = _ =>
      destruct (download_failed_run (fasta_of cache_dir) e wx) as (free' & Hf);
        [exact Hfasta|] end.
    rewrite Hf in Hrun. discriminate. }
  inversion Hrun; subst e w2. clear Hrun.
  apply download_body_disk_full in Hbody; [|exact Habs|apply fasta_config_ne].
  destruct Hbody as (c & fs1 & free & out & -> & Hc & Hframe).
  cbn [fs update announce] in *.
  exists c. split; [exact Hc|]. intros url2 Hsize.
  destruct (size_mb_finite (len c)) as [mb Hmb]; [split; [apply len_nonneg|exact Hsize]|].
  exists mb. split; [exact Hmb|].
  apply download_cached_at with (n := File c).
  - cbn [fs update]. rewrite Hframe; [exact Hdir| |].
    + apply cache_dir_not_child; [apply plain_fasta|vm_compute; lia].
    + apply cache_dir_not_child; [apply plain_config|vm_compute; lia].
  - exact Hc.
  - exact Hmb.
Qed.

Lemma partial_file_is_then_cached_witness :
  exists c,
    fs (download_hla_fasta ex_cache_dir default_url w_disk_full).2
      !! path_str (ex_cache_dir // u "hla_prot.fasta") = Some (File c) /\
    forall url2, len c < 2 ^ 1043 ->
      exists mb,
        int_truediv (len c) (1024 * 1024) = inr mb /\
        download_hla_fasta ex_cache_dir url2
          (download_hla_fasta ex_cache_dir default_url w_disk_full).2
        = (Return (ex_cache_dir // u "hla_prot.fasta"),
           say (download_hla_fasta ex_cache_dir default_url w_disk_full).2
               [MsgAlreadyCached (ex_cache_dir // u "hla_prot.fasta"); MsgFileSize mb]).
Proof.
  apply (partial_file_is_then_cached ex_cache_dir default_url w_disk_full
           (download_hla_fasta ex_cache_dir default_url w_disk_full).2).
  - vm_compute. reflexivity.
  - vm_compute. discriminate.
Defined.

(** ** The loader on a host that can fail *)

Lemma get_cache_dir_on_run (H : Host) (w : World) :
  get_cache_dir_on H w =
  if home_unresolved H then (Raise RuntimeError, w) else (Return (cache_dir_of w), w).
Proof.
  unfold get_cache_dir_on, cache_dir_of. rewrite run_bind. cbn [get_world].
  destruct (Str.eqb (sys_platform w) (u "win32")); rewrite run_bind; unfold Path_home_on;
    destruct (home_unresolved H); reflexivity.
Qed.

Lemma print_on_run (H : Host) (m : Msg) (w : World) :
  (print_on H m ≫= fun _ => (mret None : M (option Path))) w = report H m w.
Proof.
  rewrite run_bind. unfold print_on, report.
  destruct (print_error H m); reflexivity.
Qed.

Lemma report_say (H : Host) (m : Msg) (w : World) :
  exists out, (report H m w).2 = say w out.
Proof.
  unfold report. destruct (print_error H m).
  - exists []. unfold say. rewrite app_nil_r, update_id. reflexivity.
  - exists [m]. reflexivity.
Qed.

Lemma load_body_on_run (H : Host) (w : World) :
  exists o, load_body_on H (config_of (cache_dir_of w)) w = (o, w) /\
    match o with
    | Return r => exists s, config_value_on H w = Some (JStr s) /\
                            r = Some (parse_path (os_flavour w) s)
    | Raise e => is_Exception e = true /\
                 forall s, config_value_on H w <> Some (JStr s)
    end.
Proof.
  unfold load_body_on, config_value_on. rewrite run_bind. unfold read_text_on at 1.
  destruct (open_error H (path_str (config_of (cache_dir_of w)))) as [oe|];
    [eexists; split; [reflexivity|]; split; [reflexivity|]; intros; discriminate|].
  destruct (fs w !! path_str (config_of (cache_dir_of w))) as [[content|]|];
    try (eexists; split; [reflexivity|]; split; [reflexivity|]; intros; discriminate).
  destruct (text_decode H content) as [text|];
    [|eexists; split; [reflexivity|]; split; [reflexivity|]; intros; discriminate].
  rewrite run_bind. unfold json_loads_on at 1.
  destruct (json_limit H (Codec.universal_newlines text)) as [l|];
    [eexists; split; [reflexivity|]; split; [destruct l; reflexivity|];
     intros; discriminate|].
  unfold json_loads at 1.
  destruct (loads (Codec.universal_newlines text)) as [v|];
    [|eexists; split; [reflexivity|]; split; [reflexivity|]; intros; discriminate].
  change ((mret v : M json) w) with (Return v, w). cbv beta iota.
  rewrite run_bind. unfold getitem at 1.
  destruct v as [ | | | | |items|d];
    try (eexists; split; [reflexivity|]; split; [reflexivity|]; intros; discriminate).
  destruct (dict_get (u "hla_fasta_path") d) as [v|];
    [|eexists; split; [reflexivity|]; split; [reflexivity|]; intros; discriminate].
  change ((mret v : M json) w) with (Return v, w). cbv beta iota.
  rewrite run_bind. unfold Path_of at 1.
  destruct v as [ | | | |s| | ];
    try (eexists; split; [reflexivity|]; split; [reflexivity|]; intros; discriminate).
  eexists. split; [reflexivity|]. exists s. split; reflexivity.
Qed.

Lemma load_hla_path_on_unfold (H : Host) (w : World) :
  load_hla_path_on H w =
  if home_unresolved H then (Raise RuntimeError, w)
  else
    match stat_error H (path_str (config_of (cache_dir_of w))) with
    | Some e => if ignore_error e then report H MsgNotSetUp w else (Raise (OSError e), w)
    | None =>
        match fs w !! path_str (config_of (cache_dir_of w)) with
        | None => report H MsgNotSetUp w
        | Some _ =>
            match load_body_on H (config_of (cache_dir_of w)) w with
            | (Return r, w') => (Return r, w')
            | (Raise e, w') =>
                if is_Exception e then report H (MsgErrorLoadingConfig e) w'
                else (Raise e, w')
            end
        end
    end.
Proof.
  unfold load_hla_path_on. rewrite run_bind, get_cache_dir_on_run.
  destruct (home_unresolved H); [reflexivity|].
  cbv beta iota zeta. fold (config_of (cache_dir_of w)).
  rewrite run_bind. unfold path_exists_on at 1.
  destruct (stat_error H (path_str (config_of (cache_dir_of w)))) as [e|].
  - destruct (ignore_error e); [|reflexivity].
    cbn [negb]. apply print_on_run.
  - unfold path_exists at 1.
    destruct (fs w !! path_str (config_of (cache_dir_of w))) as [n|].
    + rewrite bool_decide_eq_true_2 by eauto. cbn [negb]. unfold try_except.
      fold (load_body_on H (config_of (cache_dir_of w))).
      destruct (load_body_on H (config_of (cache_dir_of w)) w) as [[r|e] w']; [reflexivity|].
      destruct (is_Exception e); [|reflexivity]. apply print_on_run.
    + rewrite bool_decide_eq_false_2 by (intros [? ?]; discriminate).
      cbn [negb]. apply print_on_run.
Qed.

(** on the host of the runtime model the loader is [load_hla_path] *)
Lemma load_hla_path_on_plain (w : World) :
  load_hla_path_on plain_host w = load_hla_path w.
Proof. reflexivity. Qed.

Lemma config_value_on_plain (w : World) :
  config_value_on plain_host w = config_path_value w.
Proof.
  unfold config_value_on, config_path_value, config_text. cbn [plain_host open_error text_decode json_limit].
  destruct (fs w !! path_str (config_of (cache_dir_of w))) as [[content|]|]; try reflexivity.
  destruct (Codec.utf8_decode content) as [s|]; reflexivity.
Qed.

(** C7: an error of [config_file.exists()], a home directory that cannot
    be determined and a line the console cannot encode are raised outside
    the [try] of [load_hla_path], and nothing handles them.  In [w_cached]
    the cache holds a good config record; in [w_ok] it holds none. *)
Lemma loader_faults_escape :
  load_hla_path_on host_denied w_cached = (Raise (OSError PermissionError), w_cached) /\
  load_hla_path_on host_no_home w_cached = (Raise RuntimeError, w_cached) /\
  load_hla_path_on host_code_page w_ok = (Raise UnicodeError, w_ok) /\
  ~ loader_never_raises host_denied w_cached /\
  ~ loader_never_raises host_no_home w_cached /\
  ~ loader_never_raises host_code_page w_ok.
Proof.
  assert (H1 : load_hla_path_on host_denied w_cached
               = (Raise (OSError PermissionError), w_cached)).
  { rewrite load_hla_path_on_unfold. reflexivity. }
  assert (H2 : load_hla_path_on host_no_home w_cached = (Raise RuntimeError, w_cached)).
  { rewrite load_hla_path_on_unfold. reflexivity. }
  assert (H3 : load_hla_path_on host_code_page w_ok = (Raise UnicodeError, w_ok)).
  { rewrite load_hla_path_on_unfold. vm_compute. reflexivity. }
  repeat split; try assumption.
  - intros (r & out & Hr). rewrite H1 in Hr. discriminate.
  - intros (r & out & Hr). rewrite H2 in Hr. discriminate.
  - intros (r & out & Hr). rewrite H3 in Hr. discriminate.
Qed.

(** C7 (amended): the loader on any host and in any world.
    - Lines 86-89 are outside the [try]: when [Path.home()] cannot
      determine the home directory its RuntimeError is raised, and when
      [config_file.exists()] fails with an OSError that pathlib does not
      ignore, that error is raised; nothing is printed.
    - When [exists()] answers False the loader prints the guidance line
      and returns None.
    - When it answers True and the file opens, decodes and parses to an
      object with a string under [hla_fasta_path], the loader returns
      that path and prints nothing; otherwise the [try] block raised an
      Exception, the loader prints the error line with it and returns
      None.
    - A [print] that fails (lines 90 and 98) raises its exception.
    - So the loader returns whenever [Path.home()], [exists()] and
      [print] do not fail, whatever [open], the decoder and [json.load]
      do.
    - In every case the file system, the free space and the list of
      requests are as before, and the console is only added to. *)
Theorem load_hla_path_faults (H : Host) (w : World) :
  (home_unresolved H = true ->
     load_hla_path_on H w = (Raise RuntimeError, w)) /\
  (home_unresolved H = false ->
     forall e, stat_error H (path_str (config_of (cache_dir_of w))) = Some e ->
               ignore_error e = false ->
     load_hla_path_on H w = (Raise (OSError e), w)) /\
  (home_unresolved H = false -> config_seen H w = Some false ->
     load_hla_path_on H w = report H MsgNotSetUp w) /\
  (home_unresolved H = false -> config_seen H w = Some true ->
     forall s, config_value_on H w = Some (JStr s) ->
     load_hla_path_on H w = (Return (Some (parse_path (os_flavour w) s)), w)) /\
  (home_unresolved H = false -> config_seen H w = Some true ->
     (forall s, config_value_on H w <> Some (JStr s)) ->
     exists e, is_Exception e = true /\
               load_hla_path_on H w = report H (MsgErrorLoadingConfig e) w) /\
  (home_unresolved H = false -> config_seen H w <> None ->
     (forall m, print_error H m = None) ->
     exists r out, load_hla_path_on H w = (Return r, say w out)) /\
  (forall o w', load_hla_path_on H w = (o, w') -> exists out, w' = say w out).
Proof.
  rewrite load_hla_path_on_unfold. unfold config_seen.
  assert (Hsame : w = say w []) by (unfold say; rewrite app_nil_r, update_id; reflexivity).
  destruct (home_unresolved H).
  { repeat split; try discriminate; try reflexivity.
    intros o w' Hr. inversion Hr; subst. exists []. exact Hsame. }
  destruct (stat_error H (path_str (config_of (cache_dir_of w)))) as [se|].
  { destruct (ignore_error se) eqn:Hig.
    - split; [discriminate|]. split.
      { intros _ e He Hne. inversion He; subst. congruence. }
      split; [reflexivity|]. split; [discriminate|]. split; [discriminate|]. split.
      + intros _ _ Hp. unfold report. rewrite Hp. eauto.
      + intros o w' Hr. destruct (report_say H MsgNotSetUp w) as [out Hout].
        rewrite Hr in Hout. eauto.
    - split; [discriminate|]. split.
      { intros _ e He _. inversion He; subst. reflexivity. }
      split; [discriminate|]. split; [discriminate|]. split; [discriminate|]. split.
      + intros _ Hn. destruct Hn. reflexivity.
      + intros o w' Hr. inversion Hr; subst. exists []. exact Hsame. }
  destruct (fs w !! path_str (config_of (cache_dir_of w))) as [n|] eqn:Hc.
  - rewrite bool_decide_eq_true_2 by eauto.
    destruct (load_body_on_run H w) as (o & Hrun & Ho). rewrite Hrun.
    destruct o as [r|e].
    + destruct Ho as (s & Hs & ->).
      split; [discriminate|]. split; [discriminate|]. split; [discriminate|]. split.
      { intros _ _ s' Hs'. rewrite Hs in Hs'. inversion Hs'; subst. reflexivity. }
      split.
      { intros _ _ Hno. exfalso. eapply Hno; eauto. }
      split.
      { intros _ _ _. exists (Some (parse_path (os_flavour w) s)), [].
        rewrite <- Hsame. reflexivity. }
      intros o w' Hr. inversion Hr; subst. exists []. exact Hsame.
    + destruct Ho as [He Hno]. rewrite He.
      split; [discriminate|]. split; [discriminate|]. split; [discriminate|]. split.
      { intros _ _ s Hs. exfalso. eapply Hno; eauto. }
      split.
      { intros _ _ _. exists e. split; [exact He|reflexivity]. }
      split.
      { intros _ _ Hp. unfold report. rewrite Hp. eauto. }
      intros o w' Hr. destruct (report_say H (MsgErrorLoadingConfig e) w) as [out Hout].
      rewrite Hr in Hout. eauto.
  - rewrite bool_decide_eq_false_2 by (intros [? ?]; discriminate).
    split; [discriminate|]. split; [discriminate|]. split; [reflexivity|].
    split; [discriminate|]. split; [discriminate|]. split.
    + intros _ _ Hp. unfold report. rewrite Hp. eauto.
    + intros o w' Hr. destruct (report_say H MsgNotSetUp w) as [out Hout].
      rewrite Hr in Hout. eauto.
Qed.

Lemma load_hla_path_faults_witness :
  load_hla_path_on host_code_page w_cached
    = (Return (Some (fasta_of ex_cache_dir)), w_cached) /\
  load_hla_path_on plain_host w_file_only
    = (Return None, say w_file_only [MsgNotSetUp]).
Proof.
  split.
  - destruct (load_hla_path_faults host_code_page w_cached) as (_ & _ & _ & Hgood & _).
    apply (Hgood eq_refl eq_refl (path_str (fasta_of ex_cache_dir))).
    vm_compute. reflexivity.
  - destruct (load_hla_path_faults plain_host w_file_only) as (_ & _ & Hmissing & _).
    apply (Hmissing eq_refl eq_refl).
Defined.
